(** * Flight-price analysis service: season classifier, pricing rules,
      chart data, savings, weather upsert and the seeded pseudo-random
      generator.

    A shallow embedding of
      - backend/src/services/flightAnalysisService.ts
      - backend/src/models/WeatherStatistics.ts (calculateWeatherScore)
      - backend/src/models/DailyWeatherData.ts (upsertDailyWeatherData
        and the single-row queries)
      - the price prediction service (holiday multiplier, K-fold split,
        predictPrice, graph data, trend)
      - the holiday service (isLongWeekend, calculateHolidayBoost)
      - backend/src/scripts/fetch-holidays-to-csv.ts (holidaysToCSV,
        parseCSVLine)

    Modelling choices.
      - JavaScript numbers that hold money values and scores are exact
        rationals ([Q]).  The percentile index ceil (p / 100 * n) is taken
        over at most twelve months, where p * n / 100 is never close to
        an integer, so the exact and the floating-point index agree.
        The displayed prices are also computed as the code does, in
        double precision: with every operation rounded to nearest
        ([Ieee]) and on the machine's binary64 numbers ([Binary64]).
      - Integers that the code keeps in 32-bit form are [Z] with the
        wrap-around written out.
      - [Record<number, T>] and [Map<string, T>] are [gmap Z T] and
        [gmap string T]; arrays are lists.
      - Dates are UTC calendar dates (year, month 1-12, day); two dates
        have the same ISO date string exactly when they are equal.
      - What the code reads from the database is an argument of the
        model: the flight rows, the precomputed price percentiles, the
        weather and holiday scores per period, the weather table.
      - The trained regression model is an argument too: the function
        from a row of features to the outcome of its predict call, the
        predicted value or the failure of the call.
      - Where the analysis and prediction services mix local and UTC
        readings of a date, the process is taken to run in UTC.  The
        holiday service parses its dates at local midnight and reads
        their UTC fields: it is modelled for a process on either side
        of UTC.
      - Text that is scanned one UTF-16 code unit at a time (CSV lines)
        is a list of code units. *)

From stdpp Require Import gmap strings list pretty sorting.
From Stdlib Require Import ZArith QArith Qround Qminmax Qabs Lia Lqa.
From Stdlib Require PrimFloat SpecFloat FloatOps Uint63.

Close Scope Q_scope.
Local Open Scope Z_scope.

(* ===================================================================== *)
(** ** JavaScript number primitives                                       *)
(* ===================================================================== *)

Module Js.

(** [ToInt32]: the value modulo 2^32, read as a signed 32-bit integer. *)
Definition toInt32 (x : Z) : Z := (x + 2 ^ 31) mod 2 ^ 32 - 2 ^ 31.

(** [a << n] on numbers: both operands go through ToInt32 / ToUint32,
    the count is taken modulo 32, the result is again a signed 32-bit
    integer. *)
Definition shl (a n : Z) : Z := toInt32 (Z.shiftl (toInt32 a) (n mod 32)).

(** [a & b]: bitwise and of the two ToInt32 images. *)
Definition band (a b : Z) : Z := Z.land (toInt32 a) (toInt32 b).

(** [Math.round]: nearest integer, halves rounded towards +infinity. *)
Definition round (x : Q) : Z := Qfloor (x + (1 # 2))%Q.

(** [Math.ceil]. *)
Definition ceil (x : Q) : Z := Qceiling x.

(** A JavaScript string as its sequence of UTF-16 code units, which is
    what [charCodeAt] reads. *)
Definition JsString := list Z.

(** The code units of an ASCII / Latin-1 literal. *)
Fixpoint codeUnits (s : string) : JsString :=
  match s with
  | EmptyString => []
  | String c s' => Z.of_N (Ascii.N_of_ascii c) :: codeUnits s'
  end.

End Js.

(* ===================================================================== *)
(** ** Deterministic pseudo-random number from a seed string              *)
(* ===================================================================== *)

Module Prng.

(** One iteration of the loop body of [deterministicRandom]:
<<
    hash = ((hash << 5) - hash) + char;
    hash = hash & hash; // Convert to 32-bit integer
>> *)
Definition hashStep (hash char : Z) : Z :=
  let hash := (Js.shl hash 5 - hash) + char in
  Js.band hash hash.

(** The loop over [seed.charCodeAt(i)], starting from [hash = 0]. *)
Definition hashLoop (seed : Js.JsString) : Z := fold_left hashStep seed 0.

(** [Math.abs(hash) % 1000000 / 1000000]. *)
Definition deterministicRandom (seed : Js.JsString) : Q :=
  let hash := hashLoop seed in
  (inject_Z (Z.rem (Z.abs hash) 1000000) / 1000000)%Q.

(** The generator as the specification words it: a 32-bit rolling hash
    with multiplier 31 ((h<<5) - h), reduced to a signed 32-bit value
    after every character. *)
Definition rollingHash_spec (seed : Js.JsString) : Z :=
  fold_left (fun h c => Js.toInt32 (31 * h + c)) seed 0.

Definition mockScore_spec (seed : Js.JsString) : Q :=
  (Z.abs (rollingHash_spec seed) mod 10 ^ 6 # 1000000)%Q.

(** The same recurrence h := (32 h - h) + c over the integers, with no
    reduction to 32 bits: the value the 32-bit hash is congruent to. *)
Definition unboundedHash (seed : Js.JsString) : Z :=
  fold_left (fun h c => (32 * h - h) + c) seed 0.

End Prng.

(* ===================================================================== *)
(** ** Calendar dates and their renderings                                *)
(* ===================================================================== *)

Module Calendar.

(** A UTC calendar date: [month] is [getUTCMonth() + 1], in 1..12. *)
Record Date := mkDate { year : Z; month : Z; day : Z }.

#[global] Instance Date_eq_dec : EqDecision Date.
Proof. solve_decision. Defined.

Definition isLeapYear (y : Z) : bool :=
  ((y mod 4 =? 0) && negb (y mod 100 =? 0)) || (y mod 400 =? 0).

(** Number of days of month [m] (1..12) of year [y]: the day-of-month
    of [new Date(Date.UTC(y, m, 0))] with [m] counted from 1. *)
Definition daysInMonth (y m : Z) : Z :=
  if (m =? 2) then (if isLeapYear y then 29 else 28)
  else if (m =? 4) || (m =? 6) || (m =? 9) || (m =? 11) then 30
  else 31.

Definition pad2 (n : Z) : string :=
  if n <? 10 then "0" +:+ pretty n else pretty n.

Definition pad4 (n : Z) : string :=
  if n <? 10 then "000" +:+ pretty n
  else if n <? 100 then "00" +:+ pretty n
  else if n <? 1000 then "0" +:+ pretty n
  else pretty n.

(** [format(date, 'yyyy-MM')]: the period key of a date. *)
Definition format_yyyy_MM (d : Date) : string :=
  pad4 (year d) +:+ "-" +:+ pad2 (month d).

(** The table of [getThaiMonthName] (index 0 unused). *)
Definition thaiMonths : list string :=
  [ ""; "มกราคม"; "กุมภาพันธ์"; "มีนาคม"; "เมษายน"; "พฤษภาคม"; "มิถุนายน";
    "กรกฎาคม"; "สิงหาคม"; "กันยายน"; "ตุลาคม"; "พฤศจิกายน"; "ธันวาคม" ].

(** [thaiMonths[month] || ''] *)
Definition getThaiMonthName (month : Z) : string :=
  if month <? 0 then "" else default "" (thaiMonths !! Z.to_nat month).

(** [formatThaiDate]: day, Thai month name, year. *)
Definition formatThaiDate (d : Date) : string :=
  pretty (day d) +:+ " " +:+ getThaiMonthName (month d) +:+ " "
    +:+ pretty (year d).

(** The abbreviations of [formatThaiDateShort]. *)
Definition thaiMonthsShort : list string :=
  [ "ม.ค."; "ก.พ."; "มี.ค."; "เม.ย."; "พ.ค."; "มิ.ย.";
    "ก.ค."; "ส.ค."; "ก.ย."; "ต.ค."; "พ.ย."; "ธ.ค." ].

Definition formatThaiDateShort (d : Date) : string :=
  pretty (day d) +:+ " "
    +:+ default "" (thaiMonthsShort !! Z.to_nat (month d - 1)).

(** [addDays(d, 1)] inside one calendar year-month grid. *)
Definition nextDay (d : Date) : Date :=
  if day d <? daysInMonth (year d) (month d)
  then mkDate (year d) (month d) (day d + 1)
  else if month d <? 12 then mkDate (year d) (month d + 1) 1
  else mkDate (year d + 1) 1 1.

End Calendar.

(* ===================================================================== *)
(** ** Data model                                                         *)
(* ===================================================================== *)

Module Model.
Export Calendar.

Inductive SeasonType := low | normal | high.

#[global] Instance SeasonType_eq_dec : EqDecision SeasonType.
Proof. solve_decision. Defined.

Inductive TripType := one_way | round_trip.

#[global] Instance TripType_eq_dec : EqDecision TripType.
Proof. solve_decision. Defined.

(** A row of [flight_prices] as the analysis reads it.  [season] is the
    label stored with the row by the price ingestion. *)
Record FlightPrice := mkFlight {
  departure_date : Date;
  price : Q;
  season : SeasonType;
  trip_type : TripType;
  airline_name : string;
  airline_name_th : string
}.

Record Passengers := mkPassengers { adults : Z; children : Z; infants : Z }.

Record PriceRange := mkRange { min : Q; max : Q }.

Record BestDeal := mkDeal { dates : string; deal_price : Q; airline : string }.

Record SeasonData := mkSeason {
  type : SeasonType;
  months : list string;
  priceRange : PriceRange;
  bestDeal : BestDeal;
  description : string
}.

(** [a < b] and [a <= b] on numbers, as booleans. *)
Definition ltb (a b : Q) : bool := negb (Qle_bool b a).
Definition leb (a b : Q) : bool := Qle_bool a b.

(** [arr.sort((a, b) => a - b)]: ascending, stable. *)
Fixpoint insertAsc (x : Q) (l : list Q) : list Q :=
  match l with
  | [] => [x]
  | y :: l' => if ltb x y then x :: y :: l' else y :: insertAsc x l'
  end.

Definition sortAsc (l : list Q) : list Q :=
  fold_left (fun acc x => insertAsc x acc) l [].

(** [Object.keys] of a record with integer keys: ascending. *)
Definition Object_keys {A} (m : gmap Z A) : list Z :=
  merge_sort Z.le (map_to_list m).*1.

(** [Object.values]: the values in key order. *)
Definition Object_values {A} (m : gmap Z A) : list A :=
  omap (fun k => m !! k) (Object_keys m).

(** [Math.min(...xs)] and [Math.max(...xs)] on a non-empty array. *)
Definition Math_min (xs : list Q) : Q :=
  match xs with [] => 0%Q | x :: xs' => fold_left Qmin xs' x end.
Definition Math_max (xs : list Q) : Q :=
  match xs with [] => 0%Q | x :: xs' => fold_left Qmax xs' x end.

(** [a || b] on strings: the empty string is falsy. *)
Definition strOr (a b : string) : string :=
  if decide (a = "") then b else a.

End Model.

(* ===================================================================== *)
(** ** Pricing rules                                                      *)
(* ===================================================================== *)

Module Pricing.
Import Model.

(** [calculatePriceWithDiscounts] *)
Definition calculatePriceWithDiscounts (price : Q) (passengers : Passengers) : Q :=
  let adultPrice := (price * inject_Z (adults passengers))%Q in
  let childPrice := (price * inject_Z (children passengers) * 0.75)%Q in
  let infantPrice := (price * inject_Z (infants passengers) * 0.1)%Q in
  (adultPrice + childPrice + infantPrice)%Q.

(** [(tripType === 'one-way' ? 0.5 : 1)]; the request's trip type may be
    absent. *)
Definition oneWayFactor (tripType : option TripType) : Q :=
  if decide (tripType = Some one_way) then 0.5%Q else 1%Q.

(** The displayed price as the pricing rules word it, with the one-way
    halving inside the rounding: the passenger mix applied to the stored
    price [p], times 1/2 for a one-way trip, rounded. *)
Definition displayPrice_spec (p : Q) (passengers : Passengers) (oneWay : bool) : Z :=
  Js.round ((inject_Z (adults passengers) * p
             + 0.75 * inject_Z (children passengers) * p
             + 0.1 * inject_Z (infants passengers) * p)
            * (if oneWay then 1 # 2 else 1))%Q.

End Pricing.

(* ===================================================================== *)
(** ** Season classifier                                                  *)
(* ===================================================================== *)

Module Season.
Import Model.

(** [getEmptySeasons] *)
Definition emptySeason (t : SeasonType) : SeasonData :=
  {| type := t;
     months := [];
     priceRange := {| min := 0; max := 0 |};
     bestDeal := {| dates := ""; deal_price := 0; airline := "" |};
     description := "No data available" |}.

Definition getEmptySeasons : list SeasonData :=
  [ emptySeason low; emptySeason normal; emptySeason high ].

(** [percentile(sortedArr, p)].  Reading past the end of the array (which
    needs p > 100) would give [undefined]; it is 0 here. *)
Definition percentile (sortedArr : list Q) (p : Z) : Q :=
  if (length sortedArr =? 0)%nat then 0%Q
  else
    let index :=
      Js.ceil (inject_Z p / 100 * inject_Z (Z.of_nat (length sortedArr)))%Q - 1 in
    nth (Z.to_nat (Z.max 0 index)) sortedArr 0%Q.

(** The first [forEach] of [calculateSeasonsFromFlightPricesWithDemand]:
    [monthPrices] collects, per month number, the prices that are
    positive numbers; [monthPeriods] keeps the period of the first row
    seen for the month. *)
Definition groupStep (acc : gmap Z (list Q) * gmap Z string) (fp : FlightPrice)
  : gmap Z (list Q) * gmap Z string :=
  let '(monthPrices, monthPeriods) := acc in
  let month := month (departure_date fp) in
  let period := format_yyyy_MM (departure_date fp) in
  let '(monthPrices, monthPeriods) :=
    match monthPrices !! month with
    | None => (<[month := []]> monthPrices, <[month := period]> monthPeriods)
    | Some _ => (monthPrices, monthPeriods)
    end in
  let monthPrices :=
    if ltb 0 (price fp)
    then alter (fun prices => prices ++ [price fp]) month monthPrices
    else monthPrices in
  (monthPrices, monthPeriods).

Definition groupByMonth (flightPrices : list FlightPrice)
  : gmap Z (list Q) * gmap Z string :=
  fold_left groupStep flightPrices (∅, ∅).

Definition monthPrices (flightPrices : list FlightPrice) : gmap Z (list Q) :=
  (groupByMonth flightPrices).1.

Definition monthPeriods (flightPrices : list FlightPrice) : gmap Z string :=
  (groupByMonth flightPrices).2.

(** [xs.reduce((sum, p) => sum + p, 0) / xs.length] *)
Definition average (xs : list Q) : Q :=
  (fold_left Qplus xs 0 / inject_Z (Z.of_nat (length xs)))%Q.

(** The body of the loop that fills [monthAvgPrices]: a month gets an
    average only when it has at least one valid price. *)
Definition avgOfMonth (prices : list Q) : option Q :=
  if (0 <? length prices)%nat then
    let validPrices := filter (fun p => ltb 0 p = true) prices in
    if (0 <? length validPrices)%nat then Some (average validPrices) else None
  else None.

Definition monthAvgPrices (flightPrices : list FlightPrice) : gmap Z Q :=
  omap avgOfMonth (monthPrices flightPrices).

(** The fallback price percentile:
    [(sortedPrices.filter(p => p <= avgPrice).length / sortedPrices.length) * 100] *)
Definition fallbackPercentile (sortedPrices : list Q) (avgPrice : Q) : Q :=
  (inject_Z (Z.of_nat (length (filter (fun p => leb p avgPrice = true) sortedPrices)))
   / inject_Z (Z.of_nat (length sortedPrices)) * 100)%Q.

Section Classifier.

(** The three score sources: the precomputed percentiles read from
    [route_price_statistics] (entries with a null percentile left out),
    and the weather and holiday maps the caller passes, all keyed by
    period. *)
Variable pricePercentileMap : gmap string Q.
Variable weatherData : gmap string Q.
Variable holidayData : gmap string Q.
Variable flightPrices : list FlightPrice.

Definition sortedPrices : list Q :=
  sortAsc (Object_values (monthAvgPrices flightPrices)).

(** [monthPeriods[month]]; every month that has an average has a period. *)
Definition periodOf (month : Z) : string :=
  default "" (monthPeriods flightPrices !! month).

Definition pricePercentileOf (month : Z) (avgPrice : Q) : Q :=
  match pricePercentileMap !! periodOf month with
  | Some pp => pp
  | None => fallbackPercentile sortedPrices avgPrice
  end.

(** [weatherData.get(period) ?? 50] and [holidayData.get(period) ?? 50] *)
Definition weatherScoreOf (month : Z) : Q :=
  default 50%Q (weatherData !! periodOf month).
Definition holidayScoreOf (month : Z) : Q :=
  default 50%Q (holidayData !! periodOf month).

Definition seasonScore (month : Z) (avgPrice : Q) : Q :=
  (pricePercentileOf month avgPrice * 0.6
   + holidayScoreOf month * 0.3
   + weatherScoreOf month * 0.1)%Q.

(** [monthSeasonScores]: one score per key of [monthAvgPrices]. *)
Definition monthSeasonScores : gmap Z Q :=
  map_imap (fun month avgPrice => Some (seasonScore month avgPrice))
    (monthAvgPrices flightPrices).

Definition allScores : list Q := sortAsc (Object_values monthSeasonScores).
Definition scoreLowThreshold : Q := percentile allScores 33.
Definition scoreHighThreshold : Q := percentile allScores 67.

Definition classify (score : Q) : SeasonType :=
  if leb score scoreLowThreshold then low
  else if leb scoreHighThreshold score then high
  else normal.

(** [monthSeasonMap]: the label of every month that has a score. *)
Definition monthSeasonMap : gmap Z SeasonType := classify <$> monthSeasonScores.

(** [monthSeasonMap[month] || 'normal'] *)
Definition seasonOrNormal (month : Z) : SeasonType :=
  default normal (monthSeasonMap !! month).

(** The loop [for (let i = 1; i <= 12; i++)] that fills [seasonMonths],
    followed by the ascending sort of each list. *)
Definition seasonMonths (s : SeasonType) : list Z :=
  merge_sort Z.le (filter (fun i => seasonOrNormal i = s) (seqZ 1 12)).

(** [seasonPrices]: every row's stored price, under the label of its
    month (or normal). *)
Definition seasonPrices (s : SeasonType) : list Q :=
  price <$> filter (fun fp => seasonOrNormal (month (departure_date fp)) = s)
              flightPrices.

Definition getPriceRangeForSeason (seasonType : SeasonType) : PriceRange :=
  let prices := seasonPrices seasonType in
  if (0 <? length prices)%nat then
    {| min := Math_min prices; max := Math_max prices |}
  else
    let filteredFlights :=
      filter (fun fp => monthSeasonMap !! month (departure_date fp) = Some seasonType)
        flightPrices in
    if (0 <? length filteredFlights)%nat then
      let flightPricesForSeason := price <$> filteredFlights in
      {| min := Math_min flightPricesForSeason;
         max := Math_max flightPricesForSeason |}
    else {| min := 0; max := 0 |}.

(** [filteredFlights.reduce((min, fp) => fp.price < min.price ? fp : min)] *)
Definition cheapestOf (first : FlightPrice) (rest : list FlightPrice) : FlightPrice :=
  fold_left (fun min fp => if ltb (price fp) (price min) then fp else min)
    rest first.

Definition findBestDealByMonthSeason (targetSeason : SeasonType) : BestDeal :=
  let filteredFlights :=
    filter (fun fp => monthSeasonMap !! month (departure_date fp) = Some targetSeason)
      flightPrices in
  match filteredFlights with
  | first :: rest =>
      let cheapest := cheapestOf first rest in
      {| dates := formatThaiDate (departure_date cheapest);
         deal_price := price cheapest;
         airline := strOr (airline_name_th cheapest) (strOr (airline_name cheapest) "") |}
  | [] => {| dates := ""; deal_price := 0; airline := "" |}
  end.

Definition seasonDescription (s : SeasonType) : string :=
  match s with
  | low => "ราคาถูกที่สุดของปี เหมาะสำหรับผู้ที่มีความยืดหยุ่นในการเดินทาง"
  | normal => "ราคาปานกลาง อากาศดี เหมาะสำหรับการท่องเที่ยว"
  | high => "ช่วงเทศกาลและปิดเทอม ราคาสูงสุด แนะนำจองล่วงหน้า"
  end.

Definition buildSeason (s : SeasonType) : SeasonData :=
  {| type := s;
     months := getThaiMonthName <$> seasonMonths s;
     priceRange := getPriceRangeForSeason s;
     bestDeal := findBestDealByMonthSeason s;
     description := seasonDescription s |}.

(** [calculateSeasonsFromFlightPricesWithDemand] *)
Definition calculateSeasonsFromFlightPricesWithDemand : list SeasonData :=
  if (length flightPrices =? 0)%nat then getEmptySeasons
  else if (length (Object_values (monthAvgPrices flightPrices)) =? 0)%nat
  then getEmptySeasons
  else [ buildSeason low; buildSeason normal; buildSeason high ].

End Classifier.

(** *** Predicates used in the statements about the classifier *)

(** A score is in the range of the data model. *)
Definition inRange (x : Q) : Prop := (0 <= x <= 100)%Q.

(** All scores of a period-keyed map are in range. *)
Definition scoresInRange (m : gmap string Q) : Prop :=
  forall period v, m !! period = Some v -> inRange v.

(** The label rule of [classify] against explicit thresholds. *)
Definition labelWith (t33 t67 s : Q) : SeasonType :=
  if leb s t33 then low else if leb t67 s then high else normal.

(** Different months have different scores. *)
Definition pairwiseDistinct (scores : gmap Z Q) : Prop :=
  forall m1 m2 s1 s2,
    scores !! m1 = Some s1 -> scores !! m2 = Some s2 -> m1 <> m2 ->
    ~ (s1 == s2)%Q.

(** All months have the same score. *)
Definition allEqual (scores : gmap Z Q) : Prop :=
  forall m1 m2 s1 s2,
    scores !! m1 = Some s1 -> scores !! m2 = Some s2 -> (s1 == s2)%Q.

End Season.

(* ===================================================================== *)
(** ** Score producers: weather score and fabricated scores               *)
(* ===================================================================== *)

Module Scores.
Import Model.

(** [Math.max(0, Math.min(100, score))] *)
Definition clampScore (score : Q) : Q := Qmax 0 (Qmin 100 score).

(** [a >= b] on numbers. *)
Definition geb (a b : Q) : bool := Qle_bool b a.

(** [WeatherStatisticsModel.calculateWeatherScore] *)
Definition calculateWeatherScore (temp rain : Q) (humidity : option Q) : Q :=
  let score := 50%Q in
  let score :=
    if geb temp 20 && leb temp 28 then (score + 20)%Q
    else if ltb temp 20 || ltb 32 temp then (score - 20)%Q
    else score in
  let score :=
    if ltb rain 50 then (score + 15)%Q
    else if ltb 200 rain then (score - 15)%Q
    else score in
  let score :=
    match humidity with
    | Some humidity =>
        if geb humidity 50 && leb humidity 70 then (score + 15)%Q
        else if ltb 80 humidity then (score - 15)%Q
        else score
    | None => score
    end in
  clampScore score.

(** [x || d] on a possibly missing number: 0 is falsy. *)
Definition numOr (x : option Q) (d : Q) : Q :=
  match x with
  | Some v => if Qeq_bool v 0 then d else v
  | None => d
  end.

Section Mock.

Variable flightPrices : list FlightPrice.
Variable periods : list string.

(** The average stored price of the rows of a period, if it has rows. *)
Definition periodAvgPrice (period : string) : option Q :=
  let periodPrices :=
    price <$> filter (fun fp => format_yyyy_MM (departure_date fp) = period)
                flightPrices in
  if (0 <? length periodPrices)%nat
  then Some (fold_left Qplus periodPrices 0
             / inject_Z (Z.of_nat (length periodPrices)))%Q
  else None.

Definition allAvgPrices : list Q := sortAsc (omap periodAvgPrice periods).
Definition minPrice : Q := numOr (head allAvgPrices) 0.
Definition maxPrice : Q := numOr (last allAvgPrices) 1.
Definition priceRange : Q := numOr (Some (maxPrice - minPrice)%Q) 1.

(** The fabricated score of one period: the normalised price mapped to
    [base, base + 60], plus a seeded jitter of amplitude 20, clamped. *)
Definition mockScore (base : Q) (seed : Js.JsString) (period : string) : Q :=
  let avgPrice := numOr (periodAvgPrice period) minPrice in
  let normalizedPrice := ((avgPrice - minPrice) / priceRange)%Q in
  let baseScore := (base + normalizedPrice * 60)%Q in
  let baseScore := (baseScore + (Prng.deterministicRandom seed - 0.5) * 20)%Q in
  clampScore baseScore.

(** [generateMockWeatherDataFromPrices]: seeded by period and route. *)
Definition generateMockWeatherDataFromPrices (routeIdentifier : option string)
  : gmap string Q :=
  fold_left
    (fun weatherScores period =>
       let seed := match routeIdentifier with
                   | Some r => if decide (r = "") then period
                               else period +:+ "-" +:+ r
                   | None => period
                   end in
       <[period := mockScore 30 (Js.codeUnits seed) period]> weatherScores)
    periods ∅.

(** [generateMockHolidayDataFromPrices]: seeded by the period alone. *)
Definition generateMockHolidayDataFromPrices : gmap string Q :=
  fold_left
    (fun holidayScores period =>
       <[period := mockScore 35 (Js.codeUnits period) period]> holidayScores)
    periods ∅.

End Mock.

End Scores.

(* ===================================================================== *)
(** ** Daily price chart                                                  *)
(* ===================================================================== *)

Module Chart.
Import Model.

Record ChartEntry := mkEntry {
  entry_startDate : string;
  entry_returnDate : string;
  entry_price : Z;
  entry_season : SeasonType;
  entry_duration : option Z
}.

(** [addDays(d, n)] for a non-negative whole number of days. *)
Definition addDays (d : Date) (n : Z) : Date := Nat.iter (Z.to_nat n) nextDay d.

(** [flightPrices.find(fp => fpDateStr === currentDateStr)]: the first row
    of the list that departs on the given UTC date. *)
Definition findByDate (flightPrices : list FlightPrice) (currentDate : Date)
  : option FlightPrice :=
  List.find (fun fp => bool_decide (departure_date fp = currentDate)) flightPrices.



(** The dates the [while] loop walks through: the first to the last day
    of the target month. *)
Definition monthDays (targetYear targetMonth : Z) : list Date :=
  (fun d => mkDate targetYear targetMonth d)
    <$> seqZ 1 (daysInMonth targetYear targetMonth).

Section Generate.

Variable flightPrices : list FlightPrice.
Variable startDate : option Date.
Variable endDate : option Date.
Variable avgDuration : Q.
Variable tripType : option TripType.
(** The value of [new Date()], used only when no date is passed. *)
Variable today : Date.

(** The body of the loop for one [currentDate]: the entry pushed, if any. *)
Definition chartEntryFor (currentDate : Date) : option ChartEntry :=
  let matchingFlight := findByDate flightPrices currentDate in
  let price := match matchingFlight with Some fp => price fp | None => 0%Q end in
  let flight := findByDate flightPrices currentDate in
  let returnDate :=
    if decide (tripType = Some round_trip) then
      if Qeq_bool avgDuration 0 then None
      else Some (addDays currentDate (Js.round avgDuration))
    else None in
  let hasData := ltb 0 price in
  let isSelectedDate := bool_decide (startDate = Some currentDate) in
  if hasData || isSelectedDate then
    Some {| entry_startDate := formatThaiDateShort currentDate;
            entry_returnDate := match returnDate with
                                | Some r => formatThaiDateShort r
                                | None => ""
                                end;
            entry_price := Js.round price;
            entry_season := match flight with
                            | Some fp => season fp
                            | None => normal
                            end;
            entry_duration := if Qeq_bool avgDuration 0 then None
                              else Some (Js.round avgDuration) |}
  else None.

(** [generateChartData] *)
Definition generateChartData : list ChartEntry :=
  let endPointDate := default (default today startDate) endDate in
  let targetDate := default endPointDate startDate in
  let targetMonth := month targetDate in
  let targetYear := year targetDate in
  omap chartEntryFor (monthDays targetYear targetMonth).

End Generate.

End Chart.

(* ===================================================================== *)
(** ** The money values of the analysis result                            *)
(* ===================================================================== *)

Module Analysis.
Import Model Pricing.

(** [getPriceForDate]: the cheapest stored price among the rows of the
    given date and trip type, 0 when there is none. *)
Definition getPriceForDate (flightPrices : list FlightPrice) (date : Date)
    (tripType : TripType) : Q :=
  if (length flightPrices =? 0)%nat then 0%Q
  else
    let matchingFlights :=
      filter (fun fp => departure_date fp = date /\ trip_type fp = tripType)
        flightPrices in
    match matchingFlights with
    | [] => 0%Q
    | first :: rest =>
        let cheapest :=
          fold_left (fun best current =>
                       if ltb (price current) (price best) then current else best)
            rest first in
        price cheapest
    end.

(** [seasons.reduce((best, season) =>
       season.bestDeal.price < best.bestDeal.price ? season : best)];
    the array always has its three entries. *)
Definition bestDealOf (seasons : list SeasonData) : option SeasonData :=
  match seasons with
  | [] => None
  | first :: rest =>
      Some (fold_left
              (fun best season =>
                 if ltb (deal_price (bestDeal season)) (deal_price (bestDeal best))
                 then season else best)
              rest first)
  end.

(** [tripType || 'round-trip'] *)
Definition tripTypeOrRoundTrip (tripType : option TripType) : TripType :=
  default round_trip tripType.

Section Result.

Variable flightPrices : list FlightPrice.
Variable seasons : list SeasonData.
(** [userSelectedDate]: the request's start date, when it has one. *)
Variable userSelectedDate : option Date.
Variable tripType : option TripType.
Variable passengers : Passengers.

Definition recommendedPrice : Q :=
  match bestDealOf seasons with
  | Some best => deal_price (bestDeal best)
  | None => 0%Q
  end.

Definition adjustedRecommendedPrice : Q :=
  calculatePriceWithDiscounts recommendedPrice passengers.

(** The [savings] variable before the final rounding. *)
Definition savings : Q :=
  match userSelectedDate with
  | Some date =>
      let userSelectedPrice :=
        getPriceForDate flightPrices date (tripTypeOrRoundTrip tripType) in
      if ltb 0 userSelectedPrice && ltb 0 adjustedRecommendedPrice
         && ltb adjustedRecommendedPrice userSelectedPrice
      then (userSelectedPrice - adjustedRecommendedPrice)%Q
      else 0%Q
  | None =>
      let highSeason := List.find (fun s => bool_decide (type s = high)) seasons in
      let highSeasonPrice :=
        match highSeason with
        | Some s => deal_price (bestDeal s)
        | None => 0%Q
        end in
      if ltb 0 highSeasonPrice && ltb 0 adjustedRecommendedPrice
         && ltb adjustedRecommendedPrice highSeasonPrice
      then (highSeasonPrice - adjustedRecommendedPrice)%Q
      else 0%Q
  end.

(** [recommendedPeriod.price] and [recommendedPeriod.savings] *)
Definition recommendedPeriod_price : Z :=
  Js.round (adjustedRecommendedPrice * oneWayFactor tripType)%Q.

Definition recommendedPeriod_savings : Z :=
  Js.round (savings * oneWayFactor tripType)%Q.

(** One entry of the returned [seasons]: the stored best-deal price and
    price range with the passenger discounts (the code spells the three
    products of [calculatePriceWithDiscounts] out again) and the one-way
    factor. *)
Definition displaySeason (season : SeasonData) : SeasonData :=
  let totalPrice := calculatePriceWithDiscounts (deal_price (bestDeal season)) passengers in
  let minPriceWithDiscount := calculatePriceWithDiscounts (min (priceRange season)) passengers in
  let maxPriceWithDiscount := calculatePriceWithDiscounts (max (priceRange season)) passengers in
  {| type := type season;
     months := months season;
     priceRange :=
       {| min := inject_Z (Js.round (minPriceWithDiscount * oneWayFactor tripType)%Q);
          max := inject_Z (Js.round (maxPriceWithDiscount * oneWayFactor tripType)%Q) |};
     bestDeal :=
       {| dates := dates (bestDeal season);
          deal_price := inject_Z (Js.round (totalPrice * oneWayFactor tripType)%Q);
          airline := airline (bestDeal season) |};
     description := description season |}.

Definition displaySeasons : list SeasonData := displaySeason <$> seasons.

(** [priceChartData]: the chart of the month of the anchor date, which is
    the user's date or else the recommended start date (resolved before
    from the best deal; taken as given here).  A start date is always
    passed, so the chart never reads the clock: the last argument only
    fills that slot. *)
Definition priceChartData (recommendedStartDate chartEndDate : Date)
    (avgDuration : Q) : list Chart.ChartEntry :=
  let chartStartDate := default recommendedStartDate userSelectedDate in
  Chart.generateChartData flightPrices (Some chartStartDate) (Some chartEndDate)
    avgDuration (Some (tripTypeOrRoundTrip tripType)) chartStartDate.

End Result.

End Analysis.

(* ===================================================================== *)
(** ** The displayed prices in double precision                           *)
(* ===================================================================== *)

(** JavaScript numbers are IEEE 754 doubles: every product and sum is the
    double nearest to the exact result.  [fl] is that rounding, taken on
    the exact value of an operation; the stored price and the passenger
    counts are doubles already. *)
Module Ieee.
Import Model Pricing Analysis.

(** The double that the literal 0.1 denotes, 3602879701896397 / 2^55,
    which is (1 + 2^-54) / 10.  The literals 0.75, 0.5 and 1 are exact. *)
Definition tenth : Q := 3602879701896397 # 36028797018963968.

(** Doubles the pricing rule meets: multiples of 2^-12 with a significand
    of at most 53 bits (they reach up to 2^41). *)
Definition onGrid (x : Q) : Prop :=
  exists m : Z, Z.abs m <= 2 ^ 53 /\ (x == inject_Z m / 4096)%Q.

(** Rounding to nearest, as far as the pricing rule needs it: for an
    exact result of magnitude at most 2^53 the rounded result is at least
    as near to it as any double of the grid. *)
Definition roundsToNearest (fl : Q -> Q) : Prop :=
  forall x r : Q,
    (Qabs x <= 9007199254740992)%Q -> onGrid r ->
    (Qabs (fl x - x) <= Qabs (r - x))%Q.

(** A rounding of this kind that can be run: to the nearest multiple of
    2^-12, halves upwards. *)
Definition toGrid (x : Q) : Q := (inject_Z (Js.round (x * 4096)) / 4096)%Q.

Section Rounded.

Variable fl : Q -> Q.

(** [x * y] and [x + y] on doubles. *)
Definition mul (x y : Q) : Q := fl (x * y)%Q.
Definition add (x y : Q) : Q := fl (x + y)%Q.

(** [calculatePriceWithDiscounts], operation by operation. *)
Definition calculatePriceWithDiscounts (price : Q) (passengers : Passengers) : Q :=
  let adultPrice := mul price (inject_Z (adults passengers)) in
  let childPrice := mul (mul price (inject_Z (children passengers))) 0.75 in
  let infantPrice := mul (mul price (inject_Z (infants passengers))) tenth in
  add (add adultPrice childPrice) infantPrice.

(** [Math.round(total * (tripType === 'one-way' ? 0.5 : 1))] on the total
    of a stored price. *)
Definition displayedPrice (tripType : option TripType) (passengers : Passengers)
    (price : Q) : Z :=
  Js.round (mul (calculatePriceWithDiscounts price passengers)
              (oneWayFactor tripType)).

(** [recommendedPeriod.price] *)
Definition recommendedPeriod_price (seasons : list SeasonData)
    (tripType : option TripType) (passengers : Passengers) : Z :=
  displayedPrice tripType passengers (recommendedPrice seasons).

(** [seasons[].bestDeal.price] of the result. *)
Definition bestDealPrices (seasons : list SeasonData)
    (tripType : option TripType) (passengers : Passengers) : list Z :=
  (fun season => displayedPrice tripType passengers (deal_price (bestDeal season)))
    <$> seasons.

End Rounded.

(** The stored best-deal prices for which the pricing rule is stated:
    whole, not negative, and with a total below 2^40 for the passenger
    mix. *)
Definition wholePrice (passengers : Passengers) (price : Q) : Prop :=
  exists p : Z,
    (price == inject_Z p)%Q /\ 0 <= p
    /\ p * (adults passengers + children passengers + infants passengers)
       <= 2 ^ 40.

Definition validMix (passengers : Passengers) : Prop :=
  0 <= adults passengers /\ 0 <= children passengers /\ 0 <= infants passengers.

End Ieee.

(** The same computation on the machine's binary64 numbers. *)
Module Binary64.
Import Model Pricing.
Import PrimFloat.

(** The exact value of a finite double. *)
Definition toQ (x : float) : Q :=
  match FloatOps.Prim2SF x with
  | SpecFloat.S754_finite s m e =>
      let v := if 0 <=? e then inject_Z (Z.pos m * 2 ^ e)
               else (inject_Z (Z.pos m) / inject_Z (2 ^ (- e)))%Q in
      if s then Qopp v else v
  | _ => 0%Q
  end.

(** A whole number below 2^53 as a double. *)
Definition ofZ (n : Z) : float := of_uint63 (Uint63.of_Z n).

(** The literal 0.1, written in hexadecimal. *)
Definition tenth : float := 0x1.999999999999ap-4%float.

(** The double nearest to the decimal price 1366.60. *)
Definition price_1366_60 : float := 0x1.55a6666666666p+10%float.

(** [calculatePriceWithDiscounts] *)
Definition calculatePriceWithDiscounts (price : float) (passengers : Passengers)
  : float :=
  let adultPrice := (price * ofZ (adults passengers))%float in
  let childPrice := (price * ofZ (children passengers) * 0.75)%float in
  let infantPrice := (price * ofZ (infants passengers) * tenth)%float in
  (adultPrice + childPrice + infantPrice)%float.

(** [Math.round(total * (tripType === 'one-way' ? 0.5 : 1))] *)
Definition displayedPrice (tripType : option TripType) (passengers : Passengers)
    (price : float) : Z :=
  let factor := if decide (tripType = Some one_way) then 0.5%float else 1%float in
  Js.round (toQ (calculatePriceWithDiscounts price passengers * factor)%float).

(** Whether the double computation shows, for the whole price [p], what
    the pricing rule gives on [p]. *)
Definition agrees (tripType : option TripType) (passengers : Passengers) (p : Z)
  : bool :=
  displayedPrice tripType passengers (ofZ p)
  =? displayPrice_spec (inject_Z p) passengers
       (bool_decide (tripType = Some one_way)).

End Binary64.

(* ===================================================================== *)
(** ** Daily weather rows                                                 *)
(* ===================================================================== *)

Module WeatherStore.

(** [source]: 'open-meteo' is the historical archive, 'openweathermap'
    the short-range forecast. *)
Inductive Source := open_meteo | openweathermap.

#[global] Instance Source_eq_dec : EqDecision Source.
Proof. solve_decision. Defined.

Record Params := mkParams {
  p_province : string;
  p_date : string;
  p_tempMax : Q;
  p_tempMin : Q;
  p_tempAvg : Q;
  p_precipitation : Q;
  p_humidity : option Q;
  p_source : Source;
  p_year : Z;
  p_month : Z;
  p_day : Z
}.

Record DailyWeatherDataRecord := mkRecord {
  id : Z;
  province : string;
  date : string;
  temp_max : Q;
  temp_min : Q;
  temp_avg : Q;
  precipitation : Q;
  humidity : option Q;
  source : Source;
  year : Z;
  month : Z;
  day : Z;
  created_at : Z;
  updated_at : Z
}.

(** The table [daily_weather_data]: at most one row per
    (province, date), and the counter behind the serial [id]. *)
Record Table := mkTable {
  rows : gmap (string * string) DailyWeatherDataRecord;
  next_id : Z
}.

Definition emptyTable : Table := {| rows := ∅; next_id := 1 |}.

(** [upsertDailyWeatherData]: INSERT ... ON CONFLICT (province, date)
    DO UPDATE SET every data column, the source included, to the new
    values; [id] and [created_at] of an existing row stay.  [now] is the
    value of NOW().  Returns the new table and the stored row. *)
Definition upsertDailyWeatherData (now : Z) (params : Params) (t : Table)
  : Table * DailyWeatherDataRecord :=
  let key := (p_province params, p_date params) in
  let row :=
    match rows t !! key with
    | Some old =>
        {| id := id old; province := province old; date := date old;
           temp_max := p_tempMax params; temp_min := p_tempMin params;
           temp_avg := p_tempAvg params;
           precipitation := p_precipitation params;
           humidity := p_humidity params; source := p_source params;
           year := p_year params; month := p_month params; day := p_day params;
           created_at := created_at old; updated_at := now |}
    | None =>
        {| id := next_id t; province := p_province params; date := p_date params;
           temp_max := p_tempMax params; temp_min := p_tempMin params;
           temp_avg := p_tempAvg params;
           precipitation := p_precipitation params;
           humidity := p_humidity params; source := p_source params;
           year := p_year params; month := p_month params; day := p_day params;
           created_at := now; updated_at := now |}
    end in
  ({| rows := <[key := row]> (rows t); next_id := next_id t + 1 |}, row).

(** A run of upserts, oldest first. *)
Definition upsertAll (now : Z) (ps : list Params) (t : Table) : Table :=
  fold_left (fun t p => (upsertDailyWeatherData now p t).1) ps t.

End WeatherStore.

(* ===================================================================== *)
(** ** Sample data                                                        *)
(* ===================================================================== *)

Module Examples.
Import Model.

Definition flight (m d : Z) (p : Q) : FlightPrice :=
  mkFlight (mkDate 2026 m d) p normal round_trip "Thai Airways" "".

(** Three months with different average prices. *)
Definition threeMonths : list FlightPrice :=
  [ flight 1 5 1000; flight 1 6 1200; flight 2 3 1500; flight 3 9 2000 ].

(** Three months, every price the same. *)
Definition equalPrices : list FlightPrice :=
  [ flight 1 5 1000; flight 2 3 1000; flight 3 9 1000 ].

(** Rows in January only. *)
Definition januaryOnly : list FlightPrice := [ flight 1 5 1000 ].




(** One row in each of January, February and March. *)
Definition rowsOf (t : TripType) : list FlightPrice :=
  [ mkFlight (mkDate 2026 1 5) 1000 low t "Thai AirAsia" "";
    mkFlight (mkDate 2026 2 3) 1500 normal t "Thai Airways" "";
    mkFlight (mkDate 2026 3 9) 2000 high t "Thai Airways" "" ].

Definition oneWayRows : list FlightPrice := rowsOf one_way.
Definition roundTripRows : list FlightPrice := rowsOf round_trip.

Definition oneAdult : Passengers := mkPassengers 1 0 0.
Definition twoAdults : Passengers := mkPassengers 2 0 0.
Definition family : Passengers := mkPassengers 2 1 1.

(** As [oneWayRows], with an odd price in January. *)
Definition oddRows : list FlightPrice :=
  [ mkFlight (mkDate 2026 1 5) 1001 low one_way "Thai AirAsia" "";
    mkFlight (mkDate 2026 2 3) 1500 normal one_way "Thai Airways" "";
    mkFlight (mkDate 2026 3 9) 2000 high one_way "Thai Airways" "" ].

(** Two rows for Phuket, 5 January 2026: the archive's and a forecast. *)
Definition historicalRow : WeatherStore.Params :=
  WeatherStore.mkParams "phuket" "2026-01-05" 32 24 28 0 None
    WeatherStore.open_meteo 2026 1 5.

Definition forecastRow : WeatherStore.Params :=
  WeatherStore.mkParams "phuket" "2026-01-05" 35 25 30 12 (Some 80%Q)
    WeatherStore.openweathermap 2026 1 5.

End Examples.

(* ===================================================================== *)
(** ** Season classifier: notions used in further statements              *)
(* ===================================================================== *)

Module SeasonView.
Import Model.



(** Low, Normal, High as 0, 1, 2. *)
Definition rank (s : SeasonType) : Z :=
  match s with low => 0 | normal => 1 | high => 2 end.

End SeasonView.

(* ===================================================================== *)
(** ** Season of a date and the before/after price comparison             *)
(* ===================================================================== *)

Module Comparison.
Import Model Pricing Season Analysis.

(** [addDays(d, -1)] *)
Definition prevDay (d : Date) : Date :=
  if 1 <? day d then mkDate (year d) (month d) (day d - 1)
  else if 1 <? month d
       then mkDate (year d) (month d - 1) (daysInMonth (year d) (month d - 1))
       else mkDate (year d - 1) 12 31.

(** [addDays(d, n)] for a whole number of days of either sign. *)
Definition addDays (d : Date) (n : Z) : Date :=
  if 0 <=? n then Nat.iter (Z.to_nat n) nextDay d
  else Nat.iter (Z.to_nat (- n)) prevDay d.

(** [PRICE_COMPARISON_DAYS] *)
Definition PRICE_COMPARISON_DAYS : Z := 7.

(** [s.includes(sub)]: [sub] occurs in [s] as a contiguous part.  Both
    strings are well-formed text, for which containment of the encoded
    bytes and of the UTF-16 code units agree. *)
Fixpoint includes (s sub : string) : bool :=
  String.prefix sub s
  || match s with
     | EmptyString => false
     | String _ s' => includes s' sub
     end.

(** [arr.findIndex(p)]: the index of the first element that satisfies
    [p], or -1. *)
Fixpoint findIndex {A} (p : A -> bool) (l : list A) : Z :=
  match l with
  | [] => -1
  | x :: l' =>
      if p x then 0
      else let i := findIndex p l' in if i =? -1 then -1 else i + 1
  end.

(** The table of [getMonthIndexFromThaiName] (counted from 0). *)
Definition monthNames : list string :=
  [ "มกราคม"; "กุมภาพันธ์"; "มีนาคม"; "เมษายน"; "พฤษภาคม"; "มิถุนายน";
    "กรกฎาคม"; "สิงหาคม"; "กันยายน"; "ตุลาคม"; "พฤศจิกายน"; "ธันวาคม" ].

(** [getMonthIndexFromThaiName]: the month number 1..12 of a Thai month
    name, by exact match first and by containment either way next; -1
    when no month matches. *)
Definition getMonthIndexFromThaiName (thaiMonthName : string) : Z :=
  let index := findIndex (fun m => bool_decide (m = thaiMonthName)) monthNames in
  if negb (index =? -1) then index + 1
  else
    let index := findIndex (fun m => includes thaiMonthName m || includes m thaiMonthName)
                   monthNames in
    if negb (index =? -1) then index + 1
    else -1.

(** The two nested [forEach] loops of [getSeasonForDate]: every month name
    of every season is written into the map under its month number. *)
Definition recordMonths (acc : gmap Z SeasonType) (season : SeasonData)
  : gmap Z SeasonType :=
  fold_left (fun acc monthName =>
               let monthIndex := getMonthIndexFromThaiName monthName in
               if negb (monthIndex =? -1) then <[monthIndex := type season]> acc
               else acc)
    (months season) acc.

(** [getSeasonForDate]: [monthSeasonMap[month] || 'normal'] *)
Definition getSeasonForDate (date : Date) (seasons : list SeasonData) : SeasonType :=
  let monthSeasonMap := fold_left recordMonths seasons ∅ in
  default normal (monthSeasonMap !! month date).

(** [selectedDateSeason] *)
Definition selectedDateSeason (userSelectedDate : option Date)
    (seasons : list SeasonData) : option SeasonType :=
  match userSelectedDate with
  | Some date => Some (getSeasonForDate date seasons)
  | None => type <$> bestDealOf seasons
  end.

(** The rows [getPriceForDate] and [getAirlineForDate] choose from. *)
Definition matchingFlights (flightPrices : list FlightPrice) (date : Date)
    (tripType : TripType) : list FlightPrice :=
  filter (fun fp => departure_date fp = date /\ trip_type fp = tripType) flightPrices.

(** [getAirlineForDate]: the airline of the cheapest row of the date, the
    Thai name first; [None] is [null]. *)
Definition getAirlineForDate (flightPrices : list FlightPrice) (date : Date)
    (tripType : TripType) : option string :=
  match matchingFlights flightPrices date tripType with
  | [] => None
  | first :: rest =>
      let cheapest :=
        fold_left (fun best current =>
                     if ltb (price current) (price best) then current else best)
          rest first in
      let name := strOr (airline_name_th cheapest) (airline_name cheapest) in
      if decide (name = "") then None else Some name
  end.

(** [formatThaiDateRange] *)
Definition formatThaiDateRange (startDate endDate : Date)
    (tripType : option TripType) : string :=
  if decide (tripType = Some one_way) then formatThaiDate startDate
  else formatThaiDate startDate +:+ " - " +:+ formatThaiDate endDate.

Record ComparisonSide := mkSide {
  side_date : string;
  side_price : Z;
  side_difference : Z;
  side_percentage : Z
}.

Record PriceComparison := mkComparison {
  basePrice : option Z;
  baseAirline : option string;
  ifGoBefore : ComparisonSide;
  ifGoAfter : ComparisonSide
}.

(** The four numbers [beforeDifference], [beforePercentage],
    [afterDifference], [afterPercentage] of [calculatePriceComparison]. *)
Definition differences (basePrice beforePrice afterPrice : Q) : Q * Z * Q * Z :=
  if ltb 0 basePrice then
    let beforeDifference := (beforePrice - basePrice)%Q in
    let afterDifference := (afterPrice - basePrice)%Q in
    (beforeDifference, Js.round (beforeDifference / basePrice * 100)%Q,
     afterDifference, Js.round (afterDifference / basePrice * 100)%Q)
  else if ltb 0 beforePrice && ltb 0 afterPrice then
    let avgPrice := ((beforePrice + afterPrice) / 2)%Q in
    let beforeDifference := (beforePrice - avgPrice)%Q in
    let afterDifference := (afterPrice - avgPrice)%Q in
    (beforeDifference, Js.round (beforeDifference / avgPrice * 100)%Q,
     afterDifference, Js.round (afterDifference / avgPrice * 100)%Q)
  else if ltb 0 beforePrice then
    let afterDifference := (afterPrice - beforePrice)%Q in
    (0%Q, 0,
     afterDifference,
     if ltb 0 afterPrice then Js.round (afterDifference / beforePrice * 100)%Q else 0)
  else if ltb 0 afterPrice then
    let beforeDifference := (beforePrice - afterPrice)%Q in
    (beforeDifference,
     if ltb 0 beforePrice then Js.round (beforeDifference / afterPrice * 100)%Q else 0,
     0%Q, 0)
  else (0%Q, 0, 0%Q, 0).

(** [calculatePriceComparison] *)
Definition calculatePriceComparison (flightPrices : list FlightPrice)
    (baseStartDate : Date) (avgDuration : Q) (tripType : TripType)
    (passengers : Passengers) : PriceComparison :=
  let comparisonDays := PRICE_COMPARISON_DAYS in
  let beforeStartDate := addDays baseStartDate (- comparisonDays) in
  let beforeEndDate := addDays beforeStartDate (Js.round avgDuration) in
  let afterStartDate := addDays baseStartDate comparisonDays in
  let afterEndDate := addDays afterStartDate (Js.round avgDuration) in
  let basePrice := getPriceForDate flightPrices baseStartDate tripType in
  let baseAirline := getAirlineForDate flightPrices baseStartDate tripType in
  let beforePrice := getPriceForDate flightPrices beforeStartDate tripType in
  let afterPrice := getPriceForDate flightPrices afterStartDate tripType in
  let '(beforeDifference, beforePercentage, afterDifference, afterPercentage) :=
    differences basePrice beforePrice afterPrice in
  let safeBasePrice := Js.round (calculatePriceWithDiscounts basePrice passengers) in
  let safeBeforePrice := Js.round (calculatePriceWithDiscounts beforePrice passengers) in
  let safeAfterPrice := Js.round (calculatePriceWithDiscounts afterPrice passengers) in
  {| basePrice := if 0 <? safeBasePrice then Some safeBasePrice else None;
     baseAirline := baseAirline;
     ifGoBefore :=
       {| side_date := formatThaiDateRange beforeStartDate beforeEndDate (Some tripType);
          side_price := safeBeforePrice;
          side_difference := Js.round beforeDifference;
          side_percentage := beforePercentage |};
     ifGoAfter :=
       {| side_date := formatThaiDateRange afterStartDate afterEndDate (Some tripType);
          side_price := safeAfterPrice;
          side_difference := Js.round afterDifference;
          side_percentage := afterPercentage |} |}.

End Comparison.

(* ===================================================================== *)
(** ** Price prediction: holidays, folds, price bands, trend              *)
(* ===================================================================== *)

Module Prediction.
Import Model.

(** The number of leap days before 1 January of year [y]. *)
Definition leapsBefore (y : Z) : Z := (y - 1) / 4 - (y - 1) / 100 + (y - 1) / 400.

(** The number of days of year [y] before the first of month [m]. *)
Definition daysBeforeMonth (y m : Z) : Z :=
  nth (Z.to_nat (m - 1)) [0; 31; 59; 90; 120; 151; 181; 212; 243; 273; 304; 334] 0
  + (if isLeapYear y && (2 <? m) then 1 else 0).

(** [date.getTime() / 86400000] of a date at midnight UTC: days since
    1970-01-01.  The service mixes local and UTC readings of a date; the
    model takes the process to run in UTC, where they agree. *)
Definition dayNumber (d : Date) : Z :=
  365 * (year d - 1970) + (leapsBefore (year d) - leapsBefore 1970)
  + daysBeforeMonth (year d) (month d) + (day d - 1).

(** [date.getDay()]: 0 is Sunday; 1970-01-01 was a Thursday. *)
Definition getDay (d : Date) : Z := (dayNumber d + 4) mod 7.

(** A date of the calendar. *)
Definition validDate (d : Date) : Prop :=
  1 <= month d <= 12 /\ 1 <= day d <= daysInMonth (year d) (month d).

(** [a <= b] on ISO date strings [yyyy-MM-dd] of four-digit years: the
    order of (year, month, day). *)
Definition isoLeb (a b : Date) : bool :=
  (year a <? year b)
  || ((year a =? year b)
      && ((month a <? month b)
          || ((month a =? month b) && (day a <=? day b)))).

Definition THAI_HOLIDAYS_2026 : list Date :=
  [ mkDate 2026 1 1; mkDate 2026 1 2;
    mkDate 2026 2 14;
    mkDate 2026 2 17; mkDate 2026 2 18; mkDate 2026 2 19;
    mkDate 2026 3 3;
    mkDate 2026 4 6;
    mkDate 2026 4 13; mkDate 2026 4 14; mkDate 2026 4 15;
    mkDate 2026 5 1; mkDate 2026 5 4; mkDate 2026 5 31;
    mkDate 2026 6 1; mkDate 2026 6 3;
    mkDate 2026 7 28; mkDate 2026 7 29;
    mkDate 2026 8 12;
    mkDate 2026 10 13; mkDate 2026 10 23;
    mkDate 2026 12 5; mkDate 2026 12 7; mkDate 2026 12 10;
    mkDate 2026 12 24; mkDate 2026 12 25; mkDate 2026 12 31 ].

Record Period := mkPeriod { p_start : Date; p_end : Date; multiplier : Q }.

Definition HIGH_SEASON_PERIODS : list Period :=
  [ mkPeriod (mkDate 2026 1 1) (mkDate 2026 1 5) 1.4;
    mkPeriod (mkDate 2026 2 15) (mkDate 2026 2 20) 1.3;
    mkPeriod (mkDate 2026 4 10) (mkDate 2026 4 18) 1.5;
    mkPeriod (mkDate 2026 7 25) (mkDate 2026 7 31) 1.2;
    mkPeriod (mkDate 2026 10 10) (mkDate 2026 10 25) 1.2;
    mkPeriod (mkDate 2026 12 20) (mkDate 2026 12 31) 1.5 ].

(** [isHoliday] *)
Definition isHoliday (date : Date) : bool :=
  bool_decide (date ∈ THAI_HOLIDAYS_2026).

(** [getHolidayMultiplier]: the multiplier of the first high-season period
    that holds the date; else 1.2 within three days of a holiday; else 1. *)
Definition getHolidayMultiplier (date : Date) : Q :=
  match List.find (fun period => isoLeb (p_start period) date
                                 && isoLeb date (p_end period))
          HIGH_SEASON_PERIODS with
  | Some period => multiplier period
  | None =>
      if existsb (fun holiday => Z.abs (dayNumber date - dayNumber holiday) <=? 3)
           THAI_HOLIDAYS_2026
      then 1.2%Q
      else 1%Q
  end.

(** [prepareFeatures] *)
Definition prepareFeatures (date : Date) (daysUntilDeparture : Z) : list Q :=
  let dayOfWeek := getDay date in
  let monthOfYear := month date - 1 in
  let isWeekend := if (dayOfWeek =? 0) || (dayOfWeek =? 6) then 1 else 0 in
  let isHolidayFlag := if isHoliday date then 1 else 0 in
  let holidayMultiplier := getHolidayMultiplier date in
  let month := month date in
  let isHolidaySeason :=
    if (month =? 12) || (month =? 1) || (month =? 4) then 1 else 0 in
  [ inject_Z dayOfWeek; inject_Z monthOfYear; inject_Z daysUntilDeparture;
    inject_Z isWeekend; inject_Z isHolidaySeason; inject_Z isHolidayFlag;
    holidayMultiplier ].

(** *** K-fold split *)

(** [arr.slice(from, to)] for [0 <= from]. *)
Definition slice {A} (l : list A) (from to : nat) : list A :=
  take (to - from) (drop from l).

Section KFold.
Context {A : Type}.
Variable features : list A.
Variable k : nat.

Definition foldSize : nat := (length features / k)%nat.

(** Whether the data are split at all: [features.length < k * 2] trains
    on everything. *)
Definition usesFolds : bool := negb (length features <? k * 2)%nat.

Definition testFold (fold : nat) : list A :=
  let testStart := (fold * foldSize)%nat in
  let testEnd := (testStart + foldSize)%nat in
  slice features testStart testEnd.

Definition trainFold (fold : nat) : list A :=
  let testStart := (fold * foldSize)%nat in
  let testEnd := (testStart + foldSize)%nat in
  slice features 0 testStart ++ drop testEnd features.

End KFold.

(** *** One prediction *)

Inductive Confidence := conf_high | conf_medium | conf_low.

Record PredictionResult := mkPrediction {
  predictedPrice : Z;
  confidence : Confidence;
  minPrice : Z;
  maxPrice : Z
}.

Section Predict.

(** The trained model, when there is one: the outcome of its [predict]
    call on one row of features, the finite number predicted or [None]
    when the call throws. *)
Variable model : option (list Q -> option Q).
(** [new Date()] at midnight. *)
Variable today : Date.

Definition daysUntil (targetDate : Date) : Z :=
  Z.max 0 (dayNumber targetDate - dayNumber today).

Definition confidenceOf (daysUntilDeparture : Z) : Confidence :=
  if daysUntilDeparture <=? 30 then conf_high
  else if daysUntilDeparture <=? 60 then conf_medium
  else conf_low.

Definition rangePercent (c : Confidence) : Q :=
  match c with
  | conf_high => 0.15
  | conf_medium => 0.20
  | conf_low => 0.25
  end.

(** [predictPrice]; [None] is [null]: returned when there is no model
    and, by the [catch] around the body, when [model.predict] throws. *)
Definition predictPrice (targetDate : Date) : option PredictionResult :=
  match model with
  | None => None
  | Some predict =>
      let daysUntilDeparture := daysUntil targetDate in
      let features := prepareFeatures targetDate daysUntilDeparture in
      match predict features with
      | None => None
      | Some prediction =>
          let predictedPrice := Z.max 0 (Js.round prediction) in
          let holidayMultiplier := getHolidayMultiplier targetDate in
          let predictedPrice :=
            if ltb 1 holidayMultiplier
            then Js.round (inject_Z predictedPrice * holidayMultiplier)%Q
            else predictedPrice in
          let confidence := confidenceOf daysUntilDeparture in
          let rangePercent := rangePercent confidence in
          Some {| predictedPrice := predictedPrice;
                  confidence := confidence;
                  minPrice := Js.round (inject_Z predictedPrice * (1 - rangePercent))%Q;
                  maxPrice := Js.round (inject_Z predictedPrice * (1 + rangePercent))%Q |}
      end
  end.

(** *** Trend *)

(** The value of a division of two finite numbers: finite, or one of the
    values a zero divisor gives. *)
Inductive JsNumber := Finite (q : Q) | PlusInfinity | MinusInfinity | NaN.

(** [a / b * 100] with a non-negative divisor [b]. *)
Definition percentOf (a b : Q) : JsNumber :=
  if Qeq_bool b 0 then
    if ltb 0 a then PlusInfinity else if ltb a 0 then MinusInfinity else NaN
  else Finite (a / b * 100)%Q.

(** [x > c] and [x < c] against a finite constant. *)
Definition gtNum (x : JsNumber) (c : Q) : bool :=
  match x with
  | Finite q => ltb c q
  | PlusInfinity => true
  | MinusInfinity | NaN => false
  end.

Definition ltNum (x : JsNumber) (c : Q) : bool :=
  match x with
  | Finite q => ltb q c
  | MinusInfinity => true
  | PlusInfinity | NaN => false
  end.

(** [Math.round(x * 100) / 100] *)
Definition round2 (x : JsNumber) : JsNumber :=
  match x with
  | Finite q => Finite (inject_Z (Js.round (q * 100)%Q) / 100)%Q
  | other => other
  end.

Inductive Trend := increasing | decreasing | stable.

Record TrendResult := mkTrend {
  trend : Trend;
  changePercent : JsNumber;
  currentAvgPrice : Z;
  futureAvgPrice : Z
}.

(** [getPriceTrend]; [futureDate] is today plus [daysAhead] days. *)
Definition getPriceTrend (futureDate : Date) : option TrendResult :=
  match predictPrice today, predictPrice futureDate with
  | Some currentPrediction, Some futurePrediction =>
      let changePercent :=
        percentOf (inject_Z (predictedPrice futurePrediction)
                   - inject_Z (predictedPrice currentPrediction))
          (inject_Z (predictedPrice currentPrediction)) in
      let trend :=
        if gtNum changePercent 5 then increasing
        else if ltNum changePercent (-5) then decreasing
        else stable in
      Some {| trend := trend;
              changePercent := round2 changePercent;
              currentAvgPrice := predictedPrice currentPrediction;
              futureAvgPrice := predictedPrice futurePrediction |}
  | _, _ => None
  end.

(** *** Graph data *)

Record GraphPoint := mkPoint {
  point_date : Date;
  point_low : Z;
  point_typical : Z;
  point_high : Z;
  isActual : bool
}.

(** A row of the historical query: a departure date and the average
    price of that date. *)
Definition actualPoint (row : Date * Q) : GraphPoint :=
  let typical := Js.round row.2 in
  {| point_date := row.1;
     point_low := Js.round (inject_Z typical * 0.85)%Q;
     point_typical := typical;
     point_high := Js.round (inject_Z typical * 1.3)%Q;
     isActual := true |}.

(** [avgHistoricalPrice] *)
Definition avgHistoricalPrice (rows : list (Date * Q)) : Q :=
  match rows with
  | [] => 3500%Q
  | _ => (fold_left Qplus (snd <$> rows) 0 / inject_Z (Z.of_nat (length rows)))%Q
  end.

(** The point pushed for a date without actual data. *)
Definition predictedPoint (rows : list (Date * Q)) (predictionDate : Date)
  : GraphPoint :=
  match predictPrice predictionDate with
  | Some prediction =>
      let cappedHigh := Js.round (inject_Z (predictedPrice prediction) * 1.3)%Q in
      {| point_date := predictionDate;
         point_low := minPrice prediction;
         point_typical := predictedPrice prediction;
         point_high := cappedHigh;
         isActual := false |}
  | None =>
      let holidayMultiplier := getHolidayMultiplier predictionDate in
      let dayOfWeek := getDay predictionDate in
      let dayMultiplier :=
        if (dayOfWeek =? 0) || (dayOfWeek =? 6) then 1.05%Q else 1%Q in
      let dayHash := day predictionDate + (month predictionDate - 1) * 31 in
      let variation := (0.92 + inject_Z (dayHash mod 17) / 100)%Q in
      let typicalPrice :=
        Js.round (avgHistoricalPrice rows * holidayMultiplier * dayMultiplier
                  * variation)%Q in
      {| point_date := predictionDate;
         point_low := Js.round (inject_Z typicalPrice * 0.85)%Q;
         point_typical := typicalPrice;
         point_high := Js.round (inject_Z typicalPrice * 1.3)%Q;
         isActual := false |}
  end.

(** One round of the prediction loop. *)
Definition graphStep (rows : list (Date * Q)) (startPredictionDate : Date)
    (graphData : list GraphPoint) (day : nat) : list GraphPoint :=
  let predictionDate := Nat.iter day nextDay startPredictionDate in
  if existsb (fun d => bool_decide (point_date d = predictionDate)) graphData
  then graphData
  else graphData ++ [predictedPoint rows predictionDate].

(** [generateGraphData] before the final sort by date: the actual points
    in query order, then the predicted ones in date order. *)
Definition generateGraphData (rows : list (Date * Q)) (startPredictionDate : Date)
    (predictionDays : nat) : list GraphPoint :=
  fold_left (graphStep rows startPredictionDate) (seq 0 predictionDays)
    (actualPoint <$> rows).

End Predict.

(** *** Predicates used in the statements about the graph *)

(** A point whose band is ordered. *)
Definition bandOrdered (p : GraphPoint) : Prop :=
  0 <= point_low p <= point_typical p /\ point_typical p <= point_high p.

(** The invariant of the prediction loop. *)
Definition graphInv (rows : list (Date * Q)) (graphData : list GraphPoint) : Prop :=
  NoDup (point_date <$> graphData)
  /\ (forall row, row ∈ rows -> actualPoint row ∈ graphData)
  /\ (forall p, p ∈ graphData ->
        if isActual p then exists row, row ∈ rows /\ p = actualPoint row
        else point_date p ∉ rows.*1).

End Prediction.

(* ===================================================================== *)
(** ** Holiday service: long weekends and the holiday score               *)
(* ===================================================================== *)

Module HolidayBoost.
Import Model Comparison Prediction.

(** A holiday as the service keeps it; [h_date] is the calendar date
    that the string [date] (yyyy-MM-dd) writes. *)
Record Holiday := mkHoliday {
  h_date : Date;
  h_name : string;
  isPublicHoliday : bool
}.

(** A JavaScript [Date] is an instant.  The service reads it twice: its
    UTC fields ([getUTCDay], [getUTCMonth]) and, through date-fns, its
    fields in the time zone of the process.  An instant is kept as the
    two calendar dates it falls on. *)
Record JsDate := mkJsDate {
  utcDate : Date;
  localDate : Date
}.

(** The side of UTC the process runs on, which is all the holiday
    service depends on: [eastOfUTC] stands for the zones ahead of UTC
    (Asia/Bangkok is UTC+7), [utcOrWest] for UTC and the zones behind. *)
Inductive TimeZone := eastOfUTC | utcOrWest.

(** date-fns [parseISO] of a date without a time: midnight of that date
    in the time zone of the process.  East of UTC that instant still
    lies on the previous day in UTC; at UTC and west of it, on the same
    day. *)
Definition parseISO (zone : TimeZone) (d : Date) : JsDate :=
  {| utcDate := match zone with eastOfUTC => prevDay d | utcOrWest => d end;
     localDate := d |}.

(** date-fns [addDays]: the local date moves by [n] days, the time of day
    stays. *)
Definition addDays (date : JsDate) (n : Z) : JsDate :=
  {| utcDate := Comparison.addDays (utcDate date) n;
     localDate := Comparison.addDays (localDate date) n |}.

(** [date.getUTCDay()] and [date.getUTCMonth() + 1] *)
Definition getUTCDay (date : JsDate) : Z := getDay (utcDate date).
Definition getUTCMonth1 (date : JsDate) : Z := month (utcDate date).

(** date-fns [isWeekend]: Saturday or Sunday, in local time. *)
Definition isWeekend (date : JsDate) : bool :=
  (getDay (localDate date) =? 6) || (getDay (localDate date) =? 0).

(** [isLongWeekend] *)
Definition isLongWeekend (date : JsDate) : bool :=
  let dayOfWeek := getUTCDay date in
  if dayOfWeek =? 5 then true
  else if dayOfWeek =? 1 then true
  else
    let prevDay := addDays date (-1) in
    let nextDay := addDays date 1 in
    if isWeekend prevDay || isWeekend nextDay then true
    else false.

Section Boost.

(** [String.prototype.toLowerCase] *)
Variable toLowerCase : string -> string.
(** The time zone of the process. *)
Variable zone : TimeZone.

Definition isMajorFestival (holiday : Holiday) : bool :=
  let name := toLowerCase (h_name holiday) in
  includes name "สงกรานต์"
  || includes name "ตรุษจีน"
  || includes name "ปีใหม่"
  || includes name "ขื้นปีใหม่"
  || includes name "ขึ้นปีใหม่"
  || includes name "คริสต์มาส"
  || includes name "สิ้นปี".

Definition isImportantHoliday (holiday : Holiday) : bool :=
  if negb (isPublicHoliday holiday) then false
  else
    let name := toLowerCase (h_name holiday) in
    includes name "มาฆบูชา"
    || includes name "วิสาขบูชา"
    || includes name "อาสาฬหบูชา"
    || includes name "เฉลิมพระชนมพรรษา"
    || includes name "แม่"
    || includes name "พ่อ".

Definition isSpecialDay (holiday : Holiday) : bool :=
  let name := toLowerCase (h_name holiday) in
  includes name "วาเลนไทน์"
  || (negb (isPublicHoliday holiday) && negb (isMajorFestival holiday)).

(** The list a holiday is pushed to by the [forEach] of
    [calculateHolidayBoost]; [byDefault] is its last [else]. *)
Inductive Category := majorFestival | importantHoliday | specialDay
                    | regularHoliday | byDefault.

#[global] Instance Category_eq_dec : EqDecision Category.
Proof. solve_decision. Defined.

Definition categoryOf (holiday : Holiday) : Category :=
  if isMajorFestival holiday then majorFestival
  else if isImportantHoliday holiday then importantHoliday
  else if isSpecialDay holiday then specialDay
  else if isPublicHoliday holiday then regularHoliday
  else byDefault.

Definition inCategory (c : Category) (holidays : list Holiday) : list Holiday :=
  filter (fun holiday => categoryOf holiday = c) holidays.

(** [calculateHolidayBoost] *)
Definition calculateHolidayBoost (holidays : list Holiday) : Z :=
  let score := 50 in
  if (length holidays =? 0)%nat then score
  else
    let majorFestivals := inCategory majorFestival holidays in
    let importantHolidays := inCategory importantHoliday holidays in
    let regularHolidays := inCategory regularHoliday holidays in
    let specialDays :=
      filter (fun holiday => categoryOf holiday = specialDay
                             \/ categoryOf holiday = byDefault) holidays in
    let score := score + Z.of_nat (length majorFestivals) * 20 in
    let score := score + Z.of_nat (length importantHolidays) * 10 in
    let score := score + Z.of_nat (length regularHolidays) * 8 in
    let score := score + Z.of_nat (length specialDays) * 5 in
    let longWeekends :=
      filter (fun holiday =>
                let holidayDate := parseISO zone (h_date holiday) in
                isLongWeekend holidayDate = true) holidays in
    let score := score + Z.of_nat (length longWeekends) * 5 in
    let score :=
      match holidays with
      | firstHoliday :: _ =>
          let firstHoliday := parseISO zone (h_date firstHoliday) in
          let month := getUTCMonth1 firstHoliday in
          if (month =? 12) || (month =? 1) || (month =? 4) then score + 20
          else score
      | [] => score
      end in
    Z.max 0 (Z.min 100 score).

Record HolidayStatistics := mkHolidayStatistics {
  hs_period : string;
  holidaysCount : nat;
  longWeekendsCount : nat;
  holidayScore : Z;
  holidaysDetail : list Holiday
}.

(** [getHolidaysForMonth] on the holidays of the year, with the month
    number read from the period. *)
Definition getHolidaysForMonth (yearHolidays : list Holiday) (month : Z)
  : list Holiday :=
  filter (fun holiday =>
            let holidayDate := parseISO zone (h_date holiday) in
            getUTCMonth1 holidayDate = month) yearHolidays.

(** [getHolidayStatisticsForPeriod] when the service is available. *)
Definition getHolidayStatisticsForPeriod (yearHolidays : list Holiday)
    (period : string) (month : Z) : HolidayStatistics :=
  let holidays := getHolidaysForMonth yearHolidays month in
  let longWeekends :=
    length (filter (fun holiday =>
                      let holidayDate := parseISO zone (h_date holiday) in
                      isLongWeekend holidayDate = true) holidays) in
  let holidayScore := calculateHolidayBoost holidays in
  {| hs_period := period;
     holidaysCount := length holidays;
     longWeekendsCount := longWeekends;
     holidayScore := holidayScore;
     holidaysDetail := holidays |}.

End Boost.

End HolidayBoost.

(* ===================================================================== *)
(** ** Daily weather rows: queries                                        *)
(* ===================================================================== *)

Module WeatherQueries.
Import WeatherStore.

(** [exists]: SELECT 1 ... WHERE province = $1 AND date = $2 LIMIT 1 *)
Definition exists_ (t : Table) (province date : string) : bool :=
  bool_decide (is_Some (rows t !! (province, date))).

(** [getDailyWeatherDataForDate]; [None] is [null]. *)
Definition getDailyWeatherDataForDate (t : Table) (province date : string)
  : option DailyWeatherDataRecord :=
  rows t !! (province, date).

(** [getRecordCount]: all rows, or those of a province; the empty string
    is falsy and counts all rows, like a missing argument. *)
Definition getRecordCount (t : Table) (province : option string) : nat :=
  match province with
  | Some p =>
      if decide (p = "") then size (rows t)
      else length (filter (fun kr => WeatherStore.province kr.2 = p)
                     (map_to_list (rows t)))
  | None => size (rows t)
  end.

(** What the unique constraint and the serial id keep true of a table:
    a row is stored under its own province and date, its id is below the
    counter, and different keys have different ids. *)
Definition wellFormed (t : Table) : Prop :=
  (forall key row, rows t !! key = Some row ->
     (WeatherStore.province row, WeatherStore.date row) = key
     /\ id row < next_id t)
  /\ (forall key1 key2 row1 row2,
        rows t !! key1 = Some row1 -> rows t !! key2 = Some row2 ->
        id row1 = id row2 -> key1 = key2).

End WeatherQueries.

(* ===================================================================== *)
(** ** CSV lines                                                          *)
(* ===================================================================== *)

Module Csv.
Import Js.

(** The code units of the double quote and of the comma. *)
Definition quote : Z := 34.
Definition comma : Z := 44.

(** White space and line terminators, which [trim] removes. *)
Definition isWhiteSpace (c : Z) : bool :=
  bool_decide (c ∈ [9; 10; 11; 12; 13; 32; 160; 5760; 8192; 8193; 8194; 8195;
                    8196; 8197; 8198; 8199; 8200; 8201; 8202; 8232; 8233; 8239;
                    8287; 12288; 65279]).

Fixpoint trimStart (s : JsString) : JsString :=
  match s with
  | c :: s' => if isWhiteSpace c then trimStart s' else s
  | [] => []
  end.

(** [s.trim()] *)
Definition trim (s : JsString) : JsString :=
  reverse (trimStart (reverse (trimStart s))).

(** The final [replace] of [parseCSVLine], with the pattern that matches
    a quote at the start or a quote at the end: both are removed. *)
Definition stripQuotes (v : JsString) : JsString :=
  let v1 := match v with
            | c :: v' => if c =? quote then v' else v
            | [] => []
            end in
  match reverse v1 with
  | c :: r => if c =? quote then reverse r else v1
  | [] => []
  end.

(** The [for] loop of [parseCSVLine] from position [i] on: [line] is the
    rest of the line from [i].  An escaped quote consumes two code
    units. *)
Fixpoint parseLoop (line current : JsString) (inQuotes : bool)
    (values : list JsString) : list JsString :=
  match line with
  | [] => values ++ [trim current]
  | char :: rest =>
      if char =? quote then
        match rest with
        | nextChar :: rest' =>
            if inQuotes && (nextChar =? quote)
            then parseLoop rest' (current ++ [quote]) inQuotes values
            else parseLoop rest current (negb inQuotes) values
        | [] => parseLoop rest current (negb inQuotes) values
        end
      else if (char =? comma) && negb inQuotes
      then parseLoop rest [] inQuotes (values ++ [trim current])
      else parseLoop rest (current ++ [char]) inQuotes values
  end.

(** [parseCSVLine] *)
Definition parseCSVLine (line : JsString) : list JsString :=
  stripQuotes <$> parseLoop line [] false [].

(** The [replace] of [holidaysToCSV] that doubles every quote. *)
Definition escapeQuotes (s : JsString) : JsString :=
  flat_map (fun c => if c =? quote then [quote; quote] else [c]) s.

(** [cells.join(',')] *)
Fixpoint joinComma (cells : list JsString) : JsString :=
  match cells with
  | [] => []
  | [cell] => cell
  | cell :: cells' => cell ++ comma :: joinComma cells'
  end.

(** A row of the holiday CSV, every field a string. *)
Record HolidayCSVRow := mkHolidayRow {
  r_date : JsString;
  r_name : JsString;
  r_nameEn : JsString;
  r_type : JsString;
  r_isPublicHoliday : JsString;
  r_year : JsString;
  r_month : JsString;
  r_period : JsString
}.

(** The line [holidaysToCSV] writes for one row: date, type and period in
    quotes, the two names in quotes with their quotes doubled, the other
    fields bare. *)
Definition holidayLine (row : HolidayCSVRow) : JsString :=
  joinComma
    [ [quote] ++ r_date row ++ [quote];
      [quote] ++ escapeQuotes (r_name row) ++ [quote];
      [quote] ++ escapeQuotes (r_nameEn row) ++ [quote];
      [quote] ++ r_type row ++ [quote];
      r_isPublicHoliday row;
      r_year row;
      r_month row;
      [quote] ++ r_period row ++ [quote] ].

(** The values of the row in column order. *)
Definition holidayValues (row : HolidayCSVRow) : list JsString :=
  [ r_date row; r_name row; r_nameEn row; r_type row; r_isPublicHoliday row;
    r_year row; r_month row; r_period row ].

(** A value that [trim] and the final quote stripping leave as it is:
    it neither starts nor ends with white space or a quote. *)
Definition clean (s : JsString) : Prop := trim s = s /\ stripQuotes s = s.

(** A string without quotes, and one without quotes and commas. *)
Definition quoteFree (s : JsString) : Prop := Forall (fun c => c <> quote) s.
Definition plain (s : JsString) : Prop :=
  Forall (fun c => c <> quote /\ c <> comma) s.

(** How a cell is written: in quotes with its quotes doubled, or bare. *)
Inductive Cell := quotedCell (s : JsString) | bareCell (s : JsString).

Definition cellValue (c : Cell) : JsString :=
  match c with quotedCell s | bareCell s => s end.

Definition renderCell (c : Cell) : JsString :=
  match c with
  | quotedCell s => [quote] ++ escapeQuotes s ++ [quote]
  | bareCell s => s
  end.

Definition cellOk (c : Cell) : Prop :=
  clean (cellValue c)
  /\ match c with quotedCell _ => True | bareCell s => plain s end.

(** The tail of a line after a cell: the end of the line or a comma. *)
Definition cellEnd (tail : JsString) : Prop :=
  tail = [] \/ exists rest, tail = comma :: rest.

(** The rows [holidaysToCSV] writes so that they can be read back: clean
    values, no quote in the fields written in plain quotes, neither quote
    nor comma in the bare fields.  The two names are free to hold commas
    and, inside, quotes. *)
Definition rowOk (row : HolidayCSVRow) : Prop :=
  Forall clean (holidayValues row)
  /\ quoteFree (r_date row) /\ quoteFree (r_type row) /\ quoteFree (r_period row)
  /\ plain (r_isPublicHoliday row) /\ plain (r_year row) /\ plain (r_month row).

(** A row whose Thai-calendar name holds a comma and a quoted word. *)
Definition sampleHolidayRow : HolidayCSVRow :=
  {| r_date := codeUnits "2026-04-13";
     r_name := codeUnits "Songkran, " ++ [quote] ++ codeUnits "water" ++ [quote]
               ++ codeUnits " festival";
     r_nameEn := codeUnits "Songkran Festival";
     r_type := codeUnits "national";
     r_isPublicHoliday := codeUnits "true";
     r_year := codeUnits "2026";
     r_month := codeUnits "04";
     r_period := codeUnits "2026-04" |}.

End Csv.

(* ===================================================================== *)
(** * Properties                                                          *)
(* ===================================================================== *)

Section JsFacts.

Lemma toInt32_range (x : Z) : - 2 ^ 31 <= Js.toInt32 x < 2 ^ 31.
Proof.
  unfold Js.toInt32.
  pose proof (Z.mod_pos_bound (x + 2 ^ 31) (2 ^ 32) ltac:(lia)). lia.
Qed.

Lemma toInt32_id (x : Z) : - 2 ^ 31 <= x < 2 ^ 31 -> Js.toInt32 x = x.
Proof.
  intros Hx. unfold Js.toInt32. rewrite Z.mod_small; lia.
Qed.

Lemma toInt32_mod (x y : Z) :
  x mod 2 ^ 32 = y mod 2 ^ 32 -> Js.toInt32 x = Js.toInt32 y.
Proof.
  intros Hxy. unfold Js.toInt32.
  rewrite <- (Zplus_mod_idemp_l x), <- (Zplus_mod_idemp_l y), Hxy.
  reflexivity.
Qed.

Lemma toInt32_congr (x : Z) : Js.toInt32 x mod 2 ^ 32 = x mod 2 ^ 32.
Proof.
  unfold Js.toInt32.
  rewrite Zminus_mod_idemp_l. f_equal. lia.
Qed.

Lemma band_self (x : Z) : Js.band x x = Js.toInt32 x.
Proof. unfold Js.band. apply Z.land_diag. Qed.

End JsFacts.

(* ===================================================================== *)
(** ** The seeded generator                                               *)
(* ===================================================================== *)

Section PrngFacts.

Lemma hashStep_rolling (h c : Z) :
  Prng.hashStep h c = Js.toInt32 (31 * h + c).
Proof.
  unfold Prng.hashStep. rewrite band_self.
  apply toInt32_mod.
  unfold Js.shl. change (5 mod 32) with 5.
  rewrite Z.shiftl_mul_pow2 by lia.
  rewrite <- Zplus_mod_idemp_l, <- Zminus_mod_idemp_l, toInt32_congr.
  rewrite <- Zmult_mod_idemp_l, toInt32_congr, Zmult_mod_idemp_l.
  rewrite Zminus_mod_idemp_l, Zplus_mod_idemp_l.
  f_equal. lia.
Qed.

Lemma hashLoop_rolling (seed : Js.JsString) :
  Prng.hashLoop seed = Prng.rollingHash_spec seed.
Proof.
  unfold Prng.hashLoop, Prng.rollingHash_spec.
  generalize 0. induction seed as [|c seed IH]; intros h; simpl; [done|].
  rewrite hashStep_rolling. apply IH.
Qed.

Lemma hashLoop_range (seed : Js.JsString) :
  - 2 ^ 31 <= Prng.hashLoop seed < 2 ^ 31.
Proof.
  unfold Prng.hashLoop.
  assert (H0 : - 2 ^ 31 <= 0 < 2 ^ 31) by lia. revert H0.
  generalize 0. induction seed as [|c seed IH]; intros h Hh; simpl; [done|].
  apply IH. rewrite hashStep_rolling. apply toInt32_range.
Qed.

Lemma hashLoop_congruent (seed : Js.JsString) :
  (Prng.hashLoop seed - Prng.unboundedHash seed) mod 2 ^ 32 = 0.
Proof.
  unfold Prng.hashLoop, Prng.unboundedHash.
  assert (Hgen : forall h h', (h - h') mod 2 ^ 32 = 0 ->
            (fold_left Prng.hashStep seed h
             - fold_left (fun h c => 32 * h - h + c) seed h') mod 2 ^ 32 = 0).
  { induction seed as [|c seed IH]; intros h h' Hh; [done|].
    cbn [fold_left]. apply IH. rewrite hashStep_rolling.
    unfold Js.toInt32. revert Hh. Z.to_euclidean_division_equations. lia. }
  by apply Hgen.
Qed.

Lemma int32_unique (h h' : Z) :
  - 2 ^ 31 <= h < 2 ^ 31 -> - 2 ^ 31 <= h' < 2 ^ 31 ->
  (h - h') mod 2 ^ 32 = 0 -> h = h'.
Proof. intros Hh Hh'. Z.to_euclidean_division_equations. lia. Qed.

(** C9. For every seed the generator is the 32-bit rolling hash
    h := int32 (31 h + c_i) of the seed's code units followed by
    (|h| mod 10^6) / 10^6, and the value lies in [0, 1).  The hash is
    pinned without reference to the 32-bit operations of the code: it is
    the one integer of [-2^31, 2^31) congruent modulo 2^32 to the
    recurrence h := (32 h - h) + c_i taken over the integers.  The
    generator reads nothing but its argument, so it is a function of the
    seed: equal seeds give equal values in every run. *)
Theorem C9_deterministicRandom_rolling_hash (seed : Js.JsString) :
  - 2 ^ 31 <= Prng.hashLoop seed < 2 ^ 31
  /\ Prng.hashLoop seed = Prng.rollingHash_spec seed
  /\ (Prng.deterministicRandom seed == Prng.mockScore_spec seed)%Q
  /\ (0 <= Prng.deterministicRandom seed)%Q
  /\ (Prng.deterministicRandom seed < 1)%Q
  /\ (Prng.hashLoop seed - Prng.unboundedHash seed) mod 2 ^ 32 = 0
  /\ (forall h : Z,
        - 2 ^ 31 <= h < 2 ^ 31 ->
        (h - Prng.unboundedHash seed) mod 2 ^ 32 = 0 ->
        Prng.hashLoop seed = h
        /\ (Prng.deterministicRandom seed
            == inject_Z (Z.abs h mod 1000000) / 1000000)%Q).
Proof.
  assert (Hspec : (Prng.deterministicRandom seed == Prng.mockScore_spec seed)%Q).
  { unfold Prng.deterministicRandom, Prng.mockScore_spec.
    rewrite <- hashLoop_rolling.
    rewrite Z.rem_mod_nonneg by lia.
    change (10 ^ 6) with 1000000.
    rewrite (Qmake_Qdiv _ 1000000). reflexivity. }
  assert (Hb : 0 <= Z.abs (Prng.rollingHash_spec seed) mod 10 ^ 6 < 10 ^ 6)
    by (apply Z.mod_pos_bound; lia).
  split; [apply hashLoop_range|].
  split; [apply hashLoop_rolling|].
  split; [exact Hspec|].
  split.
  { rewrite Hspec. unfold Prng.mockScore_spec, Qle. simpl.
    change (10 ^ 6) with 1000000 in *. lia. }
  split.
  { rewrite Hspec. unfold Prng.mockScore_spec, Qlt. simpl.
    change (10 ^ 6) with 1000000 in *. lia. }
  split; [apply hashLoop_congruent|].
  intros h Hh Hcong.
  assert (Heq : Prng.hashLoop seed = h).
  { apply int32_unique; [apply hashLoop_range | done |].
    pose proof (hashLoop_congruent seed) as Hc. revert Hc Hcong.
    Z.to_euclidean_division_equations. lia. }
  split; [done|]. rewrite <- Heq. unfold Prng.deterministicRandom.
  by rewrite Z.rem_mod_nonneg by lia.
Qed.

(** C9 at the seed 2026-01: the recurrence over the integers gives
    45797212844, the 32-bit hash is -1447427412 and the value 0.427412. *)
Lemma C9_deterministicRandom_rolling_hash_witness :
  Prng.unboundedHash (Js.codeUnits "2026-01") = 45797212844
  /\ Prng.hashLoop (Js.codeUnits "2026-01") = -1447427412
  /\ (Prng.deterministicRandom (Js.codeUnits "2026-01") == 427412 # 1000000)%Q.
Proof.
  destruct (C9_deterministicRandom_rolling_hash (Js.codeUnits "2026-01"))
    as (_ & _ & _ & _ & _ & _ & Hpin).
  destruct (Hpin (-1447427412)) as [Hhash Hvalue]; [by vm_compute..|].
  split; [by vm_compute|]. split; [exact Hhash|].
  rewrite Hvalue. by vm_compute.
Defined.

End PrngFacts.

(* ===================================================================== *)
(** ** Sorting and record enumeration                                     *)
(* ===================================================================== *)

Section ModelFacts.
Import Model.

Lemma ltb_lt (a b : Q) : ltb a b = true <-> (a < b)%Q.
Proof.
  unfold ltb. rewrite negb_true_iff, <- not_true_iff_false, Qle_bool_iff.
  split; [apply Qnot_le_lt | apply Qlt_not_le].
Qed.

Lemma ltb_ge (a b : Q) : ltb a b = false <-> (b <= a)%Q.
Proof.
  unfold ltb. rewrite negb_false_iff. apply Qle_bool_iff.
Qed.

Lemma leb_le (a b : Q) : leb a b = true <-> (a <= b)%Q.
Proof. apply Qle_bool_iff. Qed.

Lemma leb_gt (a b : Q) : leb a b = false <-> (b < a)%Q.
Proof.
  unfold leb. rewrite <- not_true_iff_false, Qle_bool_iff.
  split; [apply Qnot_le_lt | apply Qlt_not_le].
Qed.

Lemma insertAsc_Permutation (x : Q) (l : list Q) : insertAsc x l ≡ₚ x :: l.
Proof.
  induction l as [|y l IH]; simpl; [done|].
  destruct (ltb x y); [done|].
  rewrite IH. apply Permutation_swap.
Qed.

Lemma insertAsc_HdRel (a x : Q) (l : list Q) :
  (a <= x)%Q -> HdRel Qle a l -> HdRel Qle a (insertAsc x l).
Proof.
  intros Hax Hl. destruct l as [|y l]; simpl; [by constructor|].
  destruct (ltb x y); constructor; [done|].
  by inversion Hl.
Qed.

Lemma insertAsc_Sorted (x : Q) (l : list Q) :
  Sorted Qle l -> Sorted Qle (insertAsc x l).
Proof.
  induction l as [|y l IH]; intros Hl; simpl.
  - repeat constructor.
  - destruct (ltb x y) eqn:Hxy.
    + constructor; [done|]. constructor. apply Qlt_le_weak. by apply ltb_lt.
    + inversion Hl as [|? ? Hs Hh]; subst.
      constructor; [by apply IH|].
      apply insertAsc_HdRel; [by apply ltb_ge | done].
Qed.

Lemma sortAsc_Permutation (l : list Q) : sortAsc l ≡ₚ l.
Proof.
  unfold sortAsc.
  assert (H : forall acc, fold_left (fun acc x => insertAsc x acc) l acc ≡ₚ acc ++ l).
  { induction l as [|x l IH]; intros acc; simpl.
    - by rewrite app_nil_r.
    - rewrite IH, insertAsc_Permutation. simpl. apply Permutation_middle. }
  apply (H []).
Qed.

Lemma sortAsc_Sorted (l : list Q) : Sorted Qle (sortAsc l).
Proof.
  unfold sortAsc.
  assert (H : forall acc, Sorted Qle acc ->
                Sorted Qle (fold_left (fun acc x => insertAsc x acc) l acc)).
  { induction l as [|x l IH]; intros acc Hacc; simpl; [done|].
    apply IH. by apply insertAsc_Sorted. }
  apply H. constructor.
Qed.

Lemma sortAsc_length (l : list Q) : length (sortAsc l) = length l.
Proof. by rewrite sortAsc_Permutation. Qed.

Lemma Object_keys_Permutation {A} (m : gmap Z A) :
  Object_keys m ≡ₚ (map_to_list m).*1.
Proof. apply merge_sort_Permutation. Qed.

Lemma elem_of_Object_keys {A} (m : gmap Z A) (k : Z) :
  k ∈ Object_keys m <-> is_Some (m !! k).
Proof.
  rewrite Object_keys_Permutation, list_elem_of_fmap. split.
  - intros [[k' v] [-> Hin]]. apply elem_of_map_to_list in Hin. by exists v.
  - intros [v Hv]. exists (k, v). split; [done|]. by apply elem_of_map_to_list.
Qed.

Lemma Object_keys_NoDup {A} (m : gmap Z A) : NoDup (Object_keys m).
Proof. rewrite Object_keys_Permutation. apply NoDup_fst_map_to_list. Qed.

Lemma Object_keys_length {A} (m : gmap Z A) : length (Object_keys m) = size m.
Proof.
  rewrite Object_keys_Permutation, length_fmap. apply length_map_to_list.
Qed.

Lemma Object_keys_Sorted {A} (m : gmap Z A) : Sorted Z.le (Object_keys m).
Proof. apply (Sorted_merge_sort Z.le). Qed.

Lemma omap_lookup_keys {A} (m : gmap Z A) (ks : list Z) :
  Forall (fun k => is_Some (m !! k)) ks ->
  (fun k => m !! k) <$> ks = Some <$> omap (fun k => m !! k) ks.
Proof.
  induction 1 as [|k ks [v Hv] _ IH]; csimpl; [done|].
  rewrite Hv. csimpl. by rewrite IH.
Qed.

Lemma Object_values_lookup {A} (m : gmap Z A) :
  (fun k => m !! k) <$> Object_keys m = Some <$> Object_values m.
Proof.
  apply omap_lookup_keys, Forall_forall. intros k. apply elem_of_Object_keys.
Qed.

Lemma Object_values_length {A} (m : gmap Z A) : length (Object_values m) = size m.
Proof.
  rewrite <- Object_keys_length.
  rewrite <- (length_fmap Some (Object_values m)), <- Object_values_lookup.
  apply length_fmap.
Qed.

Lemma elem_of_Object_values {A} (m : gmap Z A) (x : A) :
  x ∈ Object_values m <-> exists k, m !! k = Some x.
Proof.
  unfold Object_values. rewrite list_elem_of_omap. split.
  - intros (k & _ & Hk). by exists k.
  - intros [k Hk]. exists k. split; [|done]. apply elem_of_Object_keys. by exists x.
Qed.

End ModelFacts.

(** Case analysis on the lookups of a concrete map. *)
Ltac enum_lookup H :=
  apply elem_of_map_to_list in H;
  let l := fresh "l" in
  let Hl := fresh "Hl" in
  remember (map_to_list _) as l eqn:Hl in H;
  vm_compute in Hl; subst l;
  repeat (apply elem_of_cons in H as [H|H];
          [first [discriminate H | injection H as -> ->]|]);
  [..|by apply elem_of_nil in H].

(* ===================================================================== *)
(** ** Season classifier: grouping and scores                             *)
(* ===================================================================== *)

Section SeasonFacts.
Import Model Season.

Lemma groupStep_other acc fp (m : Z) :
  month (departure_date fp) <> m ->
  (groupStep acc fp).1 !! m = acc.1 !! m /\ (groupStep acc fp).2 !! m = acc.2 !! m.
Proof.
  intros Hm. destruct acc as [mp mper]. unfold groupStep.
  destruct (mp !! month (departure_date fp)) eqn:Hl;
    destruct (ltb 0 (price fp)); simpl;
    rewrite ?lookup_alter_ne, ?lookup_insert_ne by done; done.
Qed.

Lemma groupStep_periods acc fp (m : Z) :
  (is_Some (acc.1 !! m) -> is_Some (acc.2 !! m)) ->
  is_Some ((groupStep acc fp).1 !! m) -> is_Some ((groupStep acc fp).2 !! m).
Proof.
  intros Hacc. destruct (decide (month (departure_date fp) = m)) as [<-|Hne].
  - destruct acc as [mp mper]. unfold groupStep. simpl in Hacc.
    destruct (mp !! month (departure_date fp)) eqn:Hl;
      destruct (ltb 0 (price fp)); simpl; intros _.
    + apply Hacc; eauto.
    + apply Hacc; eauto.
    + rewrite lookup_insert_eq. eauto.
    + rewrite lookup_insert_eq. eauto.
  - destruct (groupStep_other acc fp m Hne) as [-> ->]. done.
Qed.

Lemma monthPrices_no_rows (flightPrices : list FlightPrice) (m : Z) :
  (forall fp, fp ∈ flightPrices -> month (departure_date fp) <> m) ->
  monthPrices flightPrices !! m = None.
Proof.
  unfold monthPrices, groupByMonth.
  assert (H : forall acc : gmap Z (list Q) * gmap Z string,
             acc.1 !! m = None ->
             (forall fp, fp ∈ flightPrices -> month (departure_date fp) <> m) ->
             (fold_left groupStep flightPrices acc).1 !! m = None).
  { induction flightPrices as [|fp fps IH]; intros acc Hacc Hno; simpl; [done|].
    apply IH.
    - destruct (groupStep_other acc fp m) as [-> _]; [|done].
      apply Hno. by left.
    - intros fp' Hin. apply Hno. by right. }
  intros Hno. by apply H.
Qed.

Lemma monthPeriods_defined (flightPrices : list FlightPrice) (m : Z) :
  is_Some (monthPrices flightPrices !! m) -> is_Some (monthPeriods flightPrices !! m).
Proof.
  unfold monthPrices, monthPeriods, groupByMonth.
  assert (H : forall acc : gmap Z (list Q) * gmap Z string,
             (is_Some (acc.1 !! m) -> is_Some (acc.2 !! m)) ->
             is_Some ((fold_left groupStep flightPrices acc).1 !! m) ->
             is_Some ((fold_left groupStep flightPrices acc).2 !! m)).
  { induction flightPrices as [|fp fps IH]; intros acc Hacc; simpl; [done|].
    apply IH. by apply groupStep_periods. }
  apply H. simpl. rewrite lookup_empty. by intros [? ?].
Qed.

Lemma avgOfMonth_Some (prices : list Q) (avg : Q) :
  avgOfMonth prices = Some avg ->
  let validPrices := filter (fun p => ltb 0 p = true) prices in
  (0 < length validPrices)%nat /\ avg = average validPrices.
Proof.
  unfold avgOfMonth. destruct (0 <? length prices)%nat; [|done].
  destruct (0 <? length (filter _ prices))%nat eqn:Hv; [|done].
  intros [= <-]. split; [|done]. by apply Nat.ltb_lt.
Qed.

Lemma monthAvgPrices_Some (flightPrices : list FlightPrice) (m : Z) (avg : Q) :
  monthAvgPrices flightPrices !! m = Some avg ->
  exists prices, monthPrices flightPrices !! m = Some prices
                 /\ avgOfMonth prices = Some avg.
Proof.
  unfold monthAvgPrices. rewrite lookup_omap.
  destruct (monthPrices flightPrices !! m) as [prices|]; [|done].
  simpl. intros Havg. by exists prices.
Qed.

Lemma monthSeasonScores_lookup ppm wd hd (flightPrices : list FlightPrice) (m : Z) :
  monthSeasonScores ppm wd hd flightPrices !! m
  = seasonScore ppm wd hd flightPrices m <$> monthAvgPrices flightPrices !! m.
Proof.
  unfold monthSeasonScores. rewrite map_lookup_imap.
  by destruct (monthAvgPrices flightPrices !! m).
Qed.

Lemma monthSeasonMap_lookup ppm wd hd (flightPrices : list FlightPrice) (m : Z) :
  monthSeasonMap ppm wd hd flightPrices !! m
  = classify ppm wd hd flightPrices
      <$> monthSeasonScores ppm wd hd flightPrices !! m.
Proof. unfold monthSeasonMap. by rewrite lookup_fmap. Qed.

Lemma sortedPrices_length (flightPrices : list FlightPrice) :
  length (sortedPrices flightPrices) = size (monthAvgPrices flightPrices).
Proof. unfold sortedPrices. by rewrite sortAsc_length, Object_values_length. Qed.



Lemma default_inRange (m : gmap string Q) (period : string) :
  scoresInRange m -> inRange (default 50%Q (m !! period)).
Proof.
  intros Hm. destruct (m !! period) as [v|] eqn:Hv; simpl.
  - by apply (Hm period).
  - unfold inRange. lra.
Qed.

(** C10. With zero flight rows the season calculation returns the three
    placeholder entries, in the order low, normal, high, each with no
    months, price range 0..0 and an empty best deal of price 0. *)
Theorem C10_no_rows_gives_empty_seasons
    (pricePercentileMap weatherData holidayData : gmap string Q) :
  calculateSeasonsFromFlightPricesWithDemand
    pricePercentileMap weatherData holidayData []
  = [ {| type := low; months := [];
         priceRange := {| min := 0; max := 0 |};
         bestDeal := {| dates := ""; deal_price := 0; airline := "" |};
         description := "No data available" |};
      {| type := normal; months := [];
         priceRange := {| min := 0; max := 0 |};
         bestDeal := {| dates := ""; deal_price := 0; airline := "" |};
         description := "No data available" |};
      {| type := high; months := [];
         priceRange := {| min := 0; max := 0 |};
         bestDeal := {| dates := ""; deal_price := 0; airline := "" |};
         description := "No data available" |} ].
Proof. reflexivity. Qed.

End SeasonFacts.

(* ===================================================================== *)
(** ** Season classifier: thresholds and labels                           *)
(* ===================================================================== *)

Section ClassifierFacts.
Import Model Season.

Lemma ceil_ratio (p n : Z) :
  let c := Js.ceil (inject_Z p / 100 * inject_Z n)%Q in
  p * n <= 100 * c < p * n + 100.
Proof.
  unfold Js.ceil, Qceiling, Qfloor. cbn.
  change (Z.pos (1 * 100 * 1)) with 100.
  Z.to_euclidean_division_equations. lia.
Qed.

Lemma percentile_spec (sorted : list Q) (p : Z) :
  0 < p <= 100 -> (0 < length sorted)%nat ->
  exists i,
    p * Z.of_nat (length sorted) <= 100 * (i + 1) < p * Z.of_nat (length sorted) + 100
    /\ sorted !! Z.to_nat (Z.max 0 i) = Some (percentile sorted p).
Proof.
  intros Hp Hn. unfold percentile.
  destruct (Nat.eqb_spec (length sorted) 0) as [H0|_]; [lia|].
  pose proof (ceil_ratio p (Z.of_nat (length sorted))) as Hc. cbv zeta in Hc.
  set (c := Js.ceil _) in *. clearbody c.
  exists (c - 1). split; [lia|].
  destruct (nth_lookup_or_length sorted (Z.to_nat (Z.max 0 (c - 1))) 0%Q)
    as [Hl|Hl]; [exact Hl|].
  assert (p * Z.of_nat (length sorted) <= 100 * Z.of_nat (length sorted))
    by (apply Z.mul_le_mono_nonneg_r; lia).
  lia.
Qed.

Lemma allScores_length ppm wd hd (flightPrices : list FlightPrice) :
  length (allScores ppm wd hd flightPrices)
  = size (monthSeasonScores ppm wd hd flightPrices).
Proof. unfold allScores. by rewrite sortAsc_length, Object_values_length. Qed.

Lemma elem_of_allScores ppm wd hd (flightPrices : list FlightPrice) (x : Q) :
  x ∈ allScores ppm wd hd flightPrices
  <-> exists m, monthSeasonScores ppm wd hd flightPrices !! m = Some x.
Proof.
  unfold allScores. rewrite sortAsc_Permutation. apply elem_of_Object_values.
Qed.

Lemma classify_cases ppm wd hd (flightPrices : list FlightPrice) (s : Q) :
  let t33 := scoreLowThreshold ppm wd hd flightPrices in
  let t67 := scoreHighThreshold ppm wd hd flightPrices in
  ((s <= t33)%Q -> classify ppm wd hd flightPrices s = low)
  /\ ((t33 < s)%Q -> (t67 <= s)%Q -> classify ppm wd hd flightPrices s = high)
  /\ ((t33 < s)%Q -> (s < t67)%Q -> classify ppm wd hd flightPrices s = normal).
Proof.
  intros t33 t67. unfold classify. fold t33 t67.
  split; [|split].
  - intros H%leb_le. by rewrite H.
  - intros H1%leb_gt H2%leb_le. by rewrite H1, H2.
  - intros H1%leb_gt H2%leb_gt. by rewrite H1, H2.
Qed.

(** C2. For a non-empty set of monthly season scores the thresholds
    t33 and t67 are the entries of the ascending-sorted scores at index
    ceil(p/100 n) - 1 (clamped to 0) for p = 33 and p = 67, and a month
    is Low if its score is at most t33, otherwise High if its score is at
    least t67, otherwise Normal. *)
Theorem C2_percentile_thresholds_and_labels
    (pricePercentileMap weatherData holidayData : gmap string Q)
    (flightPrices : list FlightPrice) :
  let scores := monthSeasonScores pricePercentileMap weatherData holidayData flightPrices in
  let label := monthSeasonMap pricePercentileMap weatherData holidayData flightPrices in
  let t33 := scoreLowThreshold pricePercentileMap weatherData holidayData flightPrices in
  let t67 := scoreHighThreshold pricePercentileMap weatherData holidayData flightPrices in
  let n := Z.of_nat (size scores) in
  (0 < size scores)%nat ->
  exists (sorted : list Q) (i33 i67 : Z),
    sorted ≡ₚ Object_values scores
    /\ Sorted Qle sorted
    /\ (forall x, x ∈ sorted <-> exists m, scores !! m = Some x)
    /\ 33 * n <= 100 * (i33 + 1) < 33 * n + 100
    /\ 67 * n <= 100 * (i67 + 1) < 67 * n + 100
    /\ sorted !! Z.to_nat (Z.max 0 i33) = Some t33
    /\ sorted !! Z.to_nat (Z.max 0 i67) = Some t67
    /\ forall m s, scores !! m = Some s ->
         ((s <= t33)%Q -> label !! m = Some low)
         /\ ((t33 < s)%Q -> (t67 <= s)%Q -> label !! m = Some high)
         /\ ((t33 < s)%Q -> (s < t67)%Q -> label !! m = Some normal).
Proof.
  intros scores label t33 t67 n Hn.
  set (sorted := allScores pricePercentileMap weatherData holidayData flightPrices).
  assert (Hlen : length sorted = size scores) by apply allScores_length.
  destruct (percentile_spec sorted 33) as (i33 & Hi33 & Hl33); [lia|lia|].
  destruct (percentile_spec sorted 67) as (i67 & Hi67 & Hl67); [lia|lia|].
  rewrite Hlen in Hi33, Hi67.
  exists sorted, i33, i67.
  split; [apply sortAsc_Permutation|].
  split; [apply sortAsc_Sorted|].
  split; [apply elem_of_allScores|].
  split; [exact Hi33|]. split; [exact Hi67|].
  split; [exact Hl33|]. split; [exact Hl67|].
  intros m s Hs. subst label. rewrite monthSeasonMap_lookup. fold scores.
  rewrite Hs. simpl.
  destruct (classify_cases pricePercentileMap weatherData holidayData flightPrices s)
    as (Hlow & Hhigh & Hnormal).
  split; [|split].
  - intros H. by rewrite Hlow.
  - intros H1 H2. by rewrite Hhigh.
  - intros H1 H2. by rewrite Hnormal.
Qed.

Lemma C2_percentile_thresholds_and_labels_witness :
  monthSeasonMap ∅ ∅ ∅ Examples.threeMonths !! 1 = Some low.
Proof.
  destruct (C2_percentile_thresholds_and_labels ∅ ∅ ∅ Examples.threeMonths)
    as (sorted & i33 & i67 & _ & _ & _ & _ & _ & _ & _ & Hlab).
  - vm_compute. lia.
  - destruct (monthSeasonScores ∅ ∅ ∅ Examples.threeMonths !! 1) as [s|] eqn:Hs;
      [|by vm_compute in Hs].
    apply (Hlab 1 s Hs). vm_compute in Hs. injection Hs as <-. by vm_compute.
Defined.

End ClassifierFacts.

(* ===================================================================== *)
(** ** Season classifier: three scored months, ties                       *)
(* ===================================================================== *)

Section ThreeMonths.
Import Model Season.

Ltac q_order :=
  repeat match goal with
         | H : ltb _ _ = true |- _ => apply ltb_lt in H
         | H : ltb _ _ = false |- _ => apply ltb_ge in H
         | H : leb _ _ = true |- _ => apply leb_le in H
         | H : leb _ _ = false |- _ => apply leb_gt in H
         end.

Lemma percentile_three (a b c : Q) :
  percentile [a; b; c] 33 = a /\ percentile [a; b; c] 67 = c.
Proof. split; reflexivity. Qed.

Ltac label_cases :=
  rewrite (proj1 (percentile_three _ _ _)), (proj2 (percentile_three _ _ _));
  unfold labelWith; q_order;
  repeat match goal with
         | |- context [leb ?a ?b] => destruct (leb a b) eqn:?
         end;
  q_order;
  first [ tauto
        | exfalso; lra
        | exfalso;
          match goal with
          | H : ~ (_ == _)%Q |- _ => apply H; lra
          end ].

Lemma three_distinct_scores_labels (x y z : Q) :
  ~ (x == y)%Q -> ~ (x == z)%Q -> ~ (y == z)%Q ->
  let t33 := percentile (sortAsc [x; y; z]) 33 in
  let t67 := percentile (sortAsc [x; y; z]) 67 in
  let l := labelWith t33 t67 in
  (l x = low /\ l y = normal /\ l z = high)
  \/ (l x = low /\ l y = high /\ l z = normal)
  \/ (l x = normal /\ l y = low /\ l z = high)
  \/ (l x = normal /\ l y = high /\ l z = low)
  \/ (l x = high /\ l y = low /\ l z = normal)
  \/ (l x = high /\ l y = normal /\ l z = low).
Proof.
  intros Hxy Hxz Hyz t33 t67 l. subst t33 t67 l.
  unfold sortAsc. cbn [fold_left insertAsc].
  destruct (ltb y x) eqn:E1; cbn [insertAsc].
  - destruct (ltb z y) eqn:E2; [|destruct (ltb z x) eqn:E3]; label_cases.
  - destruct (ltb z x) eqn:E2; [|destruct (ltb z y) eqn:E3]; label_cases.
Qed.

Ltac pick_labels Hdom :=
  repeat split; try done;
  let m := fresh "m" in
  let Hm := fresh "Hm" in
  intros m Hm; destruct (Hdom m Hm) as [-> | [-> | ->]]; tauto.

Lemma three_entries {A} (m : gmap Z A) :
  size m = 3%nat ->
  exists k1 k2 k3 x y z,
    Object_values m = [x; y; z]
    /\ m !! k1 = Some x /\ m !! k2 = Some y /\ m !! k3 = Some z
    /\ k1 <> k2 /\ k1 <> k3 /\ k2 <> k3
    /\ forall k, is_Some (m !! k) -> k = k1 \/ k = k2 \/ k = k3.
Proof.
  intros Hsize.
  pose proof (Object_keys_length m) as Hk.
  pose proof (Object_values_length m) as Hv.
  pose proof (Object_keys_NoDup m) as Hnd.
  pose proof (Object_values_lookup m) as Hl.
  pose proof (elem_of_Object_keys m) as Hin.
  rewrite Hsize in Hk, Hv.
  destruct (Object_keys m) as [|k1 [|k2 [|k3 [|? ?]]]]; try discriminate.
  destruct (Object_values m) as [|x [|y [|z [|? ?]]]]; try discriminate.
  injection Hl as H1 H2 H3.
  exists k1, k2, k3, x, y, z.
  apply NoDup_cons in Hnd as [Hn1 Hnd]. apply NoDup_cons in Hnd as [Hn2 _].
  repeat split; try done.
  - intros ->. apply Hn1. by left.
  - intros ->. apply Hn1. right. by left.
  - intros ->. apply Hn2. by left.
  - intros k Hk'. apply Hin in Hk'.
    apply elem_of_cons in Hk' as [->|Hk']; [by left|].
    apply elem_of_cons in Hk' as [->|Hk']; [right; by left|].
    apply elem_of_cons in Hk' as [->|Hk']; [right; by right|].
    by apply elem_of_nil in Hk'.
Qed.

Lemma scoreLowThreshold_is_score ppm wd hd (flightPrices : list FlightPrice) :
  (0 < size (monthSeasonScores ppm wd hd flightPrices))%nat ->
  exists m, monthSeasonScores ppm wd hd flightPrices !! m
            = Some (scoreLowThreshold ppm wd hd flightPrices).
Proof.
  intros Hn.
  destruct (percentile_spec (allScores ppm wd hd flightPrices) 33)
    as (i & _ & Hl); [lia | by rewrite allScores_length |].
  apply elem_of_allScores. by eapply list_elem_of_lookup_2.
Qed.

(** C3 (as the code has it). With exactly three scored months whose
    scores are pairwise different, one month is Low, one Normal and one
    High.  A month whose score equals t33 is Low, also when t33 = t67:
    the Low test comes first.  So when all scores are equal every scored
    month is Low.  No division has a zero divisor: a month has an average
    only over a non-empty list of valid prices, and the fallback
    percentile divides by the number of months with an average, which is
    then positive. *)
Theorem C3_three_months_and_ties
    (pricePercentileMap weatherData holidayData : gmap string Q)
    (flightPrices : list FlightPrice) :
  let scores := monthSeasonScores pricePercentileMap weatherData holidayData flightPrices in
  let label := monthSeasonMap pricePercentileMap weatherData holidayData flightPrices in
  let t33 := scoreLowThreshold pricePercentileMap weatherData holidayData flightPrices in
  (size scores = 3%nat -> pairwiseDistinct scores ->
     exists mLow mNormal mHigh,
       label !! mLow = Some low /\ label !! mNormal = Some normal
       /\ label !! mHigh = Some high
       /\ forall m, is_Some (label !! m) -> m = mLow \/ m = mNormal \/ m = mHigh)
  /\ (forall m s, scores !! m = Some s -> (s == t33)%Q -> label !! m = Some low)
  /\ (allEqual scores -> forall m, is_Some (scores !! m) -> label !! m = Some low)
  /\ (forall m avgPrice,
        monthAvgPrices flightPrices !! m = Some avgPrice ->
        exists prices,
          monthPrices flightPrices !! m = Some prices
          /\ avgPrice = average (filter (fun p => ltb 0 p = true) prices)
          /\ (0 < length (filter (fun p => ltb 0 p = true) prices))%nat
          /\ (0 < length (sortedPrices flightPrices))%nat).
Proof.
  intros scores label t33.
  assert (Hties : forall m s, scores !! m = Some s -> (s == t33)%Q ->
                              label !! m = Some low).
  { intros m s Hs Heq. subst label. rewrite monthSeasonMap_lookup. fold scores.
    rewrite Hs. simpl. f_equal.
    apply classify_cases. fold t33. rewrite Heq. apply Qle_refl. }
  split; [|split; [exact Hties|split]].
  - intros Hsize Hdist.
    destruct (three_entries scores Hsize)
      as (k1 & k2 & k3 & x & y & z & Hvals & H1 & H2 & H3 & N12 & N13 & N23 & Hall).
    assert (Hlab : forall k s, scores !! k = Some s ->
              label !! k = Some (labelWith (percentile (sortAsc [x; y; z]) 33)
                                           (percentile (sortAsc [x; y; z]) 67) s)).
    { intros k s Hs. subst label. rewrite monthSeasonMap_lookup. fold scores.
      rewrite Hs. simpl. f_equal.
      unfold classify, scoreLowThreshold, scoreHighThreshold, allScores.
      fold scores. by rewrite Hvals. }
    assert (Hdom : forall m, is_Some (label !! m) -> m = k1 \/ m = k2 \/ m = k3).
    { intros m Hm. apply Hall. subst label.
      rewrite monthSeasonMap_lookup in Hm. by apply fmap_is_Some in Hm. }
    pose proof (Hlab _ _ H1) as L1. pose proof (Hlab _ _ H2) as L2.
    pose proof (Hlab _ _ H3) as L3.
    destruct (three_distinct_scores_labels x y z
                (Hdist _ _ _ _ H1 H2 N12) (Hdist _ _ _ _ H1 H3 N13)
                (Hdist _ _ _ _ H2 H3 N23))
      as [(E1 & E2 & E3)|[(E1 & E2 & E3)|[(E1 & E2 & E3)|[(E1 & E2 & E3)|
          [(E1 & E2 & E3)|(E1 & E2 & E3)]]]]];
      rewrite E1 in L1; rewrite E2 in L2; rewrite E3 in L3.
    + exists k1, k2, k3. pick_labels Hdom.
    + exists k1, k3, k2. pick_labels Hdom.
    + exists k2, k1, k3. pick_labels Hdom.
    + exists k3, k1, k2. pick_labels Hdom.
    + exists k2, k3, k1. pick_labels Hdom.
    + exists k3, k2, k1. pick_labels Hdom.
  - intros Heq m [s Hs].
    destruct (scoreLowThreshold_is_score pricePercentileMap weatherData holidayData
                flightPrices) as [m' Hm'].
    { fold scores.
      destruct (decide (size scores = 0%nat)) as [H0|H0]; [|lia].
      apply map_size_empty_iff in H0. rewrite H0, lookup_empty in Hs. done. }
    apply (Hties m s Hs). apply (Heq m m' s _ Hs Hm').
  - intros m avgPrice Havg.
    destruct (monthAvgPrices_Some _ _ _ Havg) as (prices & Hprices & Havg').
    destruct (avgOfMonth_Some _ _ Havg') as [Hlen ->].
    exists prices. repeat split; try done.
    rewrite sortedPrices_length.
    destruct (decide (size (monthAvgPrices flightPrices) = 0%nat)) as [H0|H0]; [|lia].
    apply map_size_empty_iff in H0. rewrite H0, lookup_empty in Havg. done.
Qed.

Lemma C3_three_months_and_ties_witness :
  exists mLow mNormal mHigh,
    monthSeasonMap ∅ ∅ ∅ Examples.threeMonths !! mLow = Some low
    /\ monthSeasonMap ∅ ∅ ∅ Examples.threeMonths !! mNormal = Some normal
    /\ monthSeasonMap ∅ ∅ ∅ Examples.threeMonths !! mHigh = Some high.
Proof.
  destruct (proj1 (C3_three_months_and_ties ∅ ∅ ∅ Examples.threeMonths))
    as (mLow & mNormal & mHigh & H1 & H2 & H3 & _).
  - by vm_compute.
  - intros m1 m2 s1 s2 Hs1 Hs2 Hne.
    enum_lookup Hs1; enum_lookup Hs2; first [done | by vm_compute].
  - by exists mLow, mNormal, mHigh.
Defined.

(** C3, counterexample.  Three months with the same price and no stored
    scores: every score ties both thresholds, and all three months are
    Low; none is Normal or High. *)
Lemma C3_counterexample_equal_prices_all_low :
  size (monthSeasonScores ∅ ∅ ∅ Examples.equalPrices) = 3%nat
  /\ (forall m s, monthSeasonScores ∅ ∅ ∅ Examples.equalPrices !! m = Some s ->
        (s == scoreLowThreshold ∅ ∅ ∅ Examples.equalPrices)%Q
        /\ (s == scoreHighThreshold ∅ ∅ ∅ Examples.equalPrices)%Q)
  /\ monthSeasonMap ∅ ∅ ∅ Examples.equalPrices !! 1 = Some low
  /\ monthSeasonMap ∅ ∅ ∅ Examples.equalPrices !! 2 = Some low
  /\ monthSeasonMap ∅ ∅ ∅ Examples.equalPrices !! 3 = Some low
  /\ ~ (exists m, monthSeasonMap ∅ ∅ ∅ Examples.equalPrices !! m = Some normal)
  /\ ~ (exists m, monthSeasonMap ∅ ∅ ∅ Examples.equalPrices !! m = Some high).
Proof.
  split; [by vm_compute|]. split.
  { intros m s Hs. enum_lookup Hs; split; by vm_compute. }
  split; [by vm_compute|]. split; [by vm_compute|]. split; [by vm_compute|].
  split; intros [m Hm]; enum_lookup Hm.
Qed.

End ThreeMonths.

(* ===================================================================== *)
(** ** Season classifier: months without flight rows                      *)
(* ===================================================================== *)

Section OutputMonths.
Import Model Season.





Lemma getThaiMonthName_inj (i j : Z) :
  1 <= i <= 12 -> 1 <= j <= 12 ->
  getThaiMonthName i = getThaiMonthName j -> i = j.
Proof.
  intros Hi Hj Heq.
  set (index := fun name : string =>
                  fst <$> list_find (fun s => s = name) thaiMonths).
  assert (Hidx : forall k, 1 <= k <= 12 ->
                   index (getThaiMonthName k) = Some (Z.to_nat k)).
  { intros k Hk.
    assert (Hc : k = 1 \/ k = 2 \/ k = 3 \/ k = 4 \/ k = 5 \/ k = 6 \/ k = 7
                 \/ k = 8 \/ k = 9 \/ k = 10 \/ k = 11 \/ k = 12) by lia.
    repeat (destruct Hc as [->|Hc]; [by vm_compute|]). subst k. by vm_compute. }
  pose proof (Hidx i Hi) as H1. pose proof (Hidx j Hj) as H2.
  rewrite Heq, H2 in H1. injection H1. lia.
Qed.

Lemma elem_of_seasonMonths ppm wd hd (flightPrices : list FlightPrice)
    (s : SeasonType) (i : Z) :
  i ∈ seasonMonths ppm wd hd flightPrices s
  <-> 1 <= i <= 12 /\ seasonOrNormal ppm wd hd flightPrices i = s.
Proof.
  unfold seasonMonths.
  rewrite merge_sort_Permutation, list_elem_of_filter, elem_of_seqZ.
  intuition lia.
Qed.

Lemma seasonOrNormal_no_rows ppm wd hd (flightPrices : list FlightPrice) (m : Z) :
  (forall fp, fp ∈ flightPrices -> month (departure_date fp) <> m) ->
  monthSeasonScores ppm wd hd flightPrices !! m = None
  /\ monthSeasonMap ppm wd hd flightPrices !! m = None
  /\ seasonOrNormal ppm wd hd flightPrices m = normal.
Proof.
  intros Hno.
  assert (Havg : monthAvgPrices flightPrices !! m = None).
  { unfold monthAvgPrices. by rewrite lookup_omap, monthPrices_no_rows. }
  assert (Hs : monthSeasonScores ppm wd hd flightPrices !! m = None)
    by (by rewrite monthSeasonScores_lookup, Havg).
  assert (Hl : monthSeasonMap ppm wd hd flightPrices !! m = None)
    by (by rewrite monthSeasonMap_lookup, Hs).
  split; [done|]. split; [done|].
  unfold seasonOrNormal. by rewrite Hl.
Qed.

Lemma calculateSeasons_cases ppm wd hd (flightPrices : list FlightPrice) :
  (monthAvgPrices flightPrices = ∅
   /\ calculateSeasonsFromFlightPricesWithDemand ppm wd hd flightPrices
      = getEmptySeasons)
  \/ (monthAvgPrices flightPrices <> ∅
      /\ calculateSeasonsFromFlightPricesWithDemand ppm wd hd flightPrices
         = [ buildSeason ppm wd hd flightPrices low;
             buildSeason ppm wd hd flightPrices normal;
             buildSeason ppm wd hd flightPrices high ]).
Proof.
  unfold calculateSeasonsFromFlightPricesWithDemand.
  destruct (Nat.eqb_spec (length flightPrices) 0) as [H0|H0].
  - left. split; [|done]. apply length_zero_iff_nil in H0. by subst.
  - rewrite Object_values_length.
    destruct (Nat.eqb_spec (size (monthAvgPrices flightPrices)) 0) as [H1|H1].
    + left. split; [|done]. by apply map_size_empty_iff.
    + right. split; [|done]. by rewrite <- map_size_empty_iff.
Qed.

(** C4 (as the code has it). A calendar month without flight rows gets
    no season score and no label of its own; in the output it is never
    listed under Low or High, and it is listed under Normal - the default
    label - whenever some month of the window has an average price. *)
Theorem C4_month_without_rows_defaults_to_normal
    (pricePercentileMap weatherData holidayData : gmap string Q)
    (flightPrices : list FlightPrice) (m : Z) :
  1 <= m <= 12 ->
  (forall fp, fp ∈ flightPrices -> month (departure_date fp) <> m) ->
  monthSeasonScores pricePercentileMap weatherData holidayData flightPrices !! m = None
  /\ monthSeasonMap pricePercentileMap weatherData holidayData flightPrices !! m = None
  /\ (forall s,
        s ∈ calculateSeasonsFromFlightPricesWithDemand
              pricePercentileMap weatherData holidayData flightPrices ->
        type s <> normal -> getThaiMonthName m ∉ months s)
  /\ ((exists s,
         s ∈ calculateSeasonsFromFlightPricesWithDemand
               pricePercentileMap weatherData holidayData flightPrices
         /\ type s = normal /\ getThaiMonthName m ∈ months s)
      <-> monthAvgPrices flightPrices <> ∅).
Proof.
  intros Hm Hno.
  destruct (seasonOrNormal_no_rows pricePercentileMap weatherData holidayData
              flightPrices m Hno) as (Hs & Hl & Hdef).
  split; [done|]. split; [done|].
  assert (Hbuild : forall t,
            getThaiMonthName m
              ∈ months (buildSeason pricePercentileMap weatherData holidayData
                          flightPrices t)
            <-> t = normal).
  { intros t. simpl. rewrite list_elem_of_fmap. split.
    - intros (i & Hname & Hi). apply elem_of_seasonMonths in Hi as [Hr Hi].
      apply getThaiMonthName_inj in Hname; [|done..]. subst i. congruence.
    - intros ->. exists m. split; [done|]. by apply elem_of_seasonMonths. }
  destruct (calculateSeasons_cases pricePercentileMap weatherData holidayData
              flightPrices) as [[He ->]|[Hne ->]].
  - split.
    + intros s Hin _ Hmem. unfold getEmptySeasons in Hin.
      repeat (apply elem_of_cons in Hin as [->|Hin]; [by apply elem_of_nil in Hmem|]).
      by apply elem_of_nil in Hin.
    + split; [|done]. intros (s & Hin & _ & Hmem). unfold getEmptySeasons in Hin.
      repeat (apply elem_of_cons in Hin as [->|Hin]; [by apply elem_of_nil in Hmem|]).
      by apply elem_of_nil in Hin.
  - split.
    + intros s Hin Htype Hmem.
      repeat (apply elem_of_cons in Hin as [->|Hin];
              [apply Hbuild in Hmem; by subst|]).
      by apply elem_of_nil in Hin.
    + split; [done|]. intros _.
      exists (buildSeason pricePercentileMap weatherData holidayData flightPrices normal).
      split; [right; left|]. split; [done|]. by apply Hbuild.
Qed.

Lemma C4_month_without_rows_defaults_to_normal_witness :
  monthSeasonScores ∅ ∅ ∅ Examples.januaryOnly !! 2 = None
  /\ exists s,
       s ∈ calculateSeasonsFromFlightPricesWithDemand ∅ ∅ ∅ Examples.januaryOnly
       /\ type s = normal /\ getThaiMonthName 2 ∈ months s.
Proof.
  destruct (C4_month_without_rows_defaults_to_normal ∅ ∅ ∅ Examples.januaryOnly 2)
    as (Hs & _ & _ & Hn).
  - lia.
  - intros fp Hin. apply list_elem_of_singleton in Hin. subst fp. by vm_compute.
  - split; [exact Hs|]. apply Hn. intros He.
    apply (f_equal (fun mp : gmap Z Q => mp !! 1)) in He. by vm_compute in He.
Defined.

(** C4, counterexample.  With rows in January only, February has no
    flight row and yet the output lists it under the Normal season. *)
Lemma C4_counterexample_february_listed_normal :
  (forall fp, fp ∈ Examples.januaryOnly -> month (departure_date fp) <> 2)
  /\ exists s,
       calculateSeasonsFromFlightPricesWithDemand ∅ ∅ ∅ Examples.januaryOnly
         !! 1%nat = Some s
       /\ type s = normal
       /\ months s !! 0%nat = Some (getThaiMonthName 2).
Proof.
  split.
  - intros fp Hin. apply list_elem_of_singleton in Hin. subst fp. by vm_compute.
  - eexists. split; [reflexivity|]. split; [reflexivity|]. by vm_compute.
Qed.

End OutputMonths.

(* ===================================================================== *)
(** ** Score producers stay in the range 0..100                           *)
(* ===================================================================== *)

Section ScoreFacts.
Import Model Season Scores.

Lemma clampScore_range (score : Q) : inRange (clampScore score).
Proof.
  unfold clampScore, inRange. split.
  - apply Q.le_max_l.
  - apply Q.max_lub; [by vm_compute | apply Q.le_min_l].
Qed.

Lemma calculateWeatherScore_range (temp rain : Q) (humidity : option Q) :
  inRange (calculateWeatherScore temp rain humidity).
Proof. apply clampScore_range. Qed.

Lemma fold_insert_range {A} (f : A -> string) (g : A -> Q) (l : list A)
    (acc : gmap string Q) :
  (forall x, inRange (g x)) ->
  scoresInRange acc ->
  scoresInRange (fold_left (fun m x => <[f x := g x]> m) l acc).
Proof.
  intros Hg. revert acc. induction l as [|x l IH]; intros acc Hacc; simpl; [done|].
  apply IH. intros k v Hkv.
  destruct (decide (f x = k)) as [<-|Hne].
  - rewrite lookup_insert_eq in Hkv. injection Hkv as <-. apply Hg.
  - rewrite lookup_insert_ne in Hkv by done. by apply (Hacc k).
Qed.

Lemma generateMockWeatherDataFromPrices_range
    (flightPrices : list FlightPrice) (periods : list string)
    (routeIdentifier : option string) :
  scoresInRange (generateMockWeatherDataFromPrices flightPrices periods routeIdentifier).
Proof.
  unfold generateMockWeatherDataFromPrices.
  apply (fold_insert_range (fun period => period)
           (fun period => mockScore flightPrices periods 30 _ period)).
  - intros period. apply clampScore_range.
  - intros k v. by rewrite lookup_empty.
Qed.

Lemma generateMockHolidayDataFromPrices_range
    (flightPrices : list FlightPrice) (periods : list string) :
  scoresInRange (generateMockHolidayDataFromPrices flightPrices periods).
Proof.
  unfold generateMockHolidayDataFromPrices.
  apply (fold_insert_range (fun period => period)
           (fun period => mockScore flightPrices periods 35 _ period)).
  - intros period. apply clampScore_range.
  - intros k v. by rewrite lookup_empty.
Qed.

End ScoreFacts.

(* ===================================================================== *)
(** ** Daily price chart                                                  *)
(* ===================================================================== *)

Section ChartFacts.
Import Model.











End ChartFacts.

(* ===================================================================== *)
(** ** Pricing rules in the analysis result                               *)
(* ===================================================================== *)

Section PricingFacts.
Import Model Pricing.

(** The displayed price the pricing rules ask for: the passenger mix
    applied to the stored price, halved for a one-way trip, rounded. *)
Lemma calculatePriceWithDiscounts_formula (p : Q) (ps : Passengers) :
  (calculatePriceWithDiscounts p ps
   == inject_Z (adults ps) * p + 0.75 * inject_Z (children ps) * p
      + 0.1 * inject_Z (infants ps) * p)%Q.
Proof. unfold calculatePriceWithDiscounts. ring. Qed.

(** The chart does not take the passenger mix, and its prices do not
    depend on the trip type. *)
Lemma chart_price_ignores_trip_type
    (flightPrices : list FlightPrice) (startDate : option Date)
    (avgDuration : Q) (tripType tripType' : option TripType) (d : Date) :
  Chart.entry_price <$> Chart.chartEntryFor flightPrices startDate avgDuration tripType d
  = Chart.entry_price <$> Chart.chartEntryFor flightPrices startDate avgDuration tripType' d.
Proof.
  unfold Chart.chartEntryFor. by destruct (_ || _).
Qed.

Lemma round_comp (x y : Q) : (x == y)%Q -> Js.round x = Js.round y.
Proof. intros Hxy. unfold Js.round. apply Qfloor_comp. by rewrite Hxy. Qed.

Lemma display_matches_spec (p : Q) (tripType : option TripType) (ps : Passengers) :
  Js.round (calculatePriceWithDiscounts p ps * oneWayFactor tripType)%Q
  = displayPrice_spec p ps (bool_decide (tripType = Some one_way)).
Proof.
  unfold displayPrice_spec. apply round_comp.
  rewrite calculatePriceWithDiscounts_formula. unfold oneWayFactor.
  destruct (decide (tripType = Some one_way)) as [H|H].
  - rewrite (bool_decide_eq_true_2 _ H). apply Qmult_comp; [reflexivity|]. by vm_compute.
  - rewrite (bool_decide_eq_false_2 _ H). reflexivity.
Qed.

(** C5, counterexample.  A one-way request for one adult.  With the
    stored best deal 1001 the recommended price is 501 = round (1001 / 2),
    which is not half of the round-trip value round (1001) = 1001.  With
    the user's date 3 February (stored price 1500) the chart entry of that
    day carries 1500 where the rule gives 750; on the round-trip rows the
    entry is 1500 as well, where the rule gives 4275 for two adults, a
    child and an infant: neither the passenger mix nor the halving
    reaches the chart.  With the stored price 1366.60, one adult and two
    children the rule gives round (3416.5) = 3417; the code computes on
    the double nearest to 1366.6, gets a total just below 3416.5 and
    shows 3416. *)
Lemma C5_counterexample_one_way_prices :
  Analysis.recommendedPrice
    (Season.calculateSeasonsFromFlightPricesWithDemand ∅ ∅ ∅ Examples.oddRows)
  = 1001%Q
  /\ Analysis.recommendedPeriod_price
       (Season.calculateSeasonsFromFlightPricesWithDemand ∅ ∅ ∅ Examples.oddRows)
       (Some one_way) Examples.oneAdult = 501
  /\ ~ (inject_Z 501
        == inject_Z (Js.round (calculatePriceWithDiscounts 1001 Examples.oneAdult)) / 2)%Q
  /\ Chart.entry_price
       <$> Analysis.priceChartData Examples.oneWayRows (Some (mkDate 2026 2 3))
             (Some one_way) (mkDate 2026 2 3) (mkDate 2026 2 28) 3
     = [1500]
  /\ displayPrice_spec 1500 Examples.oneAdult true = 750
  /\ Chart.entry_price
       <$> Analysis.priceChartData Examples.roundTripRows (Some (mkDate 2026 2 3))
             (Some round_trip) (mkDate 2026 2 3) (mkDate 2026 2 28) 3
     = [1500]
  /\ displayPrice_spec 1500 Examples.family false = 4275
  /\ displayPrice_spec 1366.6 (mkPassengers 1 2 0) false = 3417
  /\ (Qabs (Binary64.toQ Binary64.price_1366_60 - 1366.6) <= 1 # 8796093022208)%Q
  /\ Binary64.displayedPrice (Some round_trip) (mkPassengers 1 2 0)
       Binary64.price_1366_60
     = 3416.
Proof. repeat split; by vm_compute. Qed.

(** C7, the code at a failing input.  A round-trip request for two
    adults, stored prices 1000, 1500, 2000 in January, February, March.
    With the user's date 3 February the code compares the stored 1500
    with the recommended 1000 x 2 and reports no saving; with the pricing
    rules on both sides the saving is 3000 - 2000 = 1000.  Without a
    user date it compares the stored high-season 2000 with 2000 and
    reports none; on both sides it is 4000 - 2000 = 2000. *)
Theorem C7_savings_scales_one_side_only :
  let seasons := Season.calculateSeasonsFromFlightPricesWithDemand ∅ ∅ ∅
                   Examples.roundTripRows in
  let anchor := mkDate 2026 2 3 in
  Analysis.getPriceForDate Examples.roundTripRows anchor round_trip = 1500%Q
  /\ Analysis.recommendedPrice seasons = 1000%Q
  /\ Analysis.recommendedPeriod_savings Examples.roundTripRows seasons
       (Some anchor) (Some round_trip) Examples.twoAdults = 0
  /\ Z.max 0 (Js.round (calculatePriceWithDiscounts 1500 Examples.twoAdults
                        - calculatePriceWithDiscounts 1000 Examples.twoAdults)%Q)
     = 1000
  /\ Analysis.recommendedPeriod_savings Examples.roundTripRows seasons
       None (Some round_trip) Examples.twoAdults = 0
  /\ Z.max 0 (Js.round (calculatePriceWithDiscounts 2000 Examples.twoAdults
                        - calculatePriceWithDiscounts 1000 Examples.twoAdults)%Q)
     = 2000.
Proof. repeat split; by vm_compute. Qed.

(** What the [savings] variable holds when the user chose a date: the
    stored price of that date minus the recommended price with the
    passenger mix, when both are positive and the difference is; else 0. *)
Lemma savings_user_date
    (flightPrices : list FlightPrice) (seasons : list SeasonData) (date : Date)
    (tripType : option TripType) (ps : Passengers) :
  let a := Analysis.getPriceForDate flightPrices date
             (Analysis.tripTypeOrRoundTrip tripType) in
  let b := Analysis.adjustedRecommendedPrice seasons ps in
  ((0 < a)%Q -> (0 < b)%Q -> (b < a)%Q ->
     Analysis.savings flightPrices seasons (Some date) tripType ps = (a - b)%Q)
  /\ ((a <= 0)%Q \/ (b <= 0)%Q \/ (a <= b)%Q ->
        Analysis.savings flightPrices seasons (Some date) tripType ps = 0%Q).
Proof.
  intros a b. unfold Analysis.savings. fold a b. split.
  - intros Ha%ltb_lt Hb%ltb_lt Hab%ltb_lt. by rewrite Ha, Hb, Hab.
  - intros [H%ltb_ge|[H%ltb_ge|H%ltb_ge]]; rewrite H;
      rewrite ?andb_false_r; done.
Qed.

End PricingFacts.

(* ===================================================================== *)
(** ** Daily weather rows: upsert                                         *)
(* ===================================================================== *)

Section WeatherFacts.
Import WeatherStore.

(** C8 (as the code has it). An upsert stores the new row's values under
    its (province, date), whatever row was there: every data column, the
    source included, comes from the new row; only the id and the creation
    time of an existing row stay.  Rows of other keys are untouched.  So
    historical displaces forecast, and forecast displaces historical
    alike. *)
Theorem C8_upsert_overwrites_whatever_the_source
    (now : Z) (params : Params) (t : Table) :
  let key := (p_province params, p_date params) in
  let t' := (upsertDailyWeatherData now params t).1 in
  let row := (upsertDailyWeatherData now params t).2 in
  rows t' !! key = Some row
  /\ source row = p_source params
  /\ temp_max row = p_tempMax params /\ temp_min row = p_tempMin params
  /\ temp_avg row = p_tempAvg params
  /\ precipitation row = p_precipitation params
  /\ humidity row = p_humidity params
  /\ updated_at row = now
  /\ (forall old, rows t !! key = Some old ->
        id row = id old /\ created_at row = created_at old)
  /\ (forall key', key' <> key -> rows t' !! key' = rows t !! key').
Proof.
  intros key t' row. subst t' row. unfold upsertDailyWeatherData. fold key.
  cbn [fst snd rows].
  split; [apply lookup_insert_eq|].
  destruct (rows t !! key) as [old|] eqn:Hold; cbn;
    repeat (split; [reflexivity|]).
  - split.
    + by intros old' [= <-].
    + intros key' Hne. by rewrite lookup_insert_ne.
  - split.
    + by intros old' [=].
    + intros key' Hne. by rewrite lookup_insert_ne.
Qed.

Lemma C8_upsert_overwrites_whatever_the_source_witness :
  exists row,
    rows (upsertDailyWeatherData 20 Examples.forecastRow
            (upsertDailyWeatherData 10 Examples.historicalRow emptyTable).1).1
      !! ("phuket"%string, "2026-01-05"%string) = Some row
    /\ source row = openweathermap /\ id row = 1 /\ created_at row = 10
    /\ updated_at row = 20.
Proof.
  pose proof (C8_upsert_overwrites_whatever_the_source 20 Examples.forecastRow
                (upsertDailyWeatherData 10 Examples.historicalRow emptyTable).1)
    as (Hrow & Hsrc & _ & _ & _ & _ & _ & Hupd & Hold & _).
  destruct (Hold (upsertDailyWeatherData 10 Examples.historicalRow emptyTable).2)
    as [Hid Hcr]; [by vm_compute|].
  eexists. split; [exact Hrow|]. split; [exact Hsrc|].
  split; [by rewrite Hid|]. split; [by rewrite Hcr|]. exact Hupd.
Defined.

(** C8, counterexample.  A historical (open-meteo) row for Phuket,
    5 January 2026 is stored; a forecast (openweathermap) upsert for the
    same province and date follows: the stored row now has the forecast's
    source and temperature. *)
Lemma C8_counterexample_forecast_replaces_historical :
  (source <$> rows (upsertAll 20 [Examples.historicalRow] emptyTable)
                !! ("phuket"%string, "2026-01-05"%string)) = Some open_meteo
  /\ (source <$> rows (upsertAll 20 [Examples.historicalRow; Examples.forecastRow]
                         emptyTable)
                   !! ("phuket"%string, "2026-01-05"%string)) = Some openweathermap
  /\ (temp_max <$> rows (upsertAll 20 [Examples.historicalRow; Examples.forecastRow]
                           emptyTable)
                     !! ("phuket"%string, "2026-01-05"%string)) = Some 35%Q.
Proof. repeat split; by vm_compute. Qed.

End WeatherFacts.

(* ===================================================================== *)
(** ** Season classifier: grouping by month                               *)
(* ===================================================================== *)

Section GroupingFacts.
Import Model Season SeasonView.




End GroupingFacts.

(* ===================================================================== *)
(** ** Season score of a month number                                     *)
(* ===================================================================== *)

Section SeasonScoreFacts.
Import Model Season SeasonView.






End SeasonScoreFacts.

(* ===================================================================== *)
(** ** Season classifier: percentiles, thresholds, labels                 *)
(* ===================================================================== *)

Section ThresholdFacts.
Import Model Season SeasonView.

Lemma Qle_StronglySorted (l : list Q) : Sorted Qle l -> StronglySorted Qle l.
Proof.
  apply Sorted_StronglySorted. intros x y z. apply Qle_trans.
Qed.

Lemma sorted_lookup_le (l : list Q) (i j : nat) (x y : Q) :
  Sorted Qle l -> (i <= j)%nat -> l !! i = Some x -> l !! j = Some y -> (x <= y)%Q.
Proof.
  intros Hs%Qle_StronglySorted. revert i j x y.
  induction Hs as [|a l Hs IH Hall]; intros i j x y Hij Hi Hj; [done|].
  destruct i as [|i], j as [|j]; simpl in *; try lia.
  - injection Hi as <-. injection Hj as <-. apply Qle_refl.
  - injection Hi as <-. rewrite Forall_forall in Hall. apply Hall.
    by eapply list_elem_of_lookup_2.
  - apply (IH i j); [lia|done..].
Qed.

Lemma sorted_head_le (l : list Q) (i : nat) (x y : Q) :
  Sorted Qle l -> l !! 0%nat = Some x -> l !! i = Some y -> (x <= y)%Q.
Proof. intros Hs H0 Hi. apply (sorted_lookup_le l 0 i); [done|lia|done..]. Qed.






(** X3. The Low threshold is never above the High threshold: t33 <= t67
    for every set of scores. *)
Theorem thresholds_ordered
    (pricePercentileMap weatherData holidayData : gmap string Q)
    (flightPrices : list FlightPrice) :
  (scoreLowThreshold pricePercentileMap weatherData holidayData flightPrices
   <= scoreHighThreshold pricePercentileMap weatherData holidayData flightPrices)%Q.
Proof.
  set (sorted := allScores pricePercentileMap weatherData holidayData flightPrices).
  unfold scoreLowThreshold, scoreHighThreshold. fold sorted.
  destruct (decide (length sorted = 0%nat)) as [H0|H0].
  - unfold percentile. rewrite H0. simpl. apply Qle_refl.
  - destruct (percentile_spec sorted 33) as (i33 & Hi33 & Hl33); [lia|lia|].
    destruct (percentile_spec sorted 67) as (i67 & Hi67 & Hl67); [lia|lia|].
    apply (sorted_lookup_le sorted (Z.to_nat (Z.max 0 i33)) (Z.to_nat (Z.max 0 i67)));
      [apply sortAsc_Sorted | lia | done..].
Qed.

(** X4. Labels follow the scores: of two scored months, the one with the
    smaller or equal score never gets the higher label (Low < Normal <
    High). *)
Theorem labels_monotone_in_score
    (pricePercentileMap weatherData holidayData : gmap string Q)
    (flightPrices : list FlightPrice) (m1 m2 : Z) (s1 s2 : Q) (l1 l2 : SeasonType) :
  monthSeasonScores pricePercentileMap weatherData holidayData flightPrices !! m1
    = Some s1 ->
  monthSeasonScores pricePercentileMap weatherData holidayData flightPrices !! m2
    = Some s2 ->
  monthSeasonMap pricePercentileMap weatherData holidayData flightPrices !! m1
    = Some l1 ->
  monthSeasonMap pricePercentileMap weatherData holidayData flightPrices !! m2
    = Some l2 ->
  (s1 <= s2)%Q -> rank l1 <= rank l2.
Proof.
  intros Hs1 Hs2 Hl1 Hl2 Hle.
  rewrite monthSeasonMap_lookup, Hs1 in Hl1. injection Hl1 as <-.
  rewrite monthSeasonMap_lookup, Hs2 in Hl2. injection Hl2 as <-.
  unfold classify.
  destruct (leb s1 _) eqn:E1; destruct (leb s2 _) eqn:E2;
    try destruct (leb _ s1) eqn:E3; try destruct (leb _ s2) eqn:E4;
    simpl; try lia;
    repeat match goal with
           | H : leb _ _ = true |- _ => apply leb_le in H
           | H : leb _ _ = false |- _ => apply leb_gt in H
           end;
    exfalso; lra.
Qed.

Lemma labels_monotone_in_score_witness :
  rank low <= rank high.
Proof.
  apply (labels_monotone_in_score ∅ ∅ ∅ Examples.threeMonths 1 3
           (120000 # 3000) (240000 # 3000) low high);
    by vm_compute.
Defined.

Lemma scoreHighThreshold_is_score ppm wd hd (flightPrices : list FlightPrice) :
  (0 < size (monthSeasonScores ppm wd hd flightPrices))%nat ->
  exists m, monthSeasonScores ppm wd hd flightPrices !! m
            = Some (scoreHighThreshold ppm wd hd flightPrices).
Proof.
  intros Hn.
  destruct (percentile_spec (allScores ppm wd hd flightPrices) 67)
    as (i & _ & Hl); [lia | by rewrite allScores_length |].
  apply elem_of_allScores. by eapply list_elem_of_lookup_2.
Qed.

(** X5. Whenever some month has a score, some month is Low: the months of
    least score are Low.  A month of greatest score is High unless its
    score is at most t33, in which case every scored month is Low. *)
Theorem lowest_is_low_highest_is_high
    (pricePercentileMap weatherData holidayData : gmap string Q)
    (flightPrices : list FlightPrice) (m : Z) (s : Q) :
  let scores := monthSeasonScores pricePercentileMap weatherData holidayData flightPrices in
  let label := monthSeasonMap pricePercentileMap weatherData holidayData flightPrices in
  let t33 := scoreLowThreshold pricePercentileMap weatherData holidayData flightPrices in
  scores !! m = Some s ->
  (exists m0, label !! m0 = Some low)
  /\ ((forall m' s', scores !! m' = Some s' -> (s <= s')%Q) -> label !! m = Some low)
  /\ ((forall m' s', scores !! m' = Some s' -> (s' <= s)%Q) ->
      ((t33 < s)%Q -> label !! m = Some high)
      /\ ((s <= t33)%Q -> forall m', is_Some (scores !! m') -> label !! m' = Some low)).
Proof.
  intros scores label t33 Hs.
  assert (Hpos : (0 < size scores)%nat).
  { destruct (decide (size scores = 0%nat)) as [H0|H0]; [|lia].
    apply map_size_empty_iff in H0. by rewrite H0, lookup_empty in Hs. }
  destruct (scoreLowThreshold_is_score pricePercentileMap weatherData holidayData
              flightPrices Hpos) as [m33 H33].
  destruct (scoreHighThreshold_is_score pricePercentileMap weatherData holidayData
              flightPrices Hpos) as [m67 H67].
  fold scores t33 in H33. fold scores in H67.
  assert (Hlab : forall k v, scores !! k = Some v ->
            label !! k = Some (classify pricePercentileMap weatherData holidayData
                                 flightPrices v)).
  { intros k v Hk. subst label. rewrite monthSeasonMap_lookup. fold scores.
    by rewrite Hk. }
  destruct (classify_cases pricePercentileMap weatherData holidayData flightPrices t33)
    as (Hlow33 & _).
  split; [|split].
  - exists m33. rewrite (Hlab _ _ H33). f_equal. apply Hlow33. apply Qle_refl.
  - intros Hmin. rewrite (Hlab _ _ Hs). f_equal.
    apply classify_cases. fold t33. by apply (Hmin m33).
  - intros Hmax. split.
    + intros Hgt. rewrite (Hlab _ _ Hs). f_equal.
      apply classify_cases; [done|]. by apply (Hmax m67).
    + intros Hle m' [s' Hs']. rewrite (Hlab _ _ Hs'). f_equal.
      apply classify_cases. fold t33.
      eapply Qle_trans; [by apply (Hmax m')|done].
Qed.

End ThresholdFacts.

Section ThresholdWitnesses.
Import Model Season SeasonView.

Lemma lowest_is_low_highest_is_high_witness :
  monthSeasonMap ∅ ∅ ∅ Examples.threeMonths !! 3 = Some high.
Proof.
  destruct (lowest_is_low_highest_is_high ∅ ∅ ∅ Examples.threeMonths 3
              (240000 # 3000)) as (_ & _ & Hmax); [by vm_compute|].
  apply Hmax.
  - intros m' s' Hs'. enum_lookup Hs'; by vm_compute.
  - by vm_compute.
Defined.

End ThresholdWitnesses.

(* ===================================================================== *)
(** ** Season classifier: the three output entries                        *)
(* ===================================================================== *)

Section OutputFacts.
Import Model Season SeasonView.

(** The cheapest element of a non-empty list under a price function, as
    every [reduce] of the service computes it. *)
Lemma fold_cheapest_spec {A} (f : A -> Q) (first : A) (rest : list A) :
  let best := fold_left (fun min x => if ltb (f x) (f min) then x else min)
                rest first in
  best ∈ first :: rest /\ forall x, x ∈ first :: rest -> (f best <= f x)%Q.
Proof.
  revert first. induction rest as [|y rest IH]; intros first; simpl.
  - split; [by left|]. intros x Hx. apply list_elem_of_singleton in Hx. subst.
    apply Qle_refl.
  - destruct (ltb (f y) (f first)) eqn:Hy.
    + destruct (IH y) as [Hin Hmin]. split.
      * right. exact Hin.
      * intros x Hx. apply elem_of_cons in Hx as [->|Hx]; [|by apply Hmin].
        eapply Qle_trans; [apply Hmin; by left|].
        apply Qlt_le_weak. by apply ltb_lt.
    + destruct (IH first) as [Hin Hmin]. split.
      * apply elem_of_cons in Hin as [Hin|Hin];
          [apply elem_of_cons; by left | right; by right].
      * intros x Hx. apply elem_of_cons in Hx as [->|Hx]; [apply Hmin; by left|].
        apply elem_of_cons in Hx as [->|Hx]; [|apply Hmin; by right].
        eapply Qle_trans; [apply Hmin; by left|]. by apply ltb_ge.
Qed.

Lemma Math_min_spec (x : Q) (xs : list Q) :
  Math_min (x :: xs) ∈ x :: xs
  /\ forall y, y ∈ x :: xs -> (Math_min (x :: xs) <= y)%Q.
Proof.
  simpl. revert x. induction xs as [|z xs IH]; intros x; simpl.
  - split; [by left|]. intros y Hy. apply list_elem_of_singleton in Hy. subst.
    apply Qle_refl.
  - destruct (IH (Qmin x z)) as [Hin Hmin]. split.
    + apply elem_of_cons in Hin as [Hin|Hin]; [|right; by right].
      rewrite Hin. destruct (Q.min_spec x z) as [[_ Hm]|[_ Hm]].
      * unfold Qmin, GenericMinMax.gmin in *.
        destruct (x ?= z)%Q; first [by left | right; by left].
      * unfold Qmin, GenericMinMax.gmin in *.
        destruct (x ?= z)%Q; first [by left | right; by left].
    + intros y Hy. apply elem_of_cons in Hy as [->|Hy].
      * eapply Qle_trans; [apply Hmin; by left|]. apply Q.le_min_l.
      * apply elem_of_cons in Hy as [->|Hy].
        -- eapply Qle_trans; [apply Hmin; by left|]. apply Q.le_min_r.
        -- apply Hmin. by right.
Qed.

Lemma Math_max_spec (x : Q) (xs : list Q) :
  Math_max (x :: xs) ∈ x :: xs
  /\ forall y, y ∈ x :: xs -> (y <= Math_max (x :: xs))%Q.
Proof.
  simpl. revert x. induction xs as [|z xs IH]; intros x; simpl.
  - split; [by left|]. intros y Hy. apply list_elem_of_singleton in Hy. subst.
    apply Qle_refl.
  - destruct (IH (Qmax x z)) as [Hin Hmax]. split.
    + apply elem_of_cons in Hin as [Hin|Hin]; [|right; by right].
      rewrite Hin. unfold Qmax, GenericMinMax.gmax.
      destruct (x ?= z)%Q; first [by left | right; by left].
    + intros y Hy. apply elem_of_cons in Hy as [->|Hy].
      * eapply Qle_trans; [|apply Hmax; by left]. apply Q.le_max_l.
      * apply elem_of_cons in Hy as [->|Hy].
        -- eapply Qle_trans; [|apply Hmax; by left]. apply Q.le_max_r.
        -- apply Hmax. by right.
Qed.

Lemma filter_three_way {A} (f : A -> SeasonType) (l : list A) :
  (length (filter (fun x => f x = low) l)
   + length (filter (fun x => f x = normal) l)
   + length (filter (fun x => f x = high) l))%nat = length l.
Proof.
  induction l as [|x l IH]; [done|].
  rewrite !filter_cons. destruct (f x) eqn:Hf; simpl;
    repeat case_decide; try done; simpl; lia.
Qed.

Lemma buildSeason_months ppm wd hd (flightPrices : list FlightPrice)
    (t : SeasonType) (m : Z) :
  1 <= m <= 12 ->
  getThaiMonthName m ∈ months (buildSeason ppm wd hd flightPrices t)
  <-> seasonOrNormal ppm wd hd flightPrices m = t.
Proof.
  intros Hm. simpl. rewrite list_elem_of_fmap. split.
  - intros (i & Hname & Hi). apply elem_of_seasonMonths in Hi as [Hr Hi].
    apply getThaiMonthName_inj in Hname; [|done..]. by subst i.
  - intros Ht. exists m. split; [done|]. by apply elem_of_seasonMonths.
Qed.

(** X6. When some month has an average price, the month lists of the
    three output entries (in the order low, normal, high) split the
    calendar: each of the twelve months is named in exactly one entry,
    the one of its label or of Normal when it has none, and the three
    lists hold twelve names in all. *)
Theorem season_months_partition_the_year
    (pricePercentileMap weatherData holidayData : gmap string Q)
    (flightPrices : list FlightPrice) :
  monthAvgPrices flightPrices <> ∅ ->
  let out := calculateSeasonsFromFlightPricesWithDemand
               pricePercentileMap weatherData holidayData flightPrices in
  type <$> out = [low; normal; high]
  /\ (forall m s, 1 <= m <= 12 -> s ∈ out ->
        (getThaiMonthName m ∈ months s
         <-> type s = seasonOrNormal pricePercentileMap weatherData holidayData
                        flightPrices m))
  /\ sum_list ((fun s => length (months s)) <$> out) = 12%nat.
Proof.
  intros Hne out. subst out.
  destruct (calculateSeasons_cases pricePercentileMap weatherData holidayData
              flightPrices) as [[He _]|[_ ->]]; [done|].
  split; [done|]. split.
  - intros m s Hm Hin.
    repeat (apply elem_of_cons in Hin as [->|Hin];
            [rewrite buildSeason_months by done; simpl; split; congruence|]).
    by apply elem_of_nil in Hin.
  - cbn [fmap list_fmap sum_list sum_list_with buildSeason months].
    rewrite !length_fmap. unfold seasonMonths. rewrite !merge_sort_Permutation.
    pose proof (filter_three_way
                  (seasonOrNormal pricePercentileMap weatherData holidayData flightPrices)
                  (seqZ 1 12)) as H3.
    rewrite length_seqZ in H3. change (Z.to_nat 12) with 12%nat in H3.
    unfold id. lia.
Qed.

Lemma season_months_partition_the_year_witness :
  sum_list ((fun s => length (months s))
              <$> calculateSeasonsFromFlightPricesWithDemand ∅ ∅ ∅
                    Examples.januaryOnly) = 12%nat.
Proof.
  apply (season_months_partition_the_year ∅ ∅ ∅ Examples.januaryOnly).
  intros He. apply (f_equal (fun mp : gmap Z Q => mp !! 1)) in He.
  by vm_compute in He.
Defined.

(** The rows of the months labelled [s]. *)
Lemma seasonOrNormal_of_label ppm wd hd (flightPrices : list FlightPrice)
    (m : Z) (s : SeasonType) :
  monthSeasonMap ppm wd hd flightPrices !! m = Some s ->
  seasonOrNormal ppm wd hd flightPrices m = s.
Proof. intros H. unfold seasonOrNormal. by rewrite H. Qed.

Lemma label_of_seasonOrNormal ppm wd hd (flightPrices : list FlightPrice)
    (m : Z) (s : SeasonType) :
  s <> normal ->
  seasonOrNormal ppm wd hd flightPrices m = s ->
  monthSeasonMap ppm wd hd flightPrices !! m = Some s.
Proof.
  intros Hs. unfold seasonOrNormal.
  destruct (monthSeasonMap ppm wd hd flightPrices !! m); simpl; congruence.
Qed.

(** X7. The best deal of a season is its cheapest row: when some row
    departs in a month labelled with the season, the deal carries the
    stored price and the formatted departure date of such a row, and no
    row of the season is cheaper; when there is none, it is the
    placeholder with an empty date, price 0 and an empty airline. *)
Theorem bestDeal_is_cheapest_row_of_season
    (pricePercentileMap weatherData holidayData : gmap string Q)
    (flightPrices : list FlightPrice) (s : SeasonType) :
  let label := monthSeasonMap pricePercentileMap weatherData holidayData flightPrices in
  let rows := filter (fun fp => label !! month (departure_date fp) = Some s)
                flightPrices in
  let deal := findBestDealByMonthSeason pricePercentileMap weatherData holidayData
                flightPrices s in
  (rows = [] -> deal = {| dates := ""; deal_price := 0; airline := "" |})
  /\ (rows <> [] ->
      exists fp,
        fp ∈ rows
        /\ deal_price deal = price fp
        /\ dates deal = formatThaiDate (departure_date fp)
        /\ forall fp', fp' ∈ rows -> (price fp <= price fp')%Q).
Proof.
  intros label rows deal. subst deal. unfold findBestDealByMonthSeason.
  fold label. fold rows. destruct rows as [|first rest] eqn:Hrows.
  - split; [done|]. by intros [].
  - split; [done|]. intros _.
    destruct (fold_cheapest_spec price first rest) as [Hin Hmin].
    exists (cheapestOf first rest). unfold cheapestOf. by repeat split.
Qed.

Lemma bestDeal_is_cheapest_row_of_season_witness :
  deal_price (findBestDealByMonthSeason ∅ ∅ ∅ Examples.januaryOnly high) = 0%Q.
Proof.
  pose proof (proj1 (bestDeal_is_cheapest_row_of_season ∅ ∅ ∅
                       Examples.januaryOnly high)) as H.
  rewrite H; [done | by vm_compute].
Defined.

(** X8. The price range of a season spans the stored prices of its rows
    (the rows of its months, and for Normal also those of months without
    a label): min and max are stored prices of such rows, every such
    price lies between them, and min <= max.  Without such rows the range
    is 0..0: the second filter over the flight rows never finds a row the
    first grouping missed. *)
Theorem priceRange_spans_season_prices
    (pricePercentileMap weatherData holidayData : gmap string Q)
    (flightPrices : list FlightPrice) (s : SeasonType) :
  let prices := seasonPrices pricePercentileMap weatherData holidayData flightPrices s in
  let range := getPriceRangeForSeason pricePercentileMap weatherData holidayData
                 flightPrices s in
  (prices = [] -> range = {| min := 0; max := 0 |})
  /\ (prices <> [] ->
      min range ∈ prices /\ max range ∈ prices
      /\ forall p, p ∈ prices -> (min range <= p)%Q /\ (p <= max range)%Q)
  /\ (min range <= max range)%Q.
Proof.
  intros prices range. subst range. unfold getPriceRangeForSeason. fold prices.
  assert (Hempty : prices = [] ->
            filter (fun fp =>
                      monthSeasonMap pricePercentileMap weatherData holidayData
                        flightPrices !! month (departure_date fp) = Some s)
              flightPrices = []).
  { intros Hp. subst prices. unfold seasonPrices in Hp.
    apply fmap_nil_inv in Hp.
    destruct (filter _ flightPrices) as [|fp rest] eqn:Hf in |- *; [done|].
    assert (Hin : fp ∈ filter (fun fp =>
                     seasonOrNormal pricePercentileMap weatherData holidayData
                       flightPrices (month (departure_date fp)) = s) flightPrices).
    { assert (Hfp : fp ∈ fp :: rest) by (by left). rewrite <- Hf in Hfp.
      apply list_elem_of_filter in Hfp as [Hl Hfp].
      apply list_elem_of_filter. split; [|done].
      by apply seasonOrNormal_of_label. }
    rewrite Hp in Hin. by apply elem_of_nil in Hin. }
  destruct prices as [|p ps] eqn:Hprices.
  - rewrite (Hempty eq_refl). simpl. split; [done|]. split; [by intros []|].
    apply Qle_refl.
  - cbn [length Nat.ltb Nat.leb]. cbn [min max].
    destruct (Math_min_spec p ps) as [Hmin_in Hmin].
    destruct (Math_max_spec p ps) as [Hmax_in Hmax].
    split; [done|]. split.
    + intros _. split; [done|]. split; [done|]. intros q Hq.
      split; [by apply Hmin | by apply Hmax].
    + eapply Qle_trans; [apply (Hmin p); by left | apply (Hmax p); by left].
Qed.

Lemma priceRange_spans_season_prices_witness :
  getPriceRangeForSeason ∅ ∅ ∅ Examples.januaryOnly high = {| min := 0; max := 0 |}.
Proof.
  apply (proj1 (priceRange_spans_season_prices ∅ ∅ ∅ Examples.januaryOnly high)).
  by vm_compute.
Defined.

(** X9. For the Low and the High season the best-deal price is the lower
    end of the price range. *)
Theorem bestDeal_price_is_range_min
    (pricePercentileMap weatherData holidayData : gmap string Q)
    (flightPrices : list FlightPrice) (s : SeasonType) :
  s <> normal ->
  (deal_price (findBestDealByMonthSeason pricePercentileMap weatherData holidayData
                 flightPrices s)
   == min (getPriceRangeForSeason pricePercentileMap weatherData holidayData
             flightPrices s))%Q.
Proof.
  intros Hs.
  set (label := monthSeasonMap pricePercentileMap weatherData holidayData flightPrices).
  assert (Hrows : filter (fun fp =>
                     seasonOrNormal pricePercentileMap weatherData holidayData
                       flightPrices (month (departure_date fp)) = s) flightPrices
                  = filter (fun fp => label !! month (departure_date fp) = Some s)
                      flightPrices).
  { apply list_filter_iff. intros fp. split.
    - by apply label_of_seasonOrNormal.
    - by apply seasonOrNormal_of_label. }
  unfold findBestDealByMonthSeason, getPriceRangeForSeason, seasonPrices.
  fold label. rewrite Hrows.
  destruct (filter (fun fp => label !! month (departure_date fp) = Some s) flightPrices)
    as [|r rs] eqn:Hf.
  - simpl. reflexivity.
  - cbn [fmap list_fmap length Nat.ltb Nat.leb min deal_price].
    change (price r :: list_fmap _ _ price rs) with (price <$> r :: rs).
    destruct (fold_cheapest_spec price r rs) as [Hin Hmin]. fold (cheapestOf r rs) in *.
    destruct (Math_min_spec (price r) (price <$> rs)) as [Hmin_in Hall].
    change (price r :: (price <$> rs)) with (price <$> r :: rs) in *.
    apply list_elem_of_fmap in Hmin_in as (fp' & Heq & Hin').
    apply Qle_antisym.
    + rewrite Heq. by apply Hmin.
    + apply Hall. apply list_elem_of_fmap. by exists (cheapestOf r rs).
Qed.

Lemma bestDeal_price_is_range_min_witness :
  (deal_price (findBestDealByMonthSeason ∅ ∅ ∅ Examples.threeMonths low)
   == min (getPriceRangeForSeason ∅ ∅ ∅ Examples.threeMonths low))%Q.
Proof. by apply (bestDeal_price_is_range_min ∅ ∅ ∅ Examples.threeMonths low). Defined.

End OutputFacts.

(* ===================================================================== *)
(** ** The analysis result: recommended price, date prices, savings       *)
(* ===================================================================== *)

Section AnalysisFacts.
Import Calendar Model Pricing Season Analysis.

Lemma round_mono (x y : Q) : (x <= y)%Q -> Js.round x <= Js.round y.
Proof. intros Hxy. unfold Js.round. apply Qfloor_resp_le. lra. Qed.

Lemma round_zero : Js.round 0 = 0.
Proof. done. Qed.

Lemma oneWayFactor_pos (tripType : option TripType) : (0 < oneWayFactor tripType)%Q.
Proof. unfold oneWayFactor. by destruct tripType as [[]|]. Qed.

Lemma calculatePriceWithDiscounts_mono (p q : Q) (ps : Passengers) :
  0 <= adults ps -> 0 <= children ps -> 0 <= infants ps ->
  (p <= q)%Q ->
  (calculatePriceWithDiscounts p ps <= calculatePriceWithDiscounts q ps)%Q.
Proof.
  intros Ha Hc Hi Hpq. rewrite !calculatePriceWithDiscounts_formula.
  rewrite Zle_Qle in Ha, Hc, Hi.
  set (a := inject_Z (adults ps)) in *. set (c := inject_Z (children ps)) in *.
  set (i := inject_Z (infants ps)) in *. clearbody a c i.
  change (inject_Z 0) with 0%Q in *. nra.
Qed.

Lemma calculatePriceWithDiscounts_zero (p : Q) (ps : Passengers) :
  (p == 0)%Q -> (calculatePriceWithDiscounts p ps == 0)%Q.
Proof. intros Hp. rewrite calculatePriceWithDiscounts_formula, Hp. ring. Qed.

Lemma bestDealOf_spec (first : SeasonData) (rest : list SeasonData) :
  exists best,
    bestDealOf (first :: rest) = Some best
    /\ best ∈ first :: rest
    /\ forall s, s ∈ first :: rest ->
         (deal_price (bestDeal best) <= deal_price (bestDeal s))%Q.
Proof.
  destruct (fold_cheapest_spec (fun s => deal_price (bestDeal s)) first rest)
    as [Hin Hmin].
  eexists. split; [reflexivity|]. by split.
Qed.

(** X10. The recommended price is the least best-deal price of the
    seasons: it is the best-deal price of one of them and no season has a
    smaller one.  A season without rows, whose placeholder deal has price
    0, takes part in the comparison. *)
Theorem recommendedPrice_is_least_best_deal (seasons : list SeasonData) :
  seasons <> [] ->
  exists best,
    bestDealOf seasons = Some best
    /\ best ∈ seasons
    /\ recommendedPrice seasons = deal_price (bestDeal best)
    /\ forall s, s ∈ seasons ->
         (recommendedPrice seasons <= deal_price (bestDeal s))%Q.
Proof.
  intros Hne. destruct seasons as [|first rest]; [done|].
  destruct (bestDealOf_spec first rest) as (best & Hbest & Hin & Hmin).
  exists best. unfold recommendedPrice. rewrite Hbest. by repeat split.
Qed.

Lemma recommendedPrice_is_least_best_deal_witness :
  exists best,
    bestDealOf getEmptySeasons = Some best
    /\ best ∈ getEmptySeasons
    /\ recommendedPrice getEmptySeasons = deal_price (bestDeal best)
    /\ forall s, s ∈ getEmptySeasons ->
         (recommendedPrice getEmptySeasons <= deal_price (bestDeal s))%Q.
Proof. by apply (recommendedPrice_is_least_best_deal getEmptySeasons). Defined.

Lemma findBestDeal_price_cases ppm wd hd (flightPrices : list FlightPrice)
    (s : SeasonType) :
  let rows := filter (fun fp => monthSeasonMap ppm wd hd flightPrices
                                  !! month (departure_date fp) = Some s)
                flightPrices in
  (rows = [] /\ deal_price (findBestDealByMonthSeason ppm wd hd flightPrices s) = 0%Q)
  \/ (exists fp, fp ∈ flightPrices
        /\ deal_price (findBestDealByMonthSeason ppm wd hd flightPrices s) = price fp).
Proof.
  intros rows. unfold findBestDealByMonthSeason. fold rows.
  destruct rows as [|first rest] eqn:Hrows; [by left|]. right.
  destruct (fold_cheapest_spec price first rest) as [Hin _].
  exists (cheapestOf first rest). split; [|done].
  unfold cheapestOf. rewrite <- Hrows in Hin. subst rows.
  by apply list_elem_of_filter in Hin as [_ Hin].
Qed.

(** X11. The classifier output feeds the recommendation unfiltered: when
    no stored price is negative and some season has no flight row in a
    month of its label (so that its best deal is the placeholder of price
    0), the recommended price is 0, the displayed recommended price is 0
    and no savings are reported, whatever the other seasons offer. *)
Theorem empty_season_zeroes_recommendation
    (pricePercentileMap weatherData holidayData : gmap string Q)
    (flightPrices : list FlightPrice) (s0 : SeasonType)
    (userSelectedDate : option Date) (tripType : option TripType)
    (passengers : Passengers) :
  (forall fp, fp ∈ flightPrices -> (0 <= price fp)%Q) ->
  filter (fun fp => monthSeasonMap pricePercentileMap weatherData holidayData
                      flightPrices !! month (departure_date fp) = Some s0)
    flightPrices = [] ->
  let seasons := calculateSeasonsFromFlightPricesWithDemand
                   pricePercentileMap weatherData holidayData flightPrices in
  (recommendedPrice seasons == 0)%Q
  /\ recommendedPeriod_price seasons tripType passengers = 0
  /\ savings flightPrices seasons userSelectedDate tripType passengers = 0%Q
  /\ recommendedPeriod_savings flightPrices seasons userSelectedDate tripType
       passengers = 0.
Proof.
  intros Hpos Hnone seasons.
  assert (Hrec : (recommendedPrice seasons == 0)%Q).
  { subst seasons.
    destruct (calculateSeasons_cases pricePercentileMap weatherData holidayData
                flightPrices) as [[_ ->]|[_ ->]]; [done|].
    set (b := buildSeason pricePercentileMap weatherData holidayData flightPrices).
    destruct (bestDealOf_spec (b low) [b normal; b high])
      as (best & Hbest & Hin & Hmin).
    unfold recommendedPrice. rewrite Hbest. apply Qle_antisym.
    - assert (H0 : deal_price (bestDeal (b s0)) = 0%Q).
      { destruct (findBestDeal_price_cases pricePercentileMap weatherData
                    holidayData flightPrices s0) as [[_ H0]|(fp & _ & _)].
        - done.
        - unfold b. simpl. unfold findBestDealByMonthSeason. by rewrite Hnone. }
      rewrite <- H0. apply Hmin.
      destruct s0; [by left | right; by left | right; right; by left].
    - assert (Hall : forall s, (0 <= deal_price (bestDeal (b s)))%Q).
      { intros s.
        destruct (findBestDeal_price_cases pricePercentileMap weatherData
                    holidayData flightPrices s) as [[_ H0]|(fp & Hfp & Heq)];
          unfold b; simpl.
        - rewrite H0. apply Qle_refl.
        - rewrite Heq. by apply Hpos. }
      repeat (apply elem_of_cons in Hin as [->|Hin]; [apply Hall|]).
      by apply elem_of_nil in Hin. }
  assert (Hadj : (adjustedRecommendedPrice seasons passengers == 0)%Q)
    by (by apply calculatePriceWithDiscounts_zero).
  assert (Hlt : ltb 0 (adjustedRecommendedPrice seasons passengers) = false)
    by (apply ltb_ge; rewrite Hadj; apply Qle_refl).
  assert (Hsav : savings flightPrices seasons userSelectedDate tripType passengers
                 = 0%Q).
  { unfold savings. destruct userSelectedDate; simpl;
      by rewrite Hlt, andb_false_r. }
  split; [done|]. split; [|split; [done|]].
  - unfold recommendedPeriod_price.
    rewrite (round_comp _ 0); [done|]. rewrite Hadj. ring.
  - unfold recommendedPeriod_savings. rewrite Hsav.
    rewrite (round_comp _ 0); [done|]. ring.
Qed.

Lemma empty_season_zeroes_recommendation_witness :
  recommendedPeriod_price
    (calculateSeasonsFromFlightPricesWithDemand ∅ ∅ ∅ Examples.equalPrices)
    None Examples.oneAdult = 0.
Proof.
  assert (Hpos : forall fp, fp ∈ Examples.equalPrices -> (0 <= price fp)%Q).
  { intros fp Hfp. unfold Examples.equalPrices in Hfp.
    repeat (apply elem_of_cons in Hfp as [->|Hfp]; [by vm_compute|]).
    by apply elem_of_nil in Hfp. }
  assert (Hnone : filter (fun fp => monthSeasonMap ∅ ∅ ∅ Examples.equalPrices
                                      !! month (departure_date fp) = Some high)
                    Examples.equalPrices = []) by (by vm_compute).
  exact (proj1 (proj2 (empty_season_zeroes_recommendation ∅ ∅ ∅
                         Examples.equalPrices high None None Examples.oneAdult
                         Hpos Hnone))).
Defined.

(** X13. Savings are never negative, before and after the rounding, and
    positive savings stay below the price they are taken from (the price
    of the user's date, or the High season's best deal when no date is
    chosen). *)
Theorem savings_nonnegative_and_bounded
    (flightPrices : list FlightPrice) (seasons : list SeasonData)
    (userSelectedDate : option Date) (tripType : option TripType)
    (passengers : Passengers) :
  let reference :=
    match userSelectedDate with
    | Some date => getPriceForDate flightPrices date (tripTypeOrRoundTrip tripType)
    | None =>
        match List.find (fun s => bool_decide (type s = high)) seasons with
        | Some s => deal_price (bestDeal s)
        | None => 0%Q
        end
    end in
  let s := savings flightPrices seasons userSelectedDate tripType passengers in
  (0 <= s)%Q
  /\ ((0 < s)%Q -> (s < reference)%Q)
  /\ 0 <= recommendedPeriod_savings flightPrices seasons userSelectedDate
            tripType passengers.
Proof.
  intros reference s.
  assert (Hs : (0 <= s)%Q /\ ((0 < s)%Q -> (s < reference)%Q)).
  { subst s reference. unfold savings.
    set (b := adjustedRecommendedPrice seasons passengers).
    destruct userSelectedDate as [date|]; cbv zeta.
    - set (a := getPriceForDate _ _ _).
      destruct (ltb 0 a) eqn:Ha; simpl; [|split; lra].
      destruct (ltb 0 b) eqn:Hb; simpl; [|split; lra].
      destruct (ltb b a) eqn:Hab; simpl; [|split; lra].
      apply ltb_lt in Ha, Hb, Hab. split; lra.
    - set (a := match List.find _ seasons with Some _ => _ | None => _ end).
      destruct (ltb 0 a) eqn:Ha; simpl; [|split; lra].
      destruct (ltb 0 b) eqn:Hb; simpl; [|split; lra].
      destruct (ltb b a) eqn:Hab; simpl; [|split; lra].
      apply ltb_lt in Ha, Hb, Hab. split; lra. }
  destruct Hs as [H0 Hlt]. split; [done|]. split; [done|].
  unfold recommendedPeriod_savings. fold s.
  rewrite <- round_zero. apply round_mono.
  pose proof (oneWayFactor_pos tripType) as Hf.
  set (f := oneWayFactor tripType) in *. clearbody f s. nra.
Qed.

Lemma getPriceRangeForSeason_ordered ppm wd hd (flightPrices : list FlightPrice)
    (s : SeasonType) :
  (min (getPriceRangeForSeason ppm wd hd flightPrices s)
   <= max (getPriceRangeForSeason ppm wd hd flightPrices s))%Q.
Proof.
  assert (Hord : forall l : list Q,
             (0 <? length l)%nat = true -> (Math_min l <= Math_max l)%Q).
  { intros [|p ps] Hl; [done|].
    destruct (Math_min_spec p ps) as [_ Hmin].
    destruct (Math_max_spec p ps) as [_ Hmax].
    eapply Qle_trans; [apply (Hmin p) | apply (Hmax p)]; by left. }
  unfold getPriceRangeForSeason.
  destruct (0 <? length (seasonPrices _ _ _ _ _))%nat eqn:H1; cbn [min max].
  - by apply Hord.
  - destruct (0 <? length (filter _ flightPrices))%nat eqn:H2; cbn [min max].
    + apply Hord. by rewrite length_fmap.
    + apply Qle_refl.
Qed.

(** X14. With non-negative passenger counts the displayed price range of
    every season of the classifier output is ordered: its lower end is at
    most its upper end, after the passenger discounts, the one-way factor
    and the rounding. *)
Theorem displayed_price_range_ordered
    (pricePercentileMap weatherData holidayData : gmap string Q)
    (flightPrices : list FlightPrice) (tripType : option TripType)
    (passengers : Passengers) (shown : SeasonData) :
  0 <= adults passengers -> 0 <= children passengers -> 0 <= infants passengers ->
  shown ∈ displaySeasons
            (calculateSeasonsFromFlightPricesWithDemand pricePercentileMap
               weatherData holidayData flightPrices) tripType passengers ->
  (min (priceRange shown) <= max (priceRange shown))%Q.
Proof.
  intros Ha Hc Hi Hin. unfold displaySeasons in Hin.
  apply list_elem_of_fmap in Hin as (s & -> & Hin).
  assert (Hs : (min (priceRange s) <= max (priceRange s))%Q).
  { destruct (calculateSeasons_cases pricePercentileMap weatherData holidayData
                flightPrices) as [[_ Hc0]|[_ Hc0]]; rewrite Hc0 in Hin;
      repeat (apply elem_of_cons in Hin as [->|Hin];
              [first [apply getPriceRangeForSeason_ordered | apply Qle_refl]|]);
      by apply elem_of_nil in Hin. }
  unfold displaySeason. cbn [priceRange min max].
  rewrite <- Zle_Qle. apply round_mono.
  pose proof (oneWayFactor_pos tripType) as Hf.
  pose proof (calculatePriceWithDiscounts_mono _ _ passengers Ha Hc Hi Hs) as Hm.
  set (f := oneWayFactor tripType) in *.
  set (x := calculatePriceWithDiscounts (min (priceRange s)) passengers) in *.
  set (y := calculatePriceWithDiscounts (max (priceRange s)) passengers) in *.
  clearbody f x y. nra.
Qed.

Lemma displayed_price_range_ordered_witness :
  let shown := displaySeason (Some one_way) Examples.family
                 (buildSeason ∅ ∅ ∅ Examples.threeMonths low) in
  (min (priceRange shown) <= max (priceRange shown))%Q.
Proof.
  intros shown. subst shown.
  apply (displayed_price_range_ordered ∅ ∅ ∅ Examples.threeMonths (Some one_way)
           Examples.family); [by vm_compute..|].
  apply list_elem_of_lookup_2 with 0%nat. by vm_compute.
Defined.

End AnalysisFacts.

(* ===================================================================== *)
(** ** Displayed prices in double precision                               *)
(* ===================================================================== *)

Section DoublePrecisionFacts.
Import Model Pricing Analysis Ieee.

Lemma grid16 (n : Z) : 0 <= n <= 2 ^ 45 -> onGrid (inject_Z n / 16).
Proof.
  intros Hn. exists (256 * n). split; [lia|].
  rewrite inject_Z_mult. change (inject_Z 256) with 256%Q. field.
Qed.

Lemma floor_grid (x : Q) :
  (0 <= x)%Q -> (x <= 2199023255552)%Q ->
  onGrid (inject_Z (Qfloor (x * 4096)) / 4096)
  /\ (inject_Z (Qfloor (x * 4096)) / 4096 <= x)%Q
  /\ (x - (1 # 4096) <= inject_Z (Qfloor (x * 4096)) / 4096)%Q.
Proof.
  intros H0 H1.
  pose proof (Qfloor_le (x * 4096)) as Hle.
  pose proof (Qlt_floor (x * 4096)) as Hlt.
  rewrite inject_Z_plus in Hlt. change (inject_Z 1) with 1%Q in Hlt.
  assert (Hlo : 0 <= Qfloor (x * 4096)).
  { change 0 with (Qfloor 0). apply Qfloor_resp_le. lra. }
  assert (Hhi : Qfloor (x * 4096) <= 2 ^ 53).
  { apply Z.le_trans with (Qfloor (inject_Z (2 ^ 53))); [|by rewrite Qfloor_Z].
    apply Qfloor_resp_le. change (inject_Z (2 ^ 53)) with 9007199254740992%Q. lra. }
  split; [exists (Qfloor (x * 4096)); split; [lia|reflexivity]|].
  set (k := inject_Z (Qfloor (x * 4096))) in *. clearbody k.
  assert (Hdiv : (k / 4096 == k * (1 # 4096))%Q) by field.
  rewrite Hdiv. split; lra.
Qed.

Section Nearest.
Variable fl : Q -> Q.
Hypothesis Hfl : roundsToNearest fl.

Lemma near_bounds (x r d : Q) :
  (Qabs x <= 9007199254740992)%Q -> onGrid r ->
  (- d <= r - x)%Q -> (r - x <= d)%Q ->
  (x - d <= fl x)%Q /\ (fl x <= x + d)%Q.
Proof.
  intros Hx Hr Hlo Hhi.
  pose proof (Hfl x r Hx Hr) as Hn.
  assert (Hd : (Qabs (r - x) <= d)%Q) by (apply Qabs_Qle_condition; split; lra).
  assert (Hn' : (Qabs (fl x - x) <= d)%Q) by (eapply Qle_trans; eauto).
  apply Qabs_Qle_condition in Hn'. split; lra.
Qed.

Lemma abs_small (x : Q) :
  (0 <= x)%Q -> (x <= 2199023255552)%Q -> (Qabs x <= 9007199254740992)%Q.
Proof. intros H0 H1. apply Qabs_Qle_condition. split; lra. Qed.

(** An exact result on the sixteenth-grid is not rounded. *)
Lemma fl_exact16 (x : Q) (n : Z) :
  0 <= n <= 2 ^ 45 -> (x == inject_Z n / 16)%Q -> (fl x == inject_Z n / 16)%Q.
Proof.
  intros Hn Hx.
  assert (Hq : (0 <= inject_Z n / 16 /\ inject_Z n / 16 <= 2199023255552)%Q).
  { assert (H0 : (0 <= inject_Z n)%Q) by (change 0%Q with (inject_Z 0); rewrite <- Zle_Qle; lia).
    assert (H1 : (inject_Z n <= 35184372088832)%Q)
      by (change 35184372088832%Q with (inject_Z (2 ^ 45)); rewrite <- Zle_Qle; lia).
    assert (Hdiv : (inject_Z n / 16 == inject_Z n * (1 # 16))%Q) by field.
    rewrite Hdiv. split; lra. }
  destruct (near_bounds x (inject_Z n / 16) 0) as [Hlo Hhi].
  - apply abs_small; lra.
  - by apply grid16.
  - lra.
  - lra.
  - lra.
Qed.

(** A result at or above a double of the sixteenth-grid stays there. *)
Lemma fl_above16 (x : Q) (n : Z) :
  0 <= n <= 2 ^ 45 -> (inject_Z n / 16 <= x)%Q -> (x <= 2199023255552)%Q ->
  (inject_Z n / 16 <= fl x)%Q.
Proof.
  intros Hn Hx Hmax.
  assert (H0 : (0 <= inject_Z n / 16)%Q).
  { assert (H0 : (0 <= inject_Z n)%Q) by (change 0%Q with (inject_Z 0); rewrite <- Zle_Qle; lia).
    assert (Hdiv : (inject_Z n / 16 == inject_Z n * (1 # 16))%Q) by field.
    rewrite Hdiv. lra. }
  destruct (near_bounds x (inject_Z n / 16) (x - inject_Z n / 16)) as [Hlo Hhi].
  - apply abs_small; lra.
  - by apply grid16.
  - lra.
  - lra.
  - lra.
Qed.

(** Every result up to 2^41 is within 2^-12 of the exact one. *)
Lemma fl_close (x : Q) :
  (0 <= x)%Q -> (x <= 2199023255552)%Q ->
  (x - (1 # 4096) <= fl x)%Q /\ (fl x <= x + (1 # 4096))%Q.
Proof.
  intros H0 H1. destruct (floor_grid x H0 H1) as (Hg & Hle & Hge).
  apply (near_bounds x (inject_Z (Qfloor (x * 4096)) / 4096) (1 # 4096));
    [by apply abs_small|done|lra|lra].
Qed.


Lemma fl_nonneg (x : Q) :
  (0 <= x)%Q -> (x <= 2199023255552)%Q -> (0 <= fl x)%Q.
Proof.
  intros H0 H1. pose proof (fl_above16 x 0 ltac:(lia)) as H.
  assert (Hz : (inject_Z 0 / 16 == 0)%Q) by (by vm_compute).
  rewrite Hz in H. by apply H.
Qed.

Lemma Qfloor_unique (x : Q) (n : Z) :
  (inject_Z n <= x)%Q -> (x < inject_Z n + 1)%Q -> Qfloor x = n.
Proof.
  intros Hlo Hhi. apply Z.le_antisymm.
  - apply Z.lt_succ_r. rewrite Zlt_Qlt.
    eapply Qle_lt_trans; [apply Qfloor_le|].
    unfold Z.succ. rewrite inject_Z_plus. by change (inject_Z 1) with 1%Q.
  - rewrite <- (Qfloor_Z n). by apply Qfloor_resp_le.
Qed.

(** Rounding a value near a multiple of 1/40: the nearest integer is that
    of the multiple, provided the value is not below it when the multiple
    is a half. *)
Lemma round_stable (N : Z) (v : Q) :
  (inject_Z N / 40 - (1 # 1024) <= v)%Q ->
  (v <= inject_Z N / 40 + (1 # 1024))%Q ->
  (N mod 40 = 20 -> (inject_Z N / 40 <= v)%Q) ->
  Js.round v = Js.round (inject_Z N / 40).
Proof.
  intros Hlo Hhi Hhalf.
  set (n := (N + 20) / 40). set (r := (N + 20) mod 40).
  assert (HN : N + 20 = 40 * n + r) by (subst n r; apply Z.div_mod; lia).
  assert (Hr : 0 <= r < 40) by (subst r; apply Z.mod_pos_bound; lia).
  assert (HNq : (inject_Z N + 20 == 40 * inject_Z n + inject_Z r)%Q).
  { change 20%Q with (inject_Z 20). change 40%Q with (inject_Z 40).
    rewrite <- inject_Z_plus, <- inject_Z_mult, <- inject_Z_plus. by rewrite HN. }
  assert (Hr0 : (0 <= inject_Z r)%Q)
    by (change 0%Q with (inject_Z 0); rewrite <- Zle_Qle; lia).
  assert (Hr39 : (inject_Z r <= 39)%Q)
    by (change 39%Q with (inject_Z 39); rewrite <- Zle_Qle; lia).
  assert (Hdiv : (inject_Z N / 40 == inject_Z N * (1 # 40))%Q) by field.
  rewrite Hdiv in Hlo, Hhi.
  assert (Hright : Js.round (inject_Z N / 40) = n).
  { unfold Js.round. apply Qfloor_unique; rewrite Hdiv; lra. }
  rewrite Hright. unfold Js.round. apply Qfloor_unique; [|lra].
  destruct (decide (r = 0)) as [Hz|Hnz].
  - assert (Hmod : N mod 40 = 20).
    { subst r. revert Hz. Z.to_euclidean_division_equations. lia. }
    specialize (Hhalf Hmod). rewrite Hdiv in Hhalf.
    rewrite Hz in HNq. change (inject_Z 0) with 0%Q in HNq. lra.
  - assert (Hr1 : (1 <= inject_Z r)%Q)
      by (change 1%Q with (inject_Z 1); rewrite <- Zle_Qle; lia).
    lra.
Qed.

Lemma inject_Z_range (n lo hi : Z) :
  lo <= n <= hi -> (inject_Z lo <= inject_Z n)%Q /\ (inject_Z n <= inject_Z hi)%Q.
Proof. intros [H1 H2]. by rewrite <- !Zle_Qle. Qed.

(** In double precision the displayed price of a whole stored price is
    the one the pricing rule gives. *)
Lemma displayed_whole (tripType : option TripType) (ps : Passengers) (price : Q) :
  validMix ps -> wholePrice ps price ->
  displayedPrice fl tripType ps price
  = displayPrice_spec price ps (bool_decide (tripType = Some one_way)).
Proof.
  intros (HA & HC & HI) (p & Hprice & Hp & Hmax).
  destruct ps as [A C I]. cbn [adults children infants] in *.
  assert (HpA : 0 <= p * A <= 2 ^ 40) by nia.
  assert (HpC : 0 <= p * C <= 2 ^ 40) by nia.
  assert (HpI : 0 <= p * I <= 2 ^ 40) by nia.
  assert (Hsum : p * A + p * C + p * I <= 2 ^ 40) by nia.
  unfold displayedPrice, calculatePriceWithDiscounts, mul, add.
  cbn [adults children infants].
  set (adult := fl (price * inject_Z A)%Q).
  set (pc := fl (price * inject_Z C)%Q). set (child := fl (pc * 0.75)%Q).
  set (pi := fl (price * inject_Z I)%Q). set (infant := fl (pi * tenth)%Q).
  set (s1 := fl (adult + child)%Q). set (total := fl (s1 + infant)%Q).
  set (v := fl (total * oneWayFactor tripType)%Q).
  set (QA := inject_Z (p * A)). set (QC := inject_Z (p * C)).
  set (QI := inject_Z (p * I)).
  destruct (inject_Z_range _ _ _ HpA) as [HA0 HA1].
  destruct (inject_Z_range _ _ _ HpC) as [HC0 HC1].
  destruct (inject_Z_range _ _ _ HpI) as [HI0 HI1].
  assert (HS1 : (QA + QC + QI <= inject_Z (2 ^ 40))%Q).
  { subst QA QC QI. rewrite <- !inject_Z_plus, <- Zle_Qle. lia. }
  fold QA in HA0, HA1. fold QC in HC0, HC1. fold QI in HI0, HI1.
  change (inject_Z 0) with 0%Q in *.
  change (inject_Z (2 ^ 40)) with 1099511627776%Q in *.
  assert (Hadult : (adult == QA)%Q).
  { subst adult. rewrite (fl_exact16 _ (16 * (p * A))); [|lia|].
    - rewrite inject_Z_mult. change (inject_Z 16) with 16%Q. subst QA. field.
    - rewrite Hprice, !inject_Z_mult. change (inject_Z 16) with 16%Q. field. }
  assert (Hpc : (pc == QC)%Q).
  { subst pc. rewrite (fl_exact16 _ (16 * (p * C))); [|lia|].
    - rewrite inject_Z_mult. change (inject_Z 16) with 16%Q. subst QC. field.
    - rewrite Hprice, !inject_Z_mult. change (inject_Z 16) with 16%Q. field. }
  assert (Hchild : (child == QC * (3 # 4))%Q).
  { subst child. rewrite (fl_exact16 _ (12 * (p * C))); [|lia|].
    - rewrite inject_Z_mult. change (inject_Z 12) with 12%Q. subst QC. field.
    - rewrite Hpc. subst QC. rewrite !inject_Z_mult.
      change (inject_Z 12) with 12%Q. field. }
  assert (Hpi : (pi == QI)%Q).
  { subst pi. rewrite (fl_exact16 _ (16 * (p * I))); [|lia|].
    - rewrite inject_Z_mult. change (inject_Z 16) with 16%Q. subst QI. field.
    - rewrite Hprice, !inject_Z_mult. change (inject_Z 16) with 16%Q. field. }
  assert (Hs1 : (s1 == QA + QC * (3 # 4))%Q).
  { subst s1. rewrite (fl_exact16 _ (16 * (p * A) + 12 * (p * C))); [|lia|].
    - rewrite inject_Z_plus, !inject_Z_mult.
      change (inject_Z 16) with 16%Q. change (inject_Z 12) with 12%Q.
      subst QA QC. rewrite !inject_Z_mult. field.
    - rewrite Hadult, Hchild. subst QA QC.
      rewrite inject_Z_plus, !inject_Z_mult.
      change (inject_Z 16) with 16%Q. change (inject_Z 12) with 12%Q. field. }
  clearbody adult pc child pi s1.
  (* the infant part: the one inexact product *)
  set (xi := (pi * tenth)%Q) in *.
  assert (Hxi : (xi == QI * tenth)%Q) by (subst xi; by rewrite Hpi).
  assert (Hxi0 : (QI * (1 # 10) <= xi)%Q) by (rewrite Hxi; unfold tenth; lra).
  assert (Hxi1 : (xi <= QI * (1 # 10) + (1 # 4096))%Q)
    by (rewrite Hxi; unfold tenth; lra).
  assert (Hinf0 : (0 <= infant)%Q).
  { apply fl_nonneg; lra. }
  destruct (fl_close xi ltac:(lra) ltac:(lra)) as [Hinf1 Hinf2]. fold infant in Hinf1, Hinf2.
  assert (Hinf5 : forall j, p * I = 5 * j -> (QI * (1 # 10) <= infant)%Q).
  { intros j Hj.
    assert (Hq : (QI * (1 # 10) == inject_Z (8 * j) / 16)%Q).
    { subst QI. rewrite Hj, !inject_Z_mult.
      change (inject_Z 5) with 5%Q. change (inject_Z 8) with 8%Q. field. }
    rewrite Hq. apply fl_above16; [lia| |lra]. rewrite <- Hq. lra. }
  clearbody infant. clear Hxi Hpi. clearbody xi.
  (* the sum *)
  set (T := (QA + QC * (3 # 4) + QI * (1 # 10))%Q).
  set (y := (s1 + infant)%Q) in *.
  assert (Hy0 : (0 <= y)%Q) by (subst y; lra).
  assert (Hy1 : (y <= 2199023255552)%Q) by (subst y; lra).
  destruct (fl_close y Hy0 Hy1) as [Ht1 Ht2]. fold total in Ht1, Ht2.
  assert (Ht5 : forall j, p * I = 5 * j -> (T <= total)%Q).
  { intros j Hj. specialize (Hinf5 j Hj).
    assert (Hq : (T == inject_Z (16 * (p * A) + 12 * (p * C) + 8 * j) / 16)%Q).
    { subst T QA QC QI. rewrite Hj, !inject_Z_plus, !inject_Z_mult.
      change (inject_Z 16) with 16%Q. change (inject_Z 12) with 12%Q.
      change (inject_Z 5) with 5%Q. change (inject_Z 8) with 8%Q. field. }
    rewrite Hq. apply fl_above16; [lia| |lra]. rewrite <- Hq. subst T y. lra. }
  assert (HT1 : (T - (3 # 4096) <= total)%Q) by (subst T y; lra).
  assert (HT2 : (total <= T + (3 # 4096))%Q) by (subst T y; lra).
  assert (HT0 : (0 <= total)%Q).
  { apply fl_nonneg; lra. }
  clearbody total. clear Ht1 Ht2.
  (* the factor *)
  unfold displayPrice_spec. cbn [adults children infants].
  unfold oneWayFactor in v.
  destruct (decide (tripType = Some one_way)) as [Hone|Hone].
  - rewrite (bool_decide_eq_true_2 _ Hone).
    set (z := (total * 0.5)%Q) in *.
    assert (Hz : (z == total * (1 # 2))%Q) by (subst z; apply Qmult_comp; [reflexivity|by vm_compute]).
    destruct (fl_close z ltac:(lra) ltac:(subst T; lra)) as [Hv1 Hv2]. fold v in Hv1, Hv2.
    set (N := 20 * (p * A) + 15 * (p * C) + 2 * (p * I)).
    assert (HN : (inject_Z N / 40 == T * (1 # 2))%Q).
    { subst N T QA QC QI. rewrite !inject_Z_plus, !inject_Z_mult.
      change (inject_Z 20) with 20%Q. change (inject_Z 15) with 15%Q.
      change (inject_Z 2) with 2%Q. field. }
    transitivity (Js.round (inject_Z N / 40)).
    + apply round_stable; [rewrite HN; lra|rewrite HN; lra|].
      intros Hmod. set (j := 3 * ((N - 20) / 40 * 8 + 4 - 4 * (p * A) - 3 * (p * C)) - p * I).
      assert (Hj : p * I = 5 * j).
      { subst j N. revert Hmod. Z.to_euclidean_division_equations. lia. }
      specialize (Ht5 j Hj).
      assert (Hq : (inject_Z N / 40 == inject_Z (8 * (p * A) + 6 * (p * C) + 4 * j) / 16)%Q).
      { rewrite HN. subst T QA QC QI. rewrite Hj, !inject_Z_plus, !inject_Z_mult.
        change (inject_Z 5) with 5%Q. change (inject_Z 8) with 8%Q.
        change (inject_Z 6) with 6%Q. change (inject_Z 4) with 4%Q. field. }
      rewrite Hq. apply fl_above16; [lia| |subst T; lra]. rewrite <- Hq, HN. lra.
    + apply round_comp. rewrite HN, Hprice. subst T QA QC QI.
      rewrite !inject_Z_mult. ring.
  - rewrite (bool_decide_eq_false_2 _ Hone).
    set (z := (total * 1)%Q) in *.
    assert (Hz : (z == total)%Q) by (subst z; ring).
    destruct (fl_close z ltac:(lra) ltac:(subst T; lra)) as [Hv1 Hv2]. fold v in Hv1, Hv2.
    set (N := 40 * (p * A) + 30 * (p * C) + 4 * (p * I)).
    assert (HN : (inject_Z N / 40 == T)%Q).
    { subst N T QA QC QI. rewrite !inject_Z_plus, !inject_Z_mult.
      change (inject_Z 40) with 40%Q. change (inject_Z 30) with 30%Q.
      change (inject_Z 4) with 4%Q. field. }
    transitivity (Js.round (inject_Z N / 40)).
    + apply round_stable; [rewrite HN; lra|rewrite HN; lra|].
      intros Hmod. set (j := p * I - ((N - 20) / 40 * 8 + 4 - 8 * (p * A) - 6 * (p * C))).
      assert (Hj : p * I = 5 * j).
      { subst j N. revert Hmod. Z.to_euclidean_division_equations. lia. }
      specialize (Ht5 j Hj).
      assert (Hq : (inject_Z N / 40
                    == inject_Z (16 * (p * A) + 12 * (p * C) + 8 * j) / 16)%Q).
      { rewrite HN. subst T QA QC QI. rewrite Hj, !inject_Z_plus, !inject_Z_mult.
        change (inject_Z 5) with 5%Q. change (inject_Z 8) with 8%Q.
        change (inject_Z 16) with 16%Q. change (inject_Z 12) with 12%Q. field. }
      rewrite Hq. apply fl_above16; [lia| |subst T; lra]. rewrite <- Hq, HN. lra.
    + apply round_comp. rewrite HN, Hprice. subst T QA QC QI.
      rewrite !inject_Z_mult. ring.
Qed.

End Nearest.

Lemma round_half (y : Q) :
  (inject_Z (Js.round y) - y <= 1 # 2)%Q /\ (- (1 # 2) < inject_Z (Js.round y) - y)%Q.
Proof.
  unfold Js.round.
  pose proof (Qfloor_le (y + (1 # 2))) as Hle.
  pose proof (Qlt_floor (y + (1 # 2))) as Hlt.
  rewrite inject_Z_plus in Hlt. change (inject_Z 1) with 1%Q in Hlt.
  split; lra.
Qed.

(** Rounding to the nearest multiple of 2^-12 is a rounding to nearest
    in the sense of [roundsToNearest]. *)
Lemma toGrid_nearest : roundsToNearest toGrid.
Proof.
  intros x r _ (m & _ & Hr). unfold toGrid.
  destruct (round_half (x * 4096)) as [Hhi Hlo].
  set (n := Js.round (x * 4096)) in *.
  assert (Hdn : (inject_Z n / 4096 == inject_Z n * (1 # 4096))%Q) by field.
  assert (Hdm : (inject_Z m / 4096 == inject_Z m * (1 # 4096))%Q) by field.
  rewrite Hr, Hdn, Hdm.
  apply Qabs_Qle_condition.
  pose proof (Qle_Qabs (inject_Z m * (1 # 4096) - x)) as Habs1.
  pose proof (Qle_Qabs (- (inject_Z m * (1 # 4096) - x))) as Habs2.
  rewrite Qabs_opp in Habs2.
  destruct (Z.lt_trichotomy m n) as [Hlt|[->|Hgt]].
  - assert (Hmn : (inject_Z m + 1 <= inject_Z n)%Q).
    { change 1%Q with (inject_Z 1). rewrite <- inject_Z_plus, <- Zle_Qle. lia. }
    split; lra.
  - split; lra.
  - assert (Hmn : (inject_Z n + 1 <= inject_Z m)%Q).
    { change 1%Q with (inject_Z 1). rewrite <- inject_Z_plus, <- Zle_Qle. lia. }
    split; lra.
Qed.


Lemma wholePrice_inject_Z (ps : Passengers) (p : Z) :
  0 <= p -> p * (adults ps + children ps + infants ps) <= 2 ^ 40 ->
  wholePrice ps (inject_Z p).
Proof. intros H0 H1. by exists p. Qed.

Lemma recommendedPrice_whole (seasons : list SeasonData) (ps : Passengers) :
  Forall (fun s => wholePrice ps (deal_price (bestDeal s))) seasons ->
  wholePrice ps (recommendedPrice seasons).
Proof.
  intros Hwhole. destruct seasons as [|first rest].
  - apply (wholePrice_inject_Z ps 0); lia.
  - destruct (bestDealOf_spec first rest) as (best & Hbest & Hin & _).
    unfold recommendedPrice. rewrite Hbest.
    by apply (proj1 (Forall_forall _ _) Hwhole).
Qed.

(** C5 (as the code has it). For whole stored prices, computed as the
    code computes them - in double precision, every product and sum
    rounded to nearest - the price of the recommended period and the
    best-deal price of every returned season are
    round ((A p + 0.75 C p + 0.1 I p) x f) of the stored price p, with
    f = 1/2 exactly when the trip type is one-way and f = 1 otherwise:
    the halving is inside the rounding.  On these prices the computation
    over exact numbers shows the same values. *)
Theorem C5_displayed_prices_round_after_halving
    (fl : Q -> Q) (seasons : list SeasonData) (tripType : option TripType)
    (ps : Passengers) :
  roundsToNearest fl ->
  validMix ps ->
  Forall (fun s => wholePrice ps (deal_price (bestDeal s))) seasons ->
  Ieee.recommendedPeriod_price fl seasons tripType ps
  = displayPrice_spec (Analysis.recommendedPrice seasons) ps
      (bool_decide (tripType = Some one_way))
  /\ Ieee.bestDealPrices fl seasons tripType ps
     = (fun s => displayPrice_spec (deal_price (bestDeal s)) ps
                   (bool_decide (tripType = Some one_way)))
         <$> seasons
  /\ Analysis.recommendedPeriod_price seasons tripType ps
     = Ieee.recommendedPeriod_price fl seasons tripType ps
  /\ (fun s => deal_price (bestDeal s)) <$> Analysis.displaySeasons seasons tripType ps
     = inject_Z <$> Ieee.bestDealPrices fl seasons tripType ps.
Proof.
  intros Hfl Hmix Hwhole.
  pose proof (recommendedPrice_whole seasons ps Hwhole) as Hrec.
  assert (Hall : Forall (fun s =>
                   displayedPrice fl tripType ps (deal_price (bestDeal s))
                   = displayPrice_spec (deal_price (bestDeal s)) ps
                       (bool_decide (tripType = Some one_way))) seasons).
  { eapply Forall_impl; [exact Hwhole|]. intros s Hs. by apply displayed_whole. }
  split; [by apply displayed_whole|].
  split; [by apply Forall_fmap_ext_1|].
  split.
  - unfold Ieee.recommendedPeriod_price. rewrite displayed_whole by done.
    apply display_matches_spec.
  - unfold Analysis.displaySeasons, bestDealPrices.
    rewrite <- !list_fmap_compose. apply Forall_fmap_ext_1.
    eapply Forall_impl; [exact Hall|]. intros s Hs. simpl. f_equal.
    rewrite Hs. apply display_matches_spec.
Qed.

(** C5 on a one-way request for two adults, a child and an infant, with
    every operation rounded to the nearest multiple of 2^-12: the stored
    best deal 1001 gives 2852.85 for the passengers, and the price shown
    is round (1426.425) = 1426. *)
Lemma C5_displayed_prices_round_after_halving_witness :
  let seasons :=
    Season.calculateSeasonsFromFlightPricesWithDemand ∅ ∅ ∅ Examples.oddRows in
  Analysis.recommendedPrice seasons = 1001%Q
  /\ Ieee.recommendedPeriod_price toGrid seasons (Some one_way) Examples.family
     = 1426.
Proof.
  intros seasons.
  assert (Hmix : validMix Examples.family) by (by vm_compute).
  assert (Hwhole : Forall (fun s => wholePrice Examples.family (deal_price (bestDeal s)))
                     seasons).
  { apply Forall_forall. intros s Hs.
    assert (Hp : deal_price (bestDeal s) ∈ [1001%Q; 1500%Q; 2000%Q]).
    { apply (list_elem_of_fmap_2 (fun s => deal_price (bestDeal s))) in Hs.
      revert Hs. by vm_compute. }
    repeat (apply elem_of_cons in Hp as [->|Hp]);
      [apply (wholePrice_inject_Z _ 1001) | apply (wholePrice_inject_Z _ 1500)
       | apply (wholePrice_inject_Z _ 2000) | by apply elem_of_nil in Hp];
      by vm_compute. }
  destruct (C5_displayed_prices_round_after_halving toGrid seasons (Some one_way)
              Examples.family toGrid_nearest Hmix Hwhole) as (Hrec & _).
  split; [by vm_compute|]. rewrite Hrec. by vm_compute.
Defined.

(** The model's constant for 0.1 is the machine's. *)
Lemma tenth_is_double : (Binary64.toQ Binary64.tenth == tenth)%Q.
Proof. by vm_compute. Qed.

(** On the machine's doubles: for two adults, a child and an infant the
    whole prices from 1 to 1500 are displayed as the pricing rule gives
    them, one-way and round-trip. *)
Lemma binary64_whole_prices_agree :
  forallb (Binary64.agrees (Some one_way) Examples.family) (seqZ 1 1500) = true
  /\ forallb (Binary64.agrees (Some round_trip) Examples.family) (seqZ 1 1500) = true.
Proof. split; by vm_compute. Qed.

End DoublePrecisionFacts.

(* ===================================================================== *)
(** ** Month names, the season of a date, prices of a date                *)
(* ===================================================================== *)

Section ComparisonFacts.
Import Calendar Model Pricing Season Analysis Comparison.

Lemma findIndex_spec {A} (p : A -> bool) (l : list A) :
  (findIndex p l = -1 /\ forall x, x ∈ l -> p x = false)
  \/ (exists x, 0 <= findIndex p l
        /\ l !! Z.to_nat (findIndex p l) = Some x /\ p x = true).
Proof.
  induction l as [|y l IH]; simpl.
  - left. split; [done|]. intros x Hx. by apply elem_of_nil in Hx.
  - destruct (p y) eqn:Hy.
    + right. exists y. by repeat split.
    + destruct IH as [[-> Hall]|(x & H0 & Hx & Hp)].
      * left. split; [done|]. intros x [->|Hx]%elem_of_cons; [done|by apply Hall].
      * right. destruct (Z.eqb_spec (findIndex p l) (-1)) as [He|_]; [lia|].
        exists x. split; [lia|]. split; [|done].
        by replace (Z.to_nat (findIndex p l + 1)) with (S (Z.to_nat (findIndex p l)))
          by lia.
Qed.

Lemma append_cons (a : Ascii.ascii) (s t : string) :
  String a s +:+ t = String a (s +:+ t).
Proof. reflexivity. Qed.

Lemma append_empty_l (t : string) : "" +:+ t = t.
Proof. reflexivity. Qed.

Lemma prefix_spec (s1 s2 : string) :
  String.prefix s1 s2 = true <-> exists post, s2 = s1 +:+ post.
Proof.
  revert s2. induction s1 as [|a s1 IH]; intros s2.
  - split; [intros _; by exists s2|]. intros _. by destruct s2.
  - destruct s2 as [|b s2]; simpl.
    + split; [done|]. by intros [post Hp].
    + destruct (Ascii.ascii_dec a b) as [->|Hab].
      * rewrite IH. split; intros [post Hp]; exists post;
          rewrite append_cons in *; congruence.
      * split; [done|]. intros [post Hp]. rewrite append_cons in Hp. congruence.
Qed.

Lemma includes_empty (sub : string) : includes "" sub = String.prefix sub "" || false.
Proof. reflexivity. Qed.

Lemma includes_cons (a : Ascii.ascii) (s sub : string) :
  includes (String a s) sub = String.prefix sub (String a s) || includes s sub.
Proof. reflexivity. Qed.

(** [includes] is containment as a contiguous part. *)
Lemma includes_spec (s sub : string) :
  includes s sub = true <-> exists pre post, s = pre +:+ sub +:+ post.
Proof.
  induction s as [|a s IH].
  - rewrite includes_empty, orb_false_r, prefix_spec. split.
    + intros [post Hp]. by exists "", post.
    + intros (pre & post & Hp). destruct pre; [by exists post|done].
  - rewrite includes_cons, orb_true_iff, prefix_spec, IH. split.
    + intros [[post Hp]|(pre & post & Hp)].
      * by exists "", post.
      * exists (String a pre), post. by rewrite append_cons, Hp.
    + intros (pre & post & Hp). destruct pre as [|b pre].
      * left. by exists post.
      * right. exists pre, post. rewrite append_cons in Hp. congruence.
Qed.

Lemma includes_refl (s : string) : includes s s = true.
Proof.
  apply includes_spec. exists "", "". rewrite append_empty_l.
  induction s as [|a s IH]; [done|]. rewrite append_cons. congruence.
Qed.

Lemma monthNames_lookup (i : nat) (name : string) :
  monthNames !! i = Some name ->
  (i < 12)%nat /\ getThaiMonthName (Z.of_nat i + 1) = name.
Proof.
  intros Hi.
  do 12 (destruct i as [|i];
         [inversion Hi; subst; split; [lia | by vm_compute]|]).
  done.
Qed.

Lemma getMonthIndex_of_month_name (m : Z) :
  1 <= m <= 12 -> getMonthIndexFromThaiName (getThaiMonthName m) = m.
Proof.
  intros Hm.
  assert (Hcases : m = 1 \/ m = 2 \/ m = 3 \/ m = 4 \/ m = 5 \/ m = 6 \/ m = 7
                   \/ m = 8 \/ m = 9 \/ m = 10 \/ m = 11 \/ m = 12) by lia.
  repeat (destruct Hcases as [->|Hcases]; [by vm_compute|]). subst.
  by vm_compute.
Qed.

(** X15. [getMonthIndexFromThaiName] inverts [getThaiMonthName] on the
    months 1..12.  On any string its result is -1 or a month number
    1..12, and a month number is returned only for a string that contains
    that month's name or is contained in it. *)
Theorem month_index_inverts_month_name :
  (forall m, 1 <= m <= 12 -> getMonthIndexFromThaiName (getThaiMonthName m) = m)
  /\ (forall name,
        let r := getMonthIndexFromThaiName name in
        r = -1
        \/ (1 <= r <= 12
            /\ (includes name (getThaiMonthName r)
                || includes (getThaiMonthName r) name = true))).
Proof.
  split; [exact getMonthIndex_of_month_name|].
  intros name r. subst r. unfold getMonthIndexFromThaiName.
    set (i := findIndex (fun m => bool_decide (m = name)) monthNames).
    set (j := findIndex (fun m => includes name m || includes m name) monthNames).
    destruct (findIndex_spec (fun m => bool_decide (m = name)) monthNames)
      as [[Hi _]|(x & H0 & Hx & Hp)]; fold i in Hi || fold i in H0, Hx.
    + rewrite Hi. change (negb (-1 =? -1)) with false. cbv iota.
      destruct (findIndex_spec
                  (fun m => includes name m || includes m name) monthNames)
        as [[Hj _]|(x & H0 & Hx & Hp)]; fold j in Hj || fold j in H0, Hx.
      * rewrite Hj. by left.
      * right. destruct (Z.eqb_spec j (-1)) as [He|_]; [lia|].
        cbv [negb]. apply monthNames_lookup in Hx as [Hlt Hx].
        rewrite Z2Nat.id in Hx by done. rewrite Hx. split; [lia|done].
    + right. destruct (Z.eqb_spec i (-1)) as [He|_]; [lia|].
      cbv [negb]. apply monthNames_lookup in Hx as [Hlt Hx].
      rewrite Z2Nat.id in Hx by done. rewrite Hx. split; [lia|].
      apply bool_decide_eq_true_1 in Hp. rewrite Hp.
      by rewrite includes_refl.
Qed.

Lemma month_index_inverts_month_name_witness :
  getMonthIndexFromThaiName (getThaiMonthName 4) = 4.
Proof. apply (proj1 month_index_inverts_month_name 4). lia. Defined.

Lemma recordMonths_lookup (acc : gmap Z SeasonType) (season : SeasonData)
    (l : list Z) (k : Z) :
  months season = getThaiMonthName <$> l ->
  Forall (fun i => 1 <= i <= 12) l ->
  recordMonths acc season !! k
  = if decide (k ∈ l) then Some (type season) else acc !! k.
Proof.
  intros Hm Hl. unfold recordMonths. rewrite Hm. clear Hm.
  revert acc. induction Hl as [|i l Hi Hl IH]; intros acc.
  - by destruct (decide (k ∈ [])) as [H%elem_of_nil|].
  - cbn [fmap list_fmap fold_left].
    change (list_fmap _ _ getThaiMonthName l) with (getThaiMonthName <$> l).
    rewrite IH.
    rewrite (getMonthIndex_of_month_name i Hi).
    destruct (Z.eqb_spec i (-1)) as [?|_]; [lia|]. cbv [negb].
    destruct (decide (k ∈ l)) as [Hk|Hk].
    + by rewrite decide_True by (by right).
    + destruct (decide (k = i)) as [->|Hne].
      * rewrite lookup_insert_eq. by rewrite decide_True by (by left).
      * rewrite lookup_insert_ne by done.
        rewrite decide_False; [done|]. by intros [?|?]%elem_of_cons.
Qed.

(** X16. The season badge of a date agrees with the classifier: on the
    classifier output, [getSeasonForDate] reads the month names back into
    month numbers and gives every date the label of its month, Normal
    when the month has none. *)
Theorem getSeasonForDate_agrees_with_classifier
    (pricePercentileMap weatherData holidayData : gmap string Q)
    (flightPrices : list FlightPrice) (date : Date) :
  1 <= month date <= 12 ->
  getSeasonForDate date
    (calculateSeasonsFromFlightPricesWithDemand pricePercentileMap weatherData
       holidayData flightPrices)
  = seasonOrNormal pricePercentileMap weatherData holidayData flightPrices
      (month date).
Proof.
  intros Hm. unfold getSeasonForDate.
  destruct (calculateSeasons_cases pricePercentileMap weatherData holidayData
              flightPrices) as [[He ->]|[_ ->]].
  - unfold seasonOrNormal.
    by rewrite monthSeasonMap_lookup, monthSeasonScores_lookup, He.
  - set (b := buildSeason pricePercentileMap weatherData holidayData flightPrices).
    set (sm := seasonMonths pricePercentileMap weatherData holidayData flightPrices).
    assert (Hrange : forall s, Forall (fun i => 1 <= i <= 12) (sm s)).
    { intros s. apply Forall_forall. intros i Hi.
      by apply elem_of_seasonMonths in Hi as [Hi _]. }
    cbn [fold_left].
    rewrite (recordMonths_lookup _ (b high) (sm high)) by done.
    rewrite (recordMonths_lookup _ (b normal) (sm normal)) by done.
    rewrite (recordMonths_lookup _ (b low) (sm low)) by done.
    subst sm. cbn [b buildSeason type].
    repeat case_decide;
      repeat match goal with
             | H : _ ∈ seasonMonths _ _ _ _ _ |- _ =>
                 apply elem_of_seasonMonths in H as [_ H]
             | H : ¬ (_ ∈ seasonMonths _ _ _ _ _) |- _ =>
                 rewrite elem_of_seasonMonths in H
             end; simpl; try congruence.
    destruct (seasonOrNormal pricePercentileMap weatherData holidayData
                flightPrices (month date)) eqn:Hs; tauto.
Qed.

Lemma getSeasonForDate_agrees_with_classifier_witness :
  getSeasonForDate (mkDate 2026 2 14)
    (calculateSeasonsFromFlightPricesWithDemand ∅ ∅ ∅ Examples.januaryOnly)
  = seasonOrNormal ∅ ∅ ∅ Examples.januaryOnly 2.
Proof.
  apply (getSeasonForDate_agrees_with_classifier ∅ ∅ ∅ Examples.januaryOnly
           (mkDate 2026 2 14)).
  simpl. lia.
Defined.

Lemma getPriceForDate_matching (flightPrices : list FlightPrice) (date : Date)
    (tripType : TripType) :
  getPriceForDate flightPrices date tripType
  = match matchingFlights flightPrices date tripType with
    | [] => 0%Q
    | first :: rest =>
        price (fold_left (fun best current =>
                            if ltb (price current) (price best) then current else best)
                 rest first)
    end.
Proof.
  unfold getPriceForDate, matchingFlights.
  destruct (Nat.eqb_spec (length flightPrices) 0) as [H0|H0]; [|done].
  apply length_zero_iff_nil in H0. by subst.
Qed.

(** X12. The price and the airline shown for a date come from one row:
    the cheapest stored row of that date and trip type.
    [getPriceForDate] gives its price and [getAirlineForDate] its airline
    (the Thai name, else the English one, else none); without such a row
    the price is 0 and there is no airline. *)
Theorem date_price_and_airline_from_cheapest_row
    (flightPrices : list FlightPrice) (date : Date) (tripType : TripType) :
  let matching := matchingFlights flightPrices date tripType in
  (matching = [] ->
     getPriceForDate flightPrices date tripType = 0%Q
     /\ getAirlineForDate flightPrices date tripType = None)
  /\ (matching <> [] ->
      exists fp,
        fp ∈ matching
        /\ (forall fp', fp' ∈ matching -> (price fp <= price fp')%Q)
        /\ getPriceForDate flightPrices date tripType = price fp
        /\ getAirlineForDate flightPrices date tripType
           = let name := strOr (airline_name_th fp) (airline_name fp) in
             if decide (name = "") then None else Some name).
Proof.
  intros matching. rewrite getPriceForDate_matching. unfold getAirlineForDate.
  fold matching. destruct matching as [|first rest].
  - split; [done|]. by intros [].
  - split; [done|]. intros _.
    destruct (fold_cheapest_spec price first rest) as [Hin Hmin].
    eexists. split; [exact Hin|]. by repeat split.
Qed.

Lemma date_price_and_airline_from_cheapest_row_witness :
  getPriceForDate Examples.threeMonths (mkDate 2026 4 1) round_trip = 0%Q
  /\ getAirlineForDate Examples.threeMonths (mkDate 2026 4 1) round_trip = None.
Proof.
  apply (proj1 (date_price_and_airline_from_cheapest_row Examples.threeMonths
                  (mkDate 2026 4 1) round_trip)).
  by vm_compute.
Defined.

Lemma getPriceForDate_nonneg (flightPrices : list FlightPrice) (date : Date)
    (tripType : TripType) :
  (forall fp, fp ∈ flightPrices -> (0 <= price fp)%Q) ->
  (0 <= getPriceForDate flightPrices date tripType)%Q.
Proof.
  intros Hpos. rewrite getPriceForDate_matching.
  destruct (matchingFlights flightPrices date tripType) as [|first rest] eqn:Hm.
  - apply Qle_refl.
  - destruct (fold_cheapest_spec price first rest) as [Hin _].
    apply Hpos. rewrite <- Hm in Hin. unfold matchingFlights in Hin.
    by apply list_elem_of_filter in Hin as [_ Hin].
Qed.

Lemma getPriceForDate_no_rows (flightPrices : list FlightPrice) (date : Date)
    (tripType : TripType) :
  matchingFlights flightPrices date tripType = [] ->
  getPriceForDate flightPrices date tripType = 0%Q.
Proof. intros Hm. by rewrite getPriceForDate_matching, Hm. Qed.

Lemma round_percentage_ge (d b : Q) :
  (0 < b)%Q -> (- b <= d)%Q -> -100 <= Js.round (d / b * 100)%Q.
Proof.
  intros Hb Hd. change (-100) with (Js.round (-100)). apply round_mono.
  apply Qle_trans with ((- b) / b * 100)%Q.
  - assert (Heq : ((- b) / b * 100 == -100)%Q) by (field; lra).
    rewrite Heq. apply Qle_refl.
  - apply Qmult_le_compat_r; [|done].
    apply Qle_shift_div_l; [done|].
    assert (Heq : ((- b) / b * b == - b)%Q) by (field; lra).
    by rewrite Heq.
Qed.

Lemma differences_percentages_ge (basePrice beforePrice afterPrice : Q) :
  (0 <= basePrice)%Q -> (0 <= beforePrice)%Q -> (0 <= afterPrice)%Q ->
  let '(_, beforePercentage, _, afterPercentage) :=
    differences basePrice beforePrice afterPrice in
  -100 <= beforePercentage /\ -100 <= afterPercentage.
Proof.
  intros H0 H1 H2. unfold differences.
  destruct (ltb 0 basePrice) eqn:Hb.
  { apply ltb_lt in Hb. split; apply round_percentage_ge; lra. }
  destruct (ltb 0 beforePrice) eqn:Hbe; destruct (ltb 0 afterPrice) eqn:Ha;
    cbn [andb]; try (split; lia).
  apply ltb_lt in Hbe, Ha.
  assert (Havg : (0 < (beforePrice + afterPrice) / 2)%Q).
  { apply Qlt_shift_div_l; lra. }
  assert (Hhalf : ((beforePrice + afterPrice) / 2
                   == (1 # 2) * beforePrice + (1 # 2) * afterPrice)%Q) by (field; lra).
  split; (apply round_percentage_ge; [done|]); rewrite Hhalf; lra.
Qed.

(** X17. When no stored price is negative, neither percentage of the
    before/after comparison is below -100. *)
Theorem comparison_percentages_at_least_minus_100
    (flightPrices : list FlightPrice) (baseStartDate : Date) (avgDuration : Q)
    (tripType : TripType) (passengers : Passengers) :
  (forall fp, fp ∈ flightPrices -> (0 <= price fp)%Q) ->
  let c := calculatePriceComparison flightPrices baseStartDate avgDuration
             tripType passengers in
  -100 <= side_percentage (ifGoBefore c)
  /\ -100 <= side_percentage (ifGoAfter c).
Proof.
  intros Hpos c. subst c. unfold calculatePriceComparison.
  pose proof (differences_percentages_ge
                (getPriceForDate flightPrices baseStartDate tripType)
                (getPriceForDate flightPrices
                   (addDays baseStartDate (- PRICE_COMPARISON_DAYS)) tripType)
                (getPriceForDate flightPrices
                   (addDays baseStartDate PRICE_COMPARISON_DAYS) tripType)
                (getPriceForDate_nonneg _ _ _ Hpos)
                (getPriceForDate_nonneg _ _ _ Hpos)
                (getPriceForDate_nonneg _ _ _ Hpos)) as Hd.
  cbv zeta. by destruct (differences _ _ _) as [[[bd bp] ad] ap].
Qed.

Lemma comparison_percentages_at_least_minus_100_witness :
  -100 <= side_percentage
            (ifGoBefore (calculatePriceComparison Examples.threeMonths
                           (mkDate 2026 2 3) 3 round_trip Examples.oneAdult)).
Proof.
  refine (proj1 (comparison_percentages_at_least_minus_100 Examples.threeMonths
                   (mkDate 2026 2 3) 3 round_trip Examples.oneAdult _)).
  intros fp Hfp. unfold Examples.threeMonths in Hfp.
  repeat (apply elem_of_cons in Hfp as [->|Hfp]; [by vm_compute|]).
  by apply elem_of_nil in Hfp.
Defined.

(** X18. A neighbouring date without flight rows counts as price 0 in the
    comparison: when the base date has a positive price and the date
    seven days before (after) has no row of the trip type, that side
    shows price 0, the difference round(-base price) and the percentage
    -100. *)
Theorem comparison_missing_neighbour_is_minus_100
    (flightPrices : list FlightPrice) (baseStartDate : Date) (avgDuration : Q)
    (tripType : TripType) (passengers : Passengers) :
  (0 < getPriceForDate flightPrices baseStartDate tripType)%Q ->
  let base := getPriceForDate flightPrices baseStartDate tripType in
  let c := calculatePriceComparison flightPrices baseStartDate avgDuration
             tripType passengers in
  (matchingFlights flightPrices (addDays baseStartDate (-7)) tripType = [] ->
     side_price (ifGoBefore c) = 0
     /\ side_difference (ifGoBefore c) = Js.round (- base)
     /\ side_percentage (ifGoBefore c) = -100)
  /\ (matchingFlights flightPrices (addDays baseStartDate 7) tripType = [] ->
     side_price (ifGoAfter c) = 0
     /\ side_difference (ifGoAfter c) = Js.round (- base)
     /\ side_percentage (ifGoAfter c) = -100).
Proof.
  intros Hbase base c. subst c. unfold calculatePriceComparison, differences.
  fold base. change PRICE_COMPARISON_DAYS with 7.
  change (Z.opp 7) with (Z.neg 7).
  assert (Hlt : ltb 0 base = true) by (by apply ltb_lt).
  rewrite Hlt. cbv zeta. cbn [ifGoBefore ifGoAfter side_price side_difference
                                side_percentage].
  assert (Hpct : Js.round ((0 - base) / base * 100)%Q = -100).
  { rewrite (round_comp _ (-100)); [done|]. field. subst base. lra. }
  assert (Hdiff : Js.round (0 - base)%Q = Js.round (- base)%Q).
  { apply round_comp. ring. }
  assert (Hzero : Js.round (calculatePriceWithDiscounts 0 passengers) = 0).
  { rewrite (round_comp _ 0); [done|]. by apply calculatePriceWithDiscounts_zero. }
  split; intros Hnone; rewrite (getPriceForDate_no_rows _ _ _ Hnone); done.
Qed.

Lemma comparison_missing_neighbour_is_minus_100_witness :
  side_percentage
    (ifGoBefore (calculatePriceComparison Examples.threeMonths
                   (mkDate 2026 2 3) 3 round_trip Examples.oneAdult)) = -100.
Proof.
  assert (Hbase : (0 < getPriceForDate Examples.threeMonths (mkDate 2026 2 3)
                         round_trip)%Q) by (by vm_compute).
  assert (Hnone : matchingFlights Examples.threeMonths
                    (addDays (mkDate 2026 2 3) (-7)) round_trip = [])
    by (by vm_compute).
  exact (proj2 (proj2 (proj1 (comparison_missing_neighbour_is_minus_100
                                Examples.threeMonths (mkDate 2026 2 3) 3
                                round_trip Examples.oneAdult Hbase) Hnone))).
Defined.

End ComparisonFacts.

(* ===================================================================== *)
(** ** Price prediction                                                   *)
(* ===================================================================== *)

Section CalendarFacts.
Import Calendar Model Prediction.

Lemma leapsBefore_succ (y : Z) :
  leapsBefore (y + 1) = leapsBefore y + (if isLeapYear y then 1 else 0).
Proof.
  unfold leapsBefore, isLeapYear.
  replace (y + 1 - 1) with y by lia.
  destruct (Z.eqb_spec (y mod 4) 0), (Z.eqb_spec (y mod 100) 0),
    (Z.eqb_spec (y mod 400) 0); cbn [andb orb negb];
    Z.to_euclidean_division_equations; lia.
Qed.

Lemma month_cases (m : Z) :
  1 <= m <= 12 ->
  m = 1 \/ m = 2 \/ m = 3 \/ m = 4 \/ m = 5 \/ m = 6 \/ m = 7 \/ m = 8 \/ m = 9
  \/ m = 10 \/ m = 11 \/ m = 12.
Proof. lia. Qed.

Lemma daysBeforeMonth_succ (y m : Z) :
  1 <= m < 12 ->
  daysBeforeMonth y (m + 1) = daysBeforeMonth y m + daysInMonth y m.
Proof.
  intros Hm. unfold daysBeforeMonth, daysInMonth.
  assert (Hc : 1 <= m <= 12) by lia. apply month_cases in Hc.
  repeat (destruct Hc as [->|Hc]; [cbn; by destruct (isLeapYear y)|]).
  lia.
Qed.

Lemma daysBeforeMonth_december (y : Z) :
  daysBeforeMonth y 12 + 31 = 365 + (if isLeapYear y then 1 else 0).
Proof. unfold daysBeforeMonth. cbn. by destruct (isLeapYear y). Qed.

Lemma daysInMonth_range (y m : Z) : 28 <= daysInMonth y m <= 31.
Proof.
  unfold daysInMonth.
  destruct (m =? 2); [destruct (isLeapYear y); lia|].
  destruct ((m =? 4) || (m =? 6) || (m =? 9) || (m =? 11)); lia.
Qed.

(** The model's calendar is consistent: the next day of a date of the
    calendar is a date of the calendar, one day later. *)
Lemma dayNumber_nextDay (d : Date) :
  validDate d ->
  validDate (nextDay d) /\ dayNumber (nextDay d) = dayNumber d + 1.
Proof.
  intros [Hm Hd]. unfold nextDay.
  destruct (Z.ltb_spec (day d) (daysInMonth (year d) (month d))) as [Hlt|Hge].
  - split; [split; simpl; lia|]. unfold dayNumber. simpl. lia.
  - assert (Hday : day d = daysInMonth (year d) (month d)) by lia.
    destruct (Z.ltb_spec (month d) 12) as [Hlt|Hge'].
    + split.
      * split; simpl; [lia|].
        pose proof (daysInMonth_range (year d) (month d + 1)). lia.
      * unfold dayNumber. simpl.
        rewrite daysBeforeMonth_succ by lia. lia.
    + assert (Hmonth : month d = 12) by lia.
      split; [split; simpl; [lia|by vm_compute]|].
      unfold dayNumber. simpl. rewrite leapsBefore_succ.
      pose proof (daysBeforeMonth_december (year d)) as Hdec.
      rewrite Hmonth in *. change (daysInMonth (year d) 12) with 31 in Hday.
      change (daysBeforeMonth (year d + 1) 1) with
        (0 + (if isLeapYear (year d + 1) && false then 1 else 0)).
      rewrite andb_false_r. lia.
Qed.

Lemma dayNumber_iter (d : Date) (n : nat) :
  validDate d ->
  validDate (Nat.iter n nextDay d)
  /\ dayNumber (Nat.iter n nextDay d) = dayNumber d + Z.of_nat n.
Proof.
  intros Hd. induction n as [|n [IHv IHn]]; [split; [done|simpl; lia]|].
  change (Nat.iter (S n) nextDay d) with (nextDay (Nat.iter n nextDay d)).
  destruct (dayNumber_nextDay _ IHv) as [Hv Hn].
  split; [done|]. rewrite Hn, IHn. lia.
Qed.

End CalendarFacts.

Section HolidayFacts.
Import Calendar Model Prediction.

Lemma daysBeforeMonth_range (y m : Z) :
  1 <= m <= 12 -> 0 <= daysBeforeMonth y m <= 335.
Proof.
  intros Hm. unfold daysBeforeMonth. apply month_cases in Hm.
  repeat (destruct Hm as [->|Hm]; [destruct (isLeapYear y); simpl; lia|]).
  subst. destruct (isLeapYear y); simpl; lia.
Qed.

Lemma dayNumber_year_bounds (d : Date) :
  validDate d ->
  dayNumber (mkDate (year d) 1 1) <= dayNumber d
  /\ dayNumber d < dayNumber (mkDate (year d + 1) 1 1).
Proof.
  intros [Hm Hd]. unfold dayNumber. cbn [year month day].
  rewrite leapsBefore_succ.
  change (daysBeforeMonth (year d) 1) with
    (0 + (if isLeapYear (year d) && false then 1 else 0)).
  change (daysBeforeMonth (year d + 1) 1) with
    (0 + (if isLeapYear (year d + 1) && false then 1 else 0)).
  rewrite !andb_false_r.
  assert (Hb : 0 <= daysBeforeMonth (year d) (month d)
               /\ daysBeforeMonth (year d) (month d) + day d
                  <= 365 + (if isLeapYear (year d) then 1 else 0)).
  { unfold daysBeforeMonth, daysInMonth in *. apply month_cases in Hm.
    repeat (destruct Hm as [Hm|Hm];
            [rewrite Hm in *; destruct (isLeapYear (year d)); simpl in *; lia|]).
    rewrite Hm in *; destruct (isLeapYear (year d)); simpl in *; lia. }
  destruct (isLeapYear (year d)); lia.
Qed.

Lemma dayNumber_jan1_mono (y1 y2 : Z) :
  y1 <= y2 ->
  dayNumber (mkDate y1 1 1) + 365 * (y2 - y1) <= dayNumber (mkDate y2 1 1).
Proof.
  intros Hy. unfold dayNumber, leapsBefore. cbn [year month day].
  change (daysBeforeMonth y1 1) with (0 + (if isLeapYear y1 && false then 1 else 0)).
  change (daysBeforeMonth y2 1) with (0 + (if isLeapYear y2 && false then 1 else 0)).
  rewrite !andb_false_r. Z.to_euclidean_division_equations. lia.
Qed.

Lemma find_period_None_other_years (d : Date) :
  year d < 2026 \/ 2026 < year d ->
  List.find (fun period => isoLeb (p_start period) d && isoLeb d (p_end period))
    HIGH_SEASON_PERIODS = None.
Proof.
  intros Hy. unfold HIGH_SEASON_PERIODS, isoLeb. cbn [List.find p_start p_end year].
  destruct Hy as [Hy|Hy].
  - destruct (Z.ltb_spec 2026 (year d)) as [?|_]; [lia|].
    destruct (Z.eqb_spec 2026 (year d)) as [?|_]; [lia|]. done.
  - destruct (Z.ltb_spec (year d) 2026) as [?|_]; [lia|].
    destruct (Z.eqb_spec (year d) 2026) as [?|_]; [lia|].
    cbn [orb andb]. by rewrite !andb_false_r.
Qed.

(** X19. The holiday multiplier is one of 1, 1.2, 1.3, 1.4 and 1.5; it is
    above 1 on every listed holiday; and the tables speak of 2026 only:
    for any date of a year before 2025 or after 2027 the multiplier is 1. *)
Theorem holiday_multiplier_values (date : Date) :
  let m := getHolidayMultiplier date in
  (m = 1 \/ m = 1.2 \/ m = 1.3 \/ m = 1.4 \/ m = 1.5)%Q
  /\ (date ∈ THAI_HOLIDAYS_2026 -> (1 < m)%Q)
  /\ (validDate date -> year date < 2025 \/ 2027 < year date -> m = 1%Q).
Proof.
  intros m. subst m. split; [|split].
  - unfold getHolidayMultiplier, HIGH_SEASON_PERIODS. cbn [List.find].
    repeat match goal with
           | |- context [if ?b then Some _ else _] => destruct b
           end; cbn [multiplier]; try tauto.
    destruct (existsb _ _); tauto.
  - intros Hin. unfold THAI_HOLIDAYS_2026 in Hin.
    repeat (apply elem_of_cons in Hin as [->|Hin]; [by vm_compute|]).
    by apply elem_of_nil in Hin.
  - intros Hv Hy. unfold getHolidayMultiplier.
    rewrite find_period_None_other_years by lia.
    destruct (dayNumber_year_bounds date Hv) as [Hlo Hhi].
    assert (Hfar : dayNumber date < dayNumber (mkDate 2025 1 1)
                   \/ dayNumber (mkDate 2028 1 1) <= dayNumber date).
    { destruct Hy as [Hy|Hy].
      - left. pose proof (dayNumber_jan1_mono (year date + 1) 2025). lia.
      - right. pose proof (dayNumber_jan1_mono 2028 (year date)). lia. }
    change (dayNumber (mkDate 2025 1 1)) with 20089 in Hfar.
    change (dayNumber (mkDate 2028 1 1)) with 21184 in Hfar.
    assert (Hnone : existsb (fun holiday =>
                               Z.abs (dayNumber date - dayNumber holiday) <=? 3)
                      THAI_HOLIDAYS_2026 = false).
    { apply not_true_is_false. intros Hex.
      apply existsb_exists in Hex as (h & Hh & Hclose).
      apply Z.leb_le in Hclose. apply list_elem_of_In in Hh.
      unfold THAI_HOLIDAYS_2026 in Hh.
      repeat (apply elem_of_cons in Hh as [->|Hh];
              [revert Hclose;
               match goal with
               | |- context [dayNumber (mkDate ?y ?mo ?da)] =>
                   let v := eval vm_compute in (dayNumber (mkDate y mo da)) in
                   change (dayNumber (mkDate y mo da)) with v
               end; lia|]).
      by apply elem_of_nil in Hh. }
    by rewrite Hnone.
Qed.

Lemma holiday_multiplier_values_witness :
  getHolidayMultiplier (mkDate 2030 4 13) = 1%Q.
Proof.
  assert (Hv : validDate (mkDate 2030 4 13)) by (by vm_compute).
  assert (Hy : year (mkDate 2030 4 13) < 2025 \/ 2027 < year (mkDate 2030 4 13))
    by (right; simpl; lia).
  exact (proj2 (proj2 (holiday_multiplier_values (mkDate 2030 4 13))) Hv Hy).
Defined.

Lemma getHolidayMultiplier_ge_1 (date : Date) : (1 <= getHolidayMultiplier date)%Q.
Proof.
  unfold getHolidayMultiplier, HIGH_SEASON_PERIODS. cbn [List.find].
  repeat match goal with
         | |- context [if ?b then Some _ else _] => destruct b
         end; cbn [multiplier]; try done.
  destruct (existsb _ _); done.
Qed.

End HolidayFacts.


Section PredictFacts.
Import Calendar Model Prediction.

Lemma round_inject_Z (z : Z) : Js.round (inject_Z z) = z.
Proof.
  unfold Js.round. apply Z.le_antisymm.
  - apply Z.lt_succ_r. rewrite Zlt_Qlt.
    eapply Qle_lt_trans; [apply Qfloor_le|].
    unfold Z.succ. rewrite inject_Z_plus. change (inject_Z 1) with 1%Q. lra.
  - rewrite <- (Qfloor_Z z) at 1. apply Qfloor_resp_le. lra.
Qed.

Lemma round_nonneg (x : Q) : (0 <= x)%Q -> 0 <= Js.round x.
Proof. intros Hx. change 0 with (Js.round 0). by apply round_mono. Qed.

(** Scaling a non-negative whole price: below by a factor of at most 1,
    above by a factor of at least 1. *)
Lemma round_scale_le (p : Z) (f : Q) :
  0 <= p -> (0 <= f)%Q -> (f <= 1)%Q ->
  0 <= Js.round (inject_Z p * f)%Q <= p.
Proof.
  intros Hp H0 H1. rewrite Zle_Qle in Hp. change (inject_Z 0) with 0%Q in Hp.
  split.
  - apply round_nonneg. set (q := inject_Z p) in *. clearbody q. nra.
  - rewrite <- (round_inject_Z p) at 2. apply round_mono.
    set (q := inject_Z p) in *. clearbody q. nra.
Qed.

Lemma round_scale_ge (p : Z) (f : Q) :
  0 <= p -> (1 <= f)%Q -> p <= Js.round (inject_Z p * f)%Q.
Proof.
  intros Hp H1. rewrite Zle_Qle in Hp. change (inject_Z 0) with 0%Q in Hp.
  rewrite <- (round_inject_Z p) at 1. apply round_mono.
  set (q := inject_Z p) in *. clearbody q. nra.
Qed.

Lemma rangePercent_range (c : Confidence) :
  (0 < rangePercent c)%Q /\ (rangePercent c < 1)%Q.
Proof. by destruct c. Qed.

Lemma predictPrice_Some (predict : list Q -> option Q) (today targetDate : Date)
    (prediction : Q) :
  predict (prepareFeatures targetDate (daysUntil today targetDate)) = Some prediction ->
  exists r,
    predictPrice (Some predict) today targetDate = Some r
    /\ Z.max 0 (Js.round prediction) <= predictedPrice r
    /\ 0 <= minPrice r <= predictedPrice r
    /\ predictedPrice r <= maxPrice r
    /\ confidence r = confidenceOf (daysUntil today targetDate).
Proof.
  intros Hpredict. unfold predictPrice. rewrite Hpredict.
  eexists. split; [reflexivity|].
  cbn [predictedPrice minPrice maxPrice confidence].
  set (p0 := Z.max 0 (Js.round _)).
  set (m := getHolidayMultiplier targetDate).
  set (p := if ltb 1 m then _ else _).
  assert (Hp0 : 0 <= p0) by (subst p0; lia).
  assert (Hm : (1 <= m)%Q) by apply getHolidayMultiplier_ge_1.
  assert (Hp : p0 <= p).
  { subst p. destruct (ltb 1 m); [|lia]. by apply round_scale_ge. }
  destruct (rangePercent_range (confidenceOf (daysUntil today targetDate)))
    as [Hr0 Hr1].
  split; [done|]. split; [|split; [|done]].
  - apply round_scale_le; [lia|lra..].
  - apply round_scale_ge; [lia|lra].
Qed.

Lemma predictPrice_throws (predict : list Q -> option Q) (today targetDate : Date) :
  predict (prepareFeatures targetDate (daysUntil today targetDate)) = None ->
  predictPrice (Some predict) today targetDate = None.
Proof. intros Hpredict. unfold predictPrice. by rewrite Hpredict. Qed.

Lemma predictPrice_ordered (model : option (list Q -> option Q))
    (today targetDate : Date) (r : PredictionResult) :
  predictPrice model today targetDate = Some r ->
  0 <= minPrice r <= predictedPrice r /\ predictedPrice r <= maxPrice r.
Proof.
  destruct model as [predict|]; [|done].
  destruct (predict (prepareFeatures targetDate (daysUntil today targetDate)))
    as [prediction|] eqn:Hpredict.
  - destruct (predictPrice_Some predict today targetDate prediction Hpredict)
      as (r' & -> & _ & Hmin & Hmax & _).
    by intros [= <-].
  - by rewrite predictPrice_throws.
Qed.

(** X20. [predictPrice] answers null when there is no model and when the
    model's predict call throws.  When the call returns a number, the
    answer's numbers are ordered: 0 <= minPrice <= predictedPrice <=
    maxPrice.  The holiday multiplier never lowers the price the model
    gave (cut at 0 and rounded), and the confidence depends on the days
    until departure alone: high up to 30 days, medium up to 60, low
    beyond. *)
Theorem predictPrice_bands_ordered (model : option (list Q -> option Q))
    (today targetDate : Date) :
  match model with
  | None => predictPrice model today targetDate = None
  | Some predict =>
      match predict (prepareFeatures targetDate (daysUntil today targetDate)) with
      | None => predictPrice model today targetDate = None
      | Some prediction =>
          exists r,
            predictPrice model today targetDate = Some r
            /\ Z.max 0 (Js.round prediction) <= predictedPrice r
            /\ 0 <= minPrice r <= predictedPrice r
            /\ predictedPrice r <= maxPrice r
            /\ confidence r
               = (if daysUntil today targetDate <=? 30 then conf_high
                  else if daysUntil today targetDate <=? 60 then conf_medium
                  else conf_low)
      end
  end.
Proof.
  destruct model as [predict|]; [|done].
  destruct (predict _) as [prediction|] eqn:Hpredict.
  - by apply predictPrice_Some.
  - by apply predictPrice_throws.
Qed.

Lemma percent_gt (d c k : Q) :
  (0 < c)%Q -> (k < d / c * 100)%Q <-> (k * c < 100 * d)%Q.
Proof.
  intros Hc.
  assert (Heq : (100 * d == d / c * 100 * c)%Q) by (field; lra).
  rewrite Heq. set (y := (d / c * 100)%Q). clearbody y. split; intros H; nra.
Qed.

Lemma percent_lt (d c k : Q) :
  (0 < c)%Q -> (d / c * 100 < k)%Q <-> (100 * d < k * c)%Q.
Proof.
  intros Hc.
  assert (Heq : (100 * d == d / c * 100 * c)%Q) by (field; lra).
  rewrite Heq. set (y := (d / c * 100)%Q). clearbody y. split; intros H; nra.
Qed.

Lemma trend_of_predictions (model : option (list Q -> option Q))
    (today futureDate : Date) (rc rf : PredictionResult) :
  predictPrice model today today = Some rc ->
  predictPrice model today futureDate = Some rf ->
  exists t,
    getPriceTrend model today futureDate = Some t
    /\ let c := currentAvgPrice t in
       let f := futureAvgPrice t in
       0 <= c /\ 0 <= f
       /\ (0 < c ->
           (trend t = increasing <-> 5 * c < 100 * (f - c))
           /\ (trend t = decreasing <-> 100 * (f - c) < -5 * c))
       /\ (c = 0 ->
           (trend t = increasing <-> 0 < f)
           /\ (trend t = stable <-> f = 0)
           /\ forall q, changePercent t <> Finite q).
Proof.
  intros Hrc Hrf.
  pose proof (predictPrice_ordered _ _ _ _ Hrc) as [Hc _].
  pose proof (predictPrice_ordered _ _ _ _ Hrf) as [Hf _].
  unfold getPriceTrend. rewrite Hrc, Hrf.
  eexists. split; [reflexivity|].
  cbn [currentAvgPrice futureAvgPrice trend changePercent].
  set (c := predictedPrice rc) in *. set (f := predictedPrice rf) in *.
  clearbody c f. split; [lia|]. split; [lia|]. unfold percentOf. split.
  - intros Hpos.
    assert (HcQ : (0 < inject_Z c)%Q)
      by (change 0%Q with (inject_Z 0); by rewrite <- Zlt_Qlt).
    destruct (Qeq_bool (inject_Z c) 0) eqn:Hz.
    { apply Qeq_bool_eq in Hz. lra. }
    cbn [gtNum ltNum].
    rewrite !Zlt_Qlt. unfold Z.sub.
    rewrite !inject_Z_mult, !inject_Z_plus, !inject_Z_opp.
    change (inject_Z f + - inject_Z c)%Q with (inject_Z f - inject_Z c)%Q.
    change (inject_Z 5) with 5%Q. change (inject_Z (-5)) with (-5)%Q.
    change (inject_Z 100) with 100%Q.
    rewrite <- (percent_gt _ _ 5 HcQ), <- (percent_lt _ _ (-5) HcQ).
    set (x := ((inject_Z f - inject_Z c) / inject_Z c * 100)%Q). clearbody x.
    destruct (ltb 5 x) eqn:H5.
    { apply ltb_lt in H5. split; split; try done; intros; lra. }
    apply ltb_ge in H5.
    destruct (ltb x (-5)) eqn:Hm5.
    { apply ltb_lt in Hm5. split; split; try done; intros; lra. }
    apply ltb_ge in Hm5. split; split; try done; intros; lra.
  - intros ->. change (Qeq_bool (inject_Z 0) 0) with true. cbv iota.
    assert (HfQ : (inject_Z f - inject_Z 0 == inject_Z f)%Q)
      by (change (inject_Z 0) with 0%Q; ring).
    destruct (ltb 0 (inject_Z f - inject_Z 0)) eqn:Hpos.
    { apply ltb_lt in Hpos. rewrite HfQ in Hpos.
      change 0%Q with (inject_Z 0) in Hpos. rewrite <- Zlt_Qlt in Hpos.
      cbn. split; [tauto|]. split; [split; [done|lia]|done]. }
    apply ltb_ge in Hpos. rewrite HfQ in Hpos.
    change 0%Q with (inject_Z 0) in Hpos. rewrite <- Zle_Qle in Hpos.
    assert (f = 0) by lia. subst f. cbn.
    split; [split; [done|lia]|]. split; [done|done].
Qed.

(** X21. The trend compares the two predicted prices; it is there
    whenever the model's two predict calls, for today and for the future
    date, return a number, and null when one of them throws.  With a
    positive current price c and future price f it is increasing exactly
    when f - c is more than 5% of c, decreasing exactly when f - c is
    less than -5% of c, stable otherwise.  With current price 0 the
    change is not a finite number: the trend is increasing when f > 0 and
    stable when f = 0, never decreasing. *)
Theorem price_trend_thresholds (predict : list Q -> option Q)
    (today futureDate : Date) :
  let current := predict (prepareFeatures today (daysUntil today today)) in
  let future := predict (prepareFeatures futureDate (daysUntil today futureDate)) in
  (is_Some current -> is_Some future ->
   exists t,
     getPriceTrend (Some predict) today futureDate = Some t
     /\ let c := currentAvgPrice t in
        let f := futureAvgPrice t in
        0 <= c /\ 0 <= f
        /\ (0 < c ->
            (trend t = increasing <-> 5 * c < 100 * (f - c))
            /\ (trend t = decreasing <-> 100 * (f - c) < -5 * c))
        /\ (c = 0 ->
            (trend t = increasing <-> 0 < f)
            /\ (trend t = stable <-> f = 0)
            /\ forall q, changePercent t <> Finite q))
  /\ (current = None \/ future = None ->
      getPriceTrend (Some predict) today futureDate = None).
Proof.
  intros current future. split.
  - intros [pc Hpc] [pf Hpf].
    destruct (predictPrice_Some predict today today pc Hpc) as (rc & Hrc & _).
    destruct (predictPrice_Some predict today futureDate pf Hpf) as (rf & Hrf & _).
    by apply (trend_of_predictions _ _ _ rc rf).
  - unfold getPriceTrend. intros [Hnone|Hnone].
    + by rewrite (predictPrice_throws _ _ _ Hnone).
    + rewrite (predictPrice_throws _ _ _ Hnone).
      by destruct (predictPrice (Some predict) today today).
Qed.

End PredictFacts.

Section PredictWitnesses.
Import Calendar Model Prediction.

(** A model that answers 3000 for every row of features, asked on 1 April
    2026 for 13 April (multiplier 1.5, twelve days ahead): the price is at
    least 3000 and the band is ordered around it. *)
Lemma predictPrice_bands_ordered_witness :
  exists r,
    predictPrice (Some (fun _ => Some 3000%Q)) (mkDate 2026 4 1) (mkDate 2026 4 13)
    = Some r
    /\ 3000 <= predictedPrice r
    /\ 0 <= minPrice r <= predictedPrice r
    /\ predictedPrice r <= maxPrice r
    /\ confidence r = conf_high.
Proof.
  pose proof (predictPrice_bands_ordered (Some (fun _ => Some 3000%Q))
                (mkDate 2026 4 1) (mkDate 2026 4 13)) as H.
  cbv beta iota in H. destruct H as (r & Hr & Hp & Hmin & Hmax & Hconf).
  exists r. split; [exact Hr|]. split; [exact Hp|]. split; [exact Hmin|].
  split; [exact Hmax|]. rewrite Hconf. by vm_compute.
Defined.

(** The same model asked on 10 March 2026 for the trend up to 13 April:
    the price goes from 3000 to 4500, more than 5% up. *)
Lemma price_trend_thresholds_witness :
  exists t,
    getPriceTrend (Some (fun _ => Some 3000%Q)) (mkDate 2026 3 10) (mkDate 2026 4 13)
    = Some t
    /\ trend t = increasing.
Proof.
  destruct (proj1 (price_trend_thresholds (fun _ => Some 3000%Q)
                     (mkDate 2026 3 10) (mkDate 2026 4 13)))
    as (t & Ht & _ & _ & Hpos & _); [by eexists..|].
  exists t. split; [exact Ht|].
  vm_compute in Ht. injection Ht as <-.
  apply Hpos; by vm_compute.
Defined.

End PredictWitnesses.


Section FoldFacts.
Import Calendar Model Prediction.
Context {A : Type}.

Lemma foldSize_fits (features : list A) (k fold : nat) :
  (fold < k)%nat ->
  (fold * foldSize features k + foldSize features k <= length features)%nat.
Proof.
  intros Hf. unfold foldSize.
  pose proof (Nat.Div0.mul_div_le (length features) k) as Hle.
  set (fs := (length features / k)%nat) in *. clearbody fs. nia.
Qed.

Lemma testFolds_concat (features : list A) (k j : nat) :
  mjoin (testFold features k <$> seq 0 j) = take (j * foldSize features k) features.
Proof.
  induction j as [|j IH]; [done|].
  rewrite seq_S, fmap_app, join_app, IH. cbn [fmap list_fmap mjoin list_join].
  rewrite app_nil_r. unfold testFold, slice. cbn [Nat.add].
  replace (j * foldSize features k + foldSize features k - j * foldSize features k)%nat
    with (foldSize features k) by lia.
  rewrite take_take_drop. f_equal. lia.
Qed.

(** X22. Each round of the K-fold loop splits the samples: the test part
    has floor(n / k) samples, the training part the other n - floor(n / k),
    and the two together are the samples again.  Over the k rounds the
    test parts are the consecutive blocks of the first k * floor(n / k)
    samples, so the last n mod k samples are never tested. *)
Theorem kfold_split_partitions (features : list A) (k fold : nat) :
  (fold < k)%nat ->
  length (testFold features k fold) = foldSize features k
  /\ length (trainFold features k fold)
     = (length features - foldSize features k)%nat
  /\ trainFold features k fold ++ testFold features k fold ≡ₚ features
  /\ mjoin (testFold features k <$> seq 0 k)
     = take (length features - length features mod k) features.
Proof.
  intros Hf. pose proof (foldSize_fits features k fold Hf) as Hfit.
  assert (Hall : mjoin (testFold features k <$> seq 0 k)
                 = take (length features - length features mod k) features).
  { rewrite testFolds_concat. f_equal. unfold foldSize.
    pose proof (Nat.div_mod_eq (length features) k). lia. }
  unfold testFold, trainFold, slice in *.
  set (fs := foldSize features k) in *.
  replace (fold * fs + fs - fold * fs)%nat with fs by lia.
  replace (fold * fs - 0)%nat with (fold * fs)%nat by lia.
  rewrite drop_0. split; [|split; [|split; [|done]]].
  - rewrite length_take, length_drop. lia.
  - rewrite length_app, length_take, length_drop. lia.
  - rewrite <- (take_drop (fold * fs) features) at 4.
    rewrite <- (take_drop fs (drop (fold * fs) features)) at 2.
    rewrite drop_drop.
    rewrite <- app_assoc. apply Permutation_app_head, Permutation_app_comm.
Qed.

End FoldFacts.

Section FoldWitness.
Import Prediction.

Lemma kfold_split_partitions_witness :
  length (testFold [1; 2; 3; 4; 5; 6; 7; 8; 9; 10; 11] 5 4) = 2%nat.
Proof.
  apply (proj1 (kfold_split_partitions [1; 2; 3; 4; 5; 6; 7; 8; 9; 10; 11] 5 4
                  ltac:(lia))).
Defined.

End FoldWitness.

Section GraphFacts.
Import Calendar Model Prediction.

Variable model : option (list Q -> option Q).
Variable today : Date.

Lemma band_of_typical (typical : Z) :
  0 <= typical ->
  0 <= Js.round (inject_Z typical * 0.85)%Q <= typical
  /\ typical <= Js.round (inject_Z typical * 1.3)%Q.
Proof.
  intros Ht. split; [by apply round_scale_le|by apply round_scale_ge].
Qed.

Lemma fold_Qplus_nonneg (l : list Q) (a : Q) :
  (0 <= a)%Q -> Forall (fun x => (0 <= x)%Q) l -> (0 <= fold_left Qplus l a)%Q.
Proof.
  intros Ha Hl. revert a Ha. induction Hl as [|x l Hx Hl IH]; intros a Ha; [done|].
  simpl. apply IH. lra.
Qed.

Lemma avgHistoricalPrice_nonneg (rows : list (Date * Q)) :
  (forall row, row ∈ rows -> (0 <= row.2)%Q) ->
  (0 <= avgHistoricalPrice rows)%Q.
Proof.
  intros Hrows. unfold avgHistoricalPrice. destruct rows as [|row rows]; [done|].
  apply Qle_shift_div_l.
  - change 0%Q with (inject_Z 0). rewrite <- Zlt_Qlt. simpl. lia.
  - rewrite Qmult_0_l. apply fold_Qplus_nonneg; [done|].
    apply Forall_fmap, Forall_forall. intros r Hr. by apply Hrows.
Qed.

Lemma actualPoint_ordered (row : Date * Q) :
  (0 <= row.2)%Q -> bandOrdered (actualPoint row).
Proof.
  intros Hrow. unfold bandOrdered, actualPoint. cbn [point_low point_typical point_high].
  apply band_of_typical. by apply round_nonneg.
Qed.

Lemma predictedPoint_ordered (rows : list (Date * Q)) (predictionDate : Date) :
  (forall row, row ∈ rows -> (0 <= row.2)%Q) ->
  bandOrdered (predictedPoint model today rows predictionDate).
Proof.
  intros Hrows. unfold bandOrdered, predictedPoint.
  destruct (predictPrice model today predictionDate) as [r|] eqn:Hr.
  - destruct (predictPrice_ordered _ _ _ _ Hr) as [Hmin _].
    cbn [point_low point_typical point_high]. split; [done|].
    apply round_scale_ge; [lia|done].
  - cbn [point_low point_typical point_high].
    apply band_of_typical, round_nonneg.
    pose proof (avgHistoricalPrice_nonneg rows Hrows) as Havg.
    pose proof (getHolidayMultiplier_ge_1 predictionDate) as Hm.
    set (a := avgHistoricalPrice rows) in *.
    set (m := getHolidayMultiplier predictionDate) in *.
    assert (Hd : (0 < (if (getDay predictionDate =? 0) || (getDay predictionDate =? 6)
                       then 1.05 else 1))%Q)
      by (by destruct ((getDay predictionDate =? 0) || (getDay predictionDate =? 6))).
    set (dm := (if (getDay predictionDate =? 0) || (getDay predictionDate =? 6)
                then 1.05 else 1)%Q) in *.
    assert (Hv : (0 < 0.92 + inject_Z ((day predictionDate
                                        + (month predictionDate - 1) * 31) mod 17)
                        / 100)%Q).
    { assert (H17 : 0 <= (day predictionDate + (month predictionDate - 1) * 31) mod 17)
        by (apply Z.mod_pos_bound; lia).
      rewrite Zle_Qle in H17. change (inject_Z 0) with 0%Q in H17.
      set (h := inject_Z _) in *. clearbody h.
      assert (Hdiv : (h / 100 == h * (1 # 100))%Q) by (field; lra).
      rewrite Hdiv. lra. }
    set (v := (0.92 + _)%Q) in *. clearbody a m dm v.
    assert (H1 : (0 <= a * m)%Q) by nra.
    assert (H2 : (0 <= a * m * dm)%Q) by nra.
    nra.
Qed.

(** X23. Every point of the price graph has an ordered band when the
    historical averages are not negative: 0 <= low <= typical <= high,
    for the actual points, the points predicted by the model and the
    fallback points computed from the historical average alike. *)
Theorem graph_bands_ordered (rows : list (Date * Q)) (startPredictionDate : Date)
    (predictionDays : nat) (p : GraphPoint) :
  (forall row, row ∈ rows -> (0 <= row.2)%Q) ->
  p ∈ generateGraphData model today rows startPredictionDate predictionDays ->
  0 <= point_low p <= point_typical p /\ point_typical p <= point_high p.
Proof.
  intros Hrows. unfold generateGraphData.
  assert (Hinit : Forall bandOrdered (actualPoint <$> rows)).
  { apply Forall_fmap, Forall_forall. intros row Hrow.
    by apply actualPoint_ordered, Hrows. }
  revert Hinit. generalize (actualPoint <$> rows) as graphData.
  induction (seq 0 predictionDays) as [|day days IH]; intros graphData Hall Hp.
  - by apply (proj1 (Forall_forall _ _) Hall).
  - cbn [fold_left] in Hp. apply IH in Hp; [done|].
    unfold graphStep. destruct (existsb _ graphData); [done|].
    apply Forall_app. split; [done|]. apply Forall_singleton.
    by apply predictedPoint_ordered.
Qed.

Lemma existsb_date (graphData : list GraphPoint) (date : Date) :
  existsb (fun d => bool_decide (point_date d = date)) graphData = true
  <-> date ∈ point_date <$> graphData.
Proof.
  rewrite existsb_exists, list_elem_of_fmap. split.
  - intros (p & Hp & Heq). apply bool_decide_eq_true_1 in Heq.
    exists p. split; [done|]. by apply list_elem_of_In.
  - intros (p & -> & Hp). exists p. split; [by apply list_elem_of_In|].
    by apply bool_decide_eq_true_2.
Qed.

Lemma graphStep_inv (rows : list (Date * Q)) (startPredictionDate : Date)
    (graphData : list GraphPoint) (day : nat) :
  graphInv rows graphData ->
  graphInv rows (graphStep model today rows startPredictionDate graphData day)
  /\ Nat.iter day nextDay startPredictionDate
     ∈ point_date <$> graphStep model today rows startPredictionDate graphData day
  /\ (forall date, date ∈ point_date <$> graphData ->
        date ∈ point_date
               <$> graphStep model today rows startPredictionDate graphData day).
Proof.
  intros (Hnd & Hact & Hflag). unfold graphStep.
  set (date := Nat.iter day nextDay startPredictionDate).
  destruct (existsb _ graphData) eqn:Hex.
  - apply existsb_date in Hex. by repeat split.
  - assert (Hnew : date ∉ point_date <$> graphData).
    { intros Hin. apply existsb_date in Hin. congruence. }
    assert (Hdate : point_date (predictedPoint model today rows date) = date).
    { unfold predictedPoint. by destruct (predictPrice model today date). }
    assert (Hpred : isActual (predictedPoint model today rows date) = false).
    { unfold predictedPoint. by destruct (predictPrice model today date). }
    split; [split; [|split]|split].
    + rewrite fmap_app. apply NoDup_app. split; [done|]. split.
      * intros d Hd Hd'. cbn in Hd'. apply list_elem_of_singleton in Hd'.
        rewrite Hdate in Hd'. by subst.
      * cbn. apply NoDup_singleton.
    + intros row Hrow. apply elem_of_app. left. by apply Hact.
    + intros p [Hp|Hp]%elem_of_app; [by apply Hflag|].
      apply list_elem_of_singleton in Hp. subst p. rewrite Hpred, Hdate.
      intros Hin. apply Hnew.
      apply list_elem_of_fmap in Hin as (row & Heq & Hrow).
      apply list_elem_of_fmap. exists (actualPoint row). split; [done|].
      by apply Hact.
    + rewrite fmap_app. apply elem_of_app. right. cbn.
      rewrite Hdate. apply list_elem_of_singleton. done.
    + intros d Hd. rewrite fmap_app. apply elem_of_app. by left.
Qed.

(** X24. The graph has one point per date.  When the historical rows have
    distinct dates (the query groups by date), no two points of the graph
    share a date; every actual row is kept and wins over a prediction for
    its date (a predicted point never has the date of an actual row); and
    each of the [predictionDays] days from the start date on has its
    point. *)
Theorem graph_one_point_per_date (rows : list (Date * Q))
    (startPredictionDate : Date) (predictionDays : nat) :
  NoDup rows.*1 ->
  let out := generateGraphData model today rows startPredictionDate predictionDays in
  NoDup (point_date <$> out)
  /\ (forall row, row ∈ rows -> actualPoint row ∈ out)
  /\ (forall p, p ∈ out -> isActual p = false -> point_date p ∉ rows.*1)
  /\ (forall i, (i < predictionDays)%nat ->
        Nat.iter i nextDay startPredictionDate ∈ point_date <$> out).
Proof.
  intros Hnd out. subst out. unfold generateGraphData.
  assert (Hinit : graphInv rows (actualPoint <$> rows)).
  { split; [|split].
    - rewrite <- list_fmap_compose.
      by replace (point_date ∘ actualPoint) with (@fst Date Q) by done.
    - intros row Hrow. apply list_elem_of_fmap. by exists row.
    - intros p (row & -> & Hrow)%list_elem_of_fmap. cbn. by exists row. }
  assert (Hgen : forall days graphData,
             graphInv rows graphData ->
             let out := fold_left (graphStep model today rows startPredictionDate)
                          days graphData in
             graphInv rows out
             /\ (forall date, date ∈ point_date <$> graphData ->
                   date ∈ point_date <$> out)
             /\ (forall i, i ∈ days ->
                   Nat.iter i nextDay startPredictionDate ∈ point_date <$> out)).
  { induction days as [|day days IH]; intros graphData Hinv; cbn [fold_left].
    - split; [done|]. split; [done|]. intros i Hi. by apply elem_of_nil in Hi.
    - destruct (graphStep_inv rows startPredictionDate graphData day Hinv)
        as (Hinv' & Hday & Hkeep).
      destruct (IH _ Hinv') as (Hout & Hkeep' & Hall).
      split; [done|]. split; [by intros d Hd; apply Hkeep', Hkeep|].
      intros i [->|Hi]%elem_of_cons; [by apply Hkeep'|by apply Hall]. }
  destruct (Hgen (seq 0 predictionDays) _ Hinit) as ((Hnd' & Hact & Hflag) & _ & Hall).
  split; [done|]. split; [done|]. split.
  - intros p Hp Hfalse. specialize (Hflag p Hp). by rewrite Hfalse in Hflag.
  - intros i Hi. apply Hall. apply elem_of_seq. lia.
Qed.

End GraphFacts.

Section GraphWitnesses.
Import Calendar Model Prediction.

Lemma graph_bands_ordered_witness :
  let p := actualPoint (mkDate 2026 4 11, 3200%Q) in
  0 <= point_low p <= point_typical p /\ point_typical p <= point_high p.
Proof.
  intros p. subst p.
  apply (graph_bands_ordered None (mkDate 2026 4 10)
           [(mkDate 2026 4 11, 3200%Q)] (mkDate 2026 4 11) 3).
  - intros row Hrow. apply list_elem_of_singleton in Hrow. by subst.
  - apply list_elem_of_lookup_2 with 0%nat. by vm_compute.
Defined.

Lemma graph_one_point_per_date_witness :
  NoDup (point_date
           <$> generateGraphData None (mkDate 2026 4 10)
                 [(mkDate 2026 4 11, 3200%Q)] (mkDate 2026 4 11) 3).
Proof.
  assert (Hnd : NoDup [(mkDate 2026 4 11, 3200%Q)].*1) by (cbn; apply NoDup_singleton).
  exact (proj1 (graph_one_point_per_date None (mkDate 2026 4 10)
                  [(mkDate 2026 4 11, 3200%Q)] (mkDate 2026 4 11) 3 Hnd)).
Defined.

End GraphWitnesses.

(* ===================================================================== *)
(** ** Holiday service                                                    *)
(* ===================================================================== *)

Section HolidayBoostFacts.
Import Calendar Model Comparison Prediction HolidayBoost.

Lemma leapsBefore_pred (y : Z) :
  leapsBefore y = leapsBefore (y - 1) + (if isLeapYear (y - 1) then 1 else 0).
Proof.
  rewrite <- leapsBefore_succ. f_equal. lia.
Qed.

(** The day before a date of the calendar is a date of the calendar, one
    day earlier. *)
Lemma dayNumber_prevDay (d : Date) :
  validDate d ->
  validDate (prevDay d) /\ dayNumber (prevDay d) = dayNumber d - 1.
Proof.
  intros [Hm Hd]. unfold prevDay.
  destruct (Z.ltb_spec 1 (day d)) as [Hlt|Hge].
  - split; [split; simpl; lia|]. unfold dayNumber. simpl. lia.
  - assert (Hday : day d = 1) by lia.
    destruct (Z.ltb_spec 1 (month d)) as [Hlt|Hge'].
    + pose proof (daysInMonth_range (year d) (month d - 1)) as Hr.
      split; [split; simpl; lia|].
      unfold dayNumber. simpl.
      pose proof (daysBeforeMonth_succ (year d) (month d - 1) ltac:(lia)) as Hs.
      replace (month d - 1 + 1) with (month d) in Hs by lia. lia.
    + assert (Hmonth : month d = 1) by lia.
      split; [by vm_compute|].
      unfold dayNumber. simpl. rewrite (leapsBefore_pred (year d)).
      pose proof (daysBeforeMonth_december (year d - 1)) as Hdec.
      rewrite Hmonth.
      change (daysBeforeMonth (year d) 1) with
        (0 + (if isLeapYear (year d) && false then 1 else 0)).
      rewrite andb_false_r. lia.
Qed.

Lemma getDay_range (d : Date) : 0 <= getDay d < 7.
Proof. unfold getDay. apply Z.mod_pos_bound. lia. Qed.

Lemma getDay_prevDay (d : Date) :
  validDate d -> getDay (prevDay d) = (getDay d + 6) mod 7.
Proof.
  intros Hv. destruct (dayNumber_prevDay d Hv) as [_ Hp].
  unfold getDay. rewrite Hp. Z.to_euclidean_division_equations. lia.
Qed.

Lemma getDay_nextDay (d : Date) :
  validDate d -> getDay (nextDay d) = (getDay d + 1) mod 7.
Proof.
  intros Hv. destruct (dayNumber_nextDay d Hv) as [_ Hn].
  unfold getDay. rewrite Hn. Z.to_euclidean_division_equations. lia.
Qed.

Lemma isLongWeekend_readings (date : JsDate) :
  validDate (localDate date) ->
  isLongWeekend date = true
  <-> (getDay (utcDate date) = 5 \/ getDay (utcDate date) = 1)
      \/ (getDay (localDate date) = 5 \/ getDay (localDate date) = 6
          \/ getDay (localDate date) = 0 \/ getDay (localDate date) = 1).
Proof.
  intros Hv. unfold isLongWeekend, isWeekend, addDays, getUTCDay, Comparison.addDays.
  cbn [localDate utcDate].
  change (0 <=? -1) with false. change (0 <=? 1) with true. cbv iota.
  change (Nat.iter (Z.to_nat (- -1)) prevDay (localDate date))
    with (prevDay (localDate date)).
  change (Nat.iter (Z.to_nat 1) nextDay (localDate date))
    with (nextDay (localDate date)).
  rewrite (getDay_prevDay _ Hv), (getDay_nextDay _ Hv).
  pose proof (getDay_range (localDate date)) as Hr.
  pose proof (getDay_range (utcDate date)) as Hu.
  set (w := getDay (localDate date)) in *. set (u := getDay (utcDate date)) in *.
  clearbody w u.
  assert (Hw : w = 0 \/ w = 1 \/ w = 2 \/ w = 3 \/ w = 4 \/ w = 5 \/ w = 6) by lia.
  assert (Hu' : u = 0 \/ u = 1 \/ u = 2 \/ u = 3 \/ u = 4 \/ u = 5 \/ u = 6) by lia.
  clear Hr Hu.
  repeat (destruct Hw as [->|Hw]);
    repeat (destruct Hu' as [->|Hu']); subst;
    vm_compute; intuition congruence.
Qed.

(** X25. [isLongWeekend] reads the weekday of its date twice: in UTC for
    the Friday and Monday tests, and in the time zone of the process for
    the test of the neighbouring days, which holds on a local Friday
    (next day Saturday), Saturday, Sunday and Monday (previous day
    Sunday).  A date is a long weekend exactly when its UTC weekday is
    Friday or Monday or its local weekday is Friday to Monday.  For a
    holiday date parsed at local midnight this is Friday to Monday in a
    process at UTC or west of it, and Friday to Tuesday in a process
    east of UTC, where the UTC reading is that of the day before. *)
Theorem isLongWeekend_weekdays (date : JsDate) (d : Date) :
  validDate (localDate date) -> validDate d ->
  (isLongWeekend date = true
   <-> (getDay (utcDate date) = 5 \/ getDay (utcDate date) = 1)
       \/ (getDay (localDate date) = 5 \/ getDay (localDate date) = 6
           \/ getDay (localDate date) = 0 \/ getDay (localDate date) = 1))
  /\ (isLongWeekend (parseISO utcOrWest d) = true
      <-> getDay d = 5 \/ getDay d = 6 \/ getDay d = 0 \/ getDay d = 1)
  /\ (isLongWeekend (parseISO eastOfUTC d) = true
      <-> getDay d = 5 \/ getDay d = 6 \/ getDay d = 0 \/ getDay d = 1
          \/ getDay d = 2).
Proof.
  intros Hv Hd. split; [by apply isLongWeekend_readings|].
  pose proof (getDay_range d) as Hr.
  split.
  - rewrite isLongWeekend_readings by done. cbn [parseISO utcDate localDate]. lia.
  - rewrite isLongWeekend_readings by done. cbn [parseISO utcDate localDate].
    rewrite (getDay_prevDay d Hd). revert Hr. generalize (getDay d). intros w Hr.
    assert (Hw : w = 0 \/ w = 1 \/ w = 2 \/ w = 3 \/ w = 4 \/ w = 5 \/ w = 6) by lia.
    clear Hr. repeat (destruct Hw as [->|Hw]); subst; vm_compute; intuition congruence.
Qed.

(** Tuesday 5 May 2026, parsed in a process east of UTC, is a long
    weekend: its UTC reading is Monday 4 May. *)
Lemma isLongWeekend_weekdays_witness :
  getDay (mkDate 2026 5 5) = 2
  /\ isLongWeekend (parseISO eastOfUTC (mkDate 2026 5 5)) = true
  /\ isLongWeekend (parseISO utcOrWest (mkDate 2026 5 5)) = false.
Proof.
  assert (Hv : validDate (mkDate 2026 5 5)) by (by vm_compute).
  destruct (isLongWeekend_weekdays (parseISO utcOrWest (mkDate 2026 5 5))
              (mkDate 2026 5 5) Hv Hv) as (_ & Hwest & Heast).
  split; [by vm_compute|]. split.
  - apply Heast. do 4 right. by vm_compute.
  - destruct (isLongWeekend (parseISO utcOrWest (mkDate 2026 5 5))) eqn:Hl; [|done].
    exfalso. destruct (proj1 Hwest eq_refl) as [H|[H|[H|H]]]; by vm_compute in H.
Defined.

Variable toLowerCase : string -> string.
Variable zone : TimeZone.

Lemma categories_partition (holidays : list Holiday) :
  (length (inCategory toLowerCase majorFestival holidays)
   + length (inCategory toLowerCase importantHoliday holidays)
   + length (inCategory toLowerCase regularHoliday holidays)
   + length (filter (fun holiday =>
                       categoryOf toLowerCase holiday = specialDay
                       \/ categoryOf toLowerCase holiday = byDefault) holidays))%nat
  = length holidays.
Proof.
  unfold inCategory. induction holidays as [|h holidays IH]; [done|].
  rewrite !filter_cons.
  destruct (categoryOf toLowerCase h) eqn:Hc;
    repeat case_decide; try congruence; try (intuition congruence);
    cbn [length]; lia.
Qed.

Lemma calculateHolidayBoost_bounds (holidays : list Holiday) :
  50 <= calculateHolidayBoost toLowerCase zone holidays <= 100
  /\ Z.min 100 (50 + 5 * Z.of_nat (length holidays))
     <= calculateHolidayBoost toLowerCase zone holidays.
Proof.
  unfold calculateHolidayBoost.
  destruct (Nat.eqb_spec (length holidays) 0) as [H0|H0]; [rewrite H0; simpl; lia|].
  pose proof (categories_partition holidays) as Hpart.
  set (a := length (inCategory toLowerCase majorFestival holidays)) in *.
  set (b := length (inCategory toLowerCase importantHoliday holidays)) in *.
  set (c := length (inCategory toLowerCase regularHoliday holidays)) in *.
  set (e := length (filter _ holidays)) in Hpart |- *.
  set (lw := length (filter (fun holiday =>
                               let holidayDate := parseISO zone (h_date holiday) in
                               isLongWeekend holidayDate = true)
                       holidays)).
  clearbody a b c e lw.
  destruct holidays as [|h rest]; [done|].
  cbv zeta.
  destruct ((getUTCMonth1 (parseISO zone (h_date h)) =? 12)
            || (getUTCMonth1 (parseISO zone (h_date h)) =? 1)
            || (getUTCMonth1 (parseISO zone (h_date h)) =? 4)); lia.
Qed.

(** X26. The holiday score of a month lies between 50 and 100 (so inside
    the 0..100 range of the scores the classifier reads), it is 50 for a
    month without holidays, and every holiday adds at least 5 points
    until the cap: the score is at least min(100, 50 + 5 n) for n
    holidays. *)
Theorem calculateHolidayBoost_range (holidays : list Holiday) :
  let score := calculateHolidayBoost toLowerCase zone holidays in
  50 <= score <= 100
  /\ Season.inRange (inject_Z score)
  /\ (holidays = [] -> score = 50)
  /\ Z.min 100 (50 + 5 * Z.of_nat (length holidays)) <= score.
Proof.
  intros score. subst score.
  destruct (calculateHolidayBoost_bounds holidays) as [Hr Hn].
  split; [done|]. split; [|split; [by intros ->|done]].
  unfold Season.inRange. change 0%Q with (inject_Z 0).
  change 100%Q with (inject_Z 100). rewrite <- !Zle_Qle. lia.
Qed.

(** X27. The last [else] of the classification loop is dead code: every
    holiday falls into one of the four named categories before it.  A
    holiday that is not a public holiday is a major festival or a special
    day, never an important or a regular holiday. *)
Theorem holiday_categories_exhaustive (holiday : Holiday) :
  categoryOf toLowerCase holiday <> byDefault
  /\ (isPublicHoliday holiday = false ->
      categoryOf toLowerCase holiday = majorFestival
      \/ categoryOf toLowerCase holiday = specialDay).
Proof.
  unfold categoryOf, isImportantHoliday, isSpecialDay.
  destruct (isMajorFestival toLowerCase holiday) eqn:Hmajor.
  { split; [done|]. by left. }
  destruct (isPublicHoliday holiday) eqn:Hpub; cbn [negb andb].
  - split; [|done].
    destruct (_ || _ || _ || _ || _ || _); [done|].
    rewrite orb_false_r. by destruct (includes _ _).
  - rewrite orb_true_r. split; [done|]. by right.
Qed.

End HolidayBoostFacts.

Section HolidayBoostWitness.
Import Calendar Model HolidayBoost.

Lemma holiday_categories_exhaustive_witness :
  categoryOf id (mkHoliday (mkDate 2026 2 14) "วันวาเลนไทน์" false) = majorFestival
  \/ categoryOf id (mkHoliday (mkDate 2026 2 14) "วันวาเลนไทน์" false) = specialDay.
Proof.
  apply (proj2 (holiday_categories_exhaustive id
                  (mkHoliday (mkDate 2026 2 14) "วันวาเลนไทน์" false))).
  reflexivity.
Defined.

Lemma calculateHolidayBoost_range_witness :
  calculateHolidayBoost id eastOfUTC [] = 50.
Proof.
  apply (proj1 (proj2 (proj2 (calculateHolidayBoost_range id eastOfUTC [])))).
  reflexivity.
Defined.

(** The score depends on the side of UTC the process runs on.  Labour
    Day, Friday 1 May 2026, alone in its month: 8 points as a regular
    public holiday and 5 as a long weekend give 63 at UTC; east of UTC
    the parsed date reads 30 April in UTC, and the bonus of the peak
    month April makes it 83.  East of UTC the holiday is also listed
    under month 4, not 5. *)
Lemma calculateHolidayBoost_zone_example :
  let labourDay := mkHoliday (mkDate 2026 5 1) "วันแรงงานแห่งชาติ" true in
  calculateHolidayBoost id utcOrWest [labourDay] = 63
  /\ calculateHolidayBoost id eastOfUTC [labourDay] = 83
  /\ getHolidaysForMonth utcOrWest [labourDay] 5 = [labourDay]
  /\ getHolidaysForMonth eastOfUTC [labourDay] 5 = []
  /\ getHolidaysForMonth eastOfUTC [labourDay] 4 = [labourDay].
Proof. repeat split; by vm_compute. Qed.

End HolidayBoostWitness.

(* ===================================================================== *)
(** ** Weather scores and the weather table                               *)
(* ===================================================================== *)

Section WeatherScoreFacts.
Import Model Season Scores.

Ltac q_case :=
  match goal with
  | |- context [ltb ?a ?b] =>
      let H := fresh "H" in
      destruct (ltb a b) eqn:H; [apply ltb_lt in H | apply ltb_ge in H]
  | |- context [leb ?a ?b] =>
      let H := fresh "H" in
      destruct (leb a b) eqn:H; [apply leb_le in H | apply leb_gt in H]
  end.

Ltac eval_score :=
  match goal with
  | |- context [clampScore ?x] =>
      let v := eval vm_compute in (clampScore x) in
      change (clampScore x) with v
  end.

(** X28. The monthly weather score is 100 exactly when the temperature
    is within 20..28, the rain below 50 and the humidity within 50..70; it
    is 0 exactly when the temperature is below 20 or above 32, the rain
    above 200 and the humidity above 80; without a humidity value it stays
    within 15..85. *)
Theorem calculateWeatherScore_extremes (temp rain : Q) (humidity : option Q) :
  let score := calculateWeatherScore temp rain humidity in
  ((score == 100)%Q <->
     (20 <= temp)%Q /\ (temp <= 28)%Q /\ (rain < 50)%Q
     /\ exists h, humidity = Some h /\ (50 <= h)%Q /\ (h <= 70)%Q)
  /\ ((score == 0)%Q <->
        ((temp < 20)%Q \/ (32 < temp)%Q) /\ (200 < rain)%Q
        /\ exists h, humidity = Some h /\ (80 < h)%Q)
  /\ (humidity = None -> (15 <= score)%Q /\ (score <= 85)%Q).
Proof.
  intros score. subst score. unfold calculateWeatherScore, geb.
  change (Qle_bool 20 temp) with (leb 20 temp).
  destruct humidity as [h|];
    [change (Qle_bool 50 h) with (leb 50 h)|];
    repeat q_case; cbn [andb orb]; eval_score;
    (split; [|split]);
    try (intros [=]);
    try (split;
         [ intros Heq; try (exfalso; lra);
           repeat split; try lra; try (left; lra); try (right; lra);
           try (eexists; split; [reflexivity|]; split; lra);
           try (eexists; split; [reflexivity|]; lra)
         | intros Hall;
           repeat match goal with
                  | H : _ /\ _ |- _ => destruct H
                  | H : exists _, _ |- _ => destruct H
                  | H : Some _ = Some _ |- _ => injection H as <-
                  | H : None = Some _ |- _ => discriminate H
                  | H : _ \/ _ |- _ => destruct H
                  end; lra ]);
    try (split; lra).
Qed.

End WeatherScoreFacts.

Section WeatherTableFacts.
Import WeatherStore WeatherQueries.

Lemma wellFormed_empty : wellFormed emptyTable.
Proof.
  split; unfold emptyTable; cbn [rows]; intros * H; by rewrite lookup_empty in H.
Qed.

Lemma upsert_wellFormed (now : Z) (params : Params) (t : Table) :
  wellFormed t -> wellFormed (upsertDailyWeatherData now params t).1.
Proof.
  intros [Hkey Hid]. unfold upsertDailyWeatherData.
  set (key := (p_province params, p_date params)).
  set (row := match rows t !! key with Some old => _ | None => _ end).
  unfold wellFormed. cbn [fst rows next_id].
  assert (Hrow : (province row, date row) = key /\ id row < next_id t + 1
                 /\ forall key2 row2, rows t !! key2 = Some row2 ->
                      id row = id row2 -> key = key2).
  { subst row. destruct (rows t !! key) as [old|] eqn:Hold; cbn.
    - destruct (Hkey key old Hold) as [Hk Hlt]. split; [done|]. split; [lia|].
      intros key2 row2 H2 Heq. by apply (Hid key key2 old row2).
    - split; [done|]. split; [lia|]. intros key2 row2 H2 Heq.
      destruct (Hkey key2 row2 H2) as [_ Hlt]. lia. }
  destruct Hrow as (Hk & Hlt & Huniq). split.
  - intros key' row'. destruct (decide (key = key')) as [<-|Hne].
    + rewrite lookup_insert_eq. intros [= <-]. by split.
    + rewrite lookup_insert_ne by done. intros H'.
      destruct (Hkey key' row' H') as [Hk' Hlt']. split; [done|lia].
  - intros key1 key2 row1 row2.
    destruct (decide (key = key1)) as [<-|Hne1];
      destruct (decide (key = key2)) as [<-|Hne2];
      rewrite ?lookup_insert_eq, ?lookup_insert_ne by done.
    + done.
    + intros [= <-] H2 Heq. by apply (Huniq key2 row2).
    + intros H1 [= <-] Heq. symmetry. by apply (Huniq key1 row1).
    + apply Hid.
Qed.

Lemma upsert_count (now : Z) (params : Params) (t : Table) :
  getRecordCount (upsertDailyWeatherData now params t).1 None
  = if exists_ t (p_province params) (p_date params)
    then getRecordCount t None
    else S (getRecordCount t None).
Proof.
  unfold getRecordCount, exists_, upsertDailyWeatherData. cbn [fst rows].
  set (key := (p_province params, p_date params)).
  destruct (rows t !! key) as [old|] eqn:Hold.
  - rewrite bool_decide_eq_true_2 by done.
    by rewrite map_size_insert, Hold.
  - rewrite bool_decide_eq_false_2 by (by intros [? ?]).
    by rewrite map_size_insert, Hold.
Qed.

(** X29. The weather table stays well formed under upserts: every row
    sits under its own province and date, ids are below the counter and
    no two rows share an id.  After an upsert the row exists and is the
    one returned, and the number of rows grows by one exactly when the
    province and date were new. *)
Theorem upsert_keeps_table_well_formed (now : Z) (params : Params) (t : Table) :
  wellFormed t ->
  let t' := (upsertDailyWeatherData now params t).1 in
  wellFormed t'
  /\ exists_ t' (p_province params) (p_date params) = true
  /\ getDailyWeatherDataForDate t' (p_province params) (p_date params)
     = Some (upsertDailyWeatherData now params t).2
  /\ getRecordCount t' None
     = (if exists_ t (p_province params) (p_date params)
        then getRecordCount t None
        else S (getRecordCount t None)).
Proof.
  intros Hwf t'. subst t'. split; [by apply upsert_wellFormed|].
  split; [|split; [|apply upsert_count]].
  - unfold exists_, upsertDailyWeatherData. cbn [fst rows].
    apply bool_decide_eq_true_2. rewrite lookup_insert_eq. by eexists.
  - unfold getDailyWeatherDataForDate, upsertDailyWeatherData. cbn [fst snd rows].
    by rewrite lookup_insert_eq.
Qed.

Lemma upsert_keeps_table_well_formed_witness :
  wellFormed (upsertDailyWeatherData 10 Examples.historicalRow emptyTable).1.
Proof.
  apply (upsert_keeps_table_well_formed 10 Examples.historicalRow emptyTable).
  apply wellFormed_empty.
Defined.

End WeatherTableFacts.

(* ===================================================================== *)
(** ** CSV lines                                                          *)
(* ===================================================================== *)

Section CsvFacts.
Import Js Csv.

Lemma quoted_body (s tail current : JsString) (values : list JsString) :
  cellEnd tail ->
  parseLoop (escapeQuotes s ++ quote :: tail) current true values
  = parseLoop tail (current ++ s) false values.
Proof.
  intros Htail. revert current. induction s as [|c s IH]; intros current.
  - rewrite app_nil_r. cbn [escapeQuotes flat_map app parseLoop].
    change (quote =? quote) with true. cbv iota.
    destruct Htail as [->|[rest ->]]; [done|].
    change (comma =? quote) with false. by rewrite andb_false_r.
  - unfold escapeQuotes. cbn [flat_map]. fold (escapeQuotes s).
    replace (current ++ c :: s) with ((current ++ [c]) ++ s)
      by (by rewrite <- app_assoc).
    destruct (Z.eqb_spec c quote) as [->|Hc].
    + cbn [app parseLoop]. change (quote =? quote) with true. cbv iota.
      cbn [andb]. apply IH.
    + cbn [app parseLoop]. destruct (Z.eqb_spec c quote) as [?|_]; [done|].
      rewrite andb_false_r. apply IH.
Qed.

Lemma bare_body (s tail current : JsString) (values : list JsString) :
  plain s ->
  parseLoop (s ++ tail) current false values
  = parseLoop tail (current ++ s) false values.
Proof.
  intros Hs. revert current. induction Hs as [|c s [Hq Hc] Hs IH]; intros current.
  - by rewrite app_nil_r.
  - replace (current ++ c :: s) with ((current ++ [c]) ++ s)
      by (by rewrite <- app_assoc).
    cbn [app parseLoop].
    destruct (Z.eqb_spec c quote) as [?|_]; [done|].
    destruct (Z.eqb_spec c comma) as [?|_]; [done|].
    cbn [andb]. apply IH.
Qed.

Lemma cell_parse (c : Cell) (tail : JsString) (values : list JsString) :
  cellOk c -> cellEnd tail ->
  parseLoop (renderCell c ++ tail) [] false values
  = parseLoop tail (cellValue c) false values.
Proof.
  intros [_ Hc] Htail. destruct c as [s|s]; cbn [renderCell cellValue].
  - rewrite <- !app_assoc. cbn [app].
    pose proof (quoted_body s tail [] values Htail) as Hbody.
    cbn [parseLoop]. change (quote =? quote) with true. cbv iota.
    destruct (escapeQuotes s ++ quote :: tail) as [|n r] eqn:Hrest.
    + by destruct (escapeQuotes s).
    + cbn [andb negb]. exact Hbody.
  - by rewrite bare_body.
Qed.

Lemma cells_parse (cells : list Cell) (values : list JsString) :
  cells <> [] -> Forall cellOk cells ->
  parseLoop (joinComma (renderCell <$> cells)) [] false values
  = values ++ (cellValue <$> cells).
Proof.
  intros Hne Hall. revert values.
  induction Hall as [|c cells Hc Hall IH]; intros values; [done|].
  destruct cells as [|c' cells].
  - cbn [fmap list_fmap joinComma].
    rewrite <- (app_nil_r (renderCell c)).
    rewrite cell_parse by (done || by left).
    cbn [parseLoop]. by rewrite (proj1 (proj1 Hc)).
  - change (joinComma (renderCell <$> c :: c' :: cells))
      with (renderCell c ++ comma :: joinComma (renderCell <$> c' :: cells)).
    rewrite cell_parse by (done || (right; by eexists)).
    cbn [parseLoop]. change (comma =? quote) with false.
    change (comma =? comma) with true. cbn [andb negb]. cbv iota.
    rewrite IH by done. rewrite (proj1 (proj1 Hc)).
    by rewrite <- app_assoc.
Qed.

Lemma escapeQuotes_quoteFree (s : JsString) : quoteFree s -> escapeQuotes s = s.
Proof.
  intros Hs. induction Hs as [|c s Hc Hs IH]; [done|].
  unfold escapeQuotes. cbn [flat_map]. fold (escapeQuotes s). rewrite IH.
  by destruct (Z.eqb_spec c quote).
Qed.

(** X30. A line of the holiday CSV reads back as it was written:
    [parseCSVLine] returns the eight values of the row, in order, when
    the values neither start nor end with white space or a quote, the
    date, type and period hold no quote, and the three bare fields hold
    neither quote nor comma.  The two names may hold commas and, inside,
    quotes: the writer doubles the quotes and the reader undoes it. *)
Theorem holiday_csv_line_round_trip (row : HolidayCSVRow) :
  rowOk row -> parseCSVLine (holidayLine row) = holidayValues row.
Proof.
  intros (Hclean & Hd & Ht & Hp & Hpub & Hy & Hm).
  unfold parseCSVLine, holidayLine.
  pose proof (cells_parse
                [ quotedCell (r_date row); quotedCell (r_name row);
                  quotedCell (r_nameEn row); quotedCell (r_type row);
                  bareCell (r_isPublicHoliday row); bareCell (r_year row);
                  bareCell (r_month row); quotedCell (r_period row) ] [])
    as Hparse.
  cbn [fmap list_fmap renderCell cellValue app] in Hparse.
  rewrite (escapeQuotes_quoteFree (r_date row)) in Hparse by done.
  rewrite (escapeQuotes_quoteFree (r_type row)) in Hparse by done.
  rewrite (escapeQuotes_quoteFree (r_period row)) in Hparse by done.
  unfold holidayValues in Hclean.
  assert (Hok : Forall cellOk
                  [ quotedCell (r_date row); quotedCell (r_name row);
                    quotedCell (r_nameEn row); quotedCell (r_type row);
                    bareCell (r_isPublicHoliday row); bareCell (r_year row);
                    bareCell (r_month row); quotedCell (r_period row) ]).
  { repeat match goal with
           | H : Forall clean (_ :: _) |- _ => apply Forall_cons in H as [? H]
           end.
    repeat (apply Forall_cons; split; [by split|]). constructor. }
  specialize (Hparse ltac:(done) Hok).
  transitivity (stripQuotes <$> holidayValues row).
  - f_equal. exact Hparse.
  - unfold holidayValues.
    repeat match goal with
           | H : Forall clean (_ :: _) |- _ =>
               apply Forall_cons in H as [[_ ?] H]
           end.
    cbn [fmap list_fmap]. congruence.
Qed.

Lemma holiday_csv_line_round_trip_witness :
  parseCSVLine (holidayLine sampleHolidayRow) = holidayValues sampleHolidayRow.
Proof.
  apply (holiday_csv_line_round_trip sampleHolidayRow).
  unfold rowOk, quoteFree, plain, clean.
  repeat split; vm_compute; repeat constructor; done.
Defined.

End CsvFacts.

